(** * SpinCoater controller: recipe store, permissions and the motor worker

    A shallow embedding of [GUI_spin_coater.py].  The Python dictionaries
    that hold recipes and steps become records of optional fields (a key
    may be absent, and the code distinguishes [d[k]] from [d.get(k, v)]);
    [self.saved_recipes], an insertion-ordered [dict], becomes an
    association list; the Qt widgets the handlers read are arguments of
    the handlers, the widgets and files they write are fields of [gui];
    the worker thread is a program in a small monad of state, exceptions
    and a trace, the trace being every signal, serial command, sleep and
    read of the cancellation flag, in order. *)

From Stdlib Require Import String Ascii ZArith List Bool Lia Permutation.
From Stdlib Require Import DecimalString.
From Stdlib Require Import Sorted.
Import ListNotations.
Open Scope string_scope.
Open Scope Z_scope.

(* ================================================================= *)
(** ** Python values *)

(** A step or recipe dictionary.  Every key the program ever reads or
    writes is a field; [None] means the key is absent. *)
Record pydict := mkDict {
  d_type : option string;
  d_name : option string;
  d_speed : option Z;
  d_duration : option Z;
  d_acceleration : option Z;
  d_author : option string;
  d_shared : option bool
}.

(** [not d] for a dictionary [d]: only [{}] is falsy. *)
Definition dict_is_empty (d : pydict) : bool :=
  match d with
  | mkDict None None None None None None None => true
  | _ => false
  end.

(** [d['name'] = v] and [d['type'] = v]. *)
Definition set_name (v : string) (d : pydict) : pydict :=
  mkDict (d_type d) (Some v) (d_speed d) (d_duration d)
         (d_acceleration d) (d_author d) (d_shared d).

Definition set_type (v : string) (d : pydict) : pydict :=
  mkDict (Some v) (d_name d) (d_speed d) (d_duration d)
         (d_acceleration d) (d_author d) (d_shared d).

(** [d.get(k, v)]. *)
Definition get_or {A : Type} (field : option A) (dflt : A) : A :=
  match field with
  | Some v => v
  | None => dflt
  end.

(** Exceptions: a missing key, indexing a string with a string, and a
    call on the serial port that fails ([serial.SerialException]). *)
Inductive exn :=
| KeyError (key : string)
| TypeError
| SerialException.

Inductive result (A : Type) :=
| Ok (a : A)
| Raise (e : exn).
Arguments Ok {A} a.
Arguments Raise {A} e.

(** [d[k]]. *)
Definition getitem {A : Type} (key : string) (field : option A) : result A :=
  match field with
  | Some v => Ok v
  | None => Raise (KeyError key)
  end.

(** [not s] for a string [s]. *)
Definition str_is_empty (s : string) : bool :=
  match s with
  | EmptyString => true
  | _ => false
  end.

(** [f"{n}"] for an integer. *)
Definition str_of_int (n : Z) : string := NilZero.string_of_int (Z.to_int n).

(** [sub in s]. *)
Fixpoint contains (sub s : string) : bool :=
  String.prefix sub s ||
  match s with
  | EmptyString => false
  | String _ s' => contains sub s'
  end.

(** [s.split(" (")[0]]: what comes before the first [" ("], or all of
    [s] when there is none. *)
Fixpoint split_head (s : string) : string :=
  match s with
  | EmptyString => EmptyString
  | String c s' => if String.prefix " (" s then EmptyString
                   else String c (split_head s')
  end.

(* ================================================================= *)
(** ** The recipe dictionary [self.saved_recipes]

    Python dictionaries keep insertion order, and both the listing (a
    stable sort) and the name lookup of [start_process] (first match)
    depend on it. *)

Definition store := list (string * pydict).

Definition keys (d : store) : list string := map fst d.

(** [d.get(k)]. *)
Fixpoint dict_get (k : string) (d : store) : option pydict :=
  match d with
  | [] => None
  | (k', v) :: rest => if String.eqb k k' then Some v else dict_get k rest
  end.

(** [d[k] = v]: an existing key keeps its place, a new one goes last. *)
Fixpoint dict_set (k : string) (v : pydict) (d : store) : store :=
  match d with
  | [] => [(k, v)]
  | (k', v') :: rest =>
      if String.eqb k k' then (k', v) :: rest
      else (k', v') :: dict_set k v rest
  end.

(** [del d[k]]. *)
Fixpoint dict_del (k : string) (d : store) : store :=
  match d with
  | [] => []
  | (k', v') :: rest =>
      if String.eqb k k' then rest else (k', v') :: dict_del k rest
  end.

(* ================================================================= *)
(** ** Widgets and files *)

(** An item of the recipe library list: its text and the recipe
    identifier stored under [Qt.ItemDataRole.UserRole] (headers and the
    spacer carry none). *)
Record list_item := mkItem {
  text : string;
  role : option string
}.

(** The user data of an item of the execution queue: nothing, the
    identifier of a dragged recipe, or the dictionary of a wait step. *)
Inductive user_role :=
| RoleNone
| RoleId (rid : string)
| RoleDict (d : pydict).

Record queue_item := mkQueueItem {
  q_text : string;
  q_data : user_role
}.

(** The window: the recipes and users in memory, the two list widgets,
    and the three files.  A row of [history.csv] is kept without its
    timestamp. *)
Record gui := mkGui {
  saved_recipes : store;
  users : list string;
  recipe_list : list list_item;
  queue_list : list queue_item;
  recipes_json : option store;
  users_json : option (list string);
  history_csv : list (string * string)
}.

(** How a handler ended: it ran to its end, returned early without a
    word, returned after a [QMessageBox.warning], or raised. *)
Inductive outcome :=
| Done
| Ignored
| Warned (title body : string)
| Raised (e : exn).

(* ================================================================= *)
(** ** Sequencing computations that may raise *)

Definition bind_result {A B : Type} (r : result A) (k : A -> result B)
  : result B :=
  match r with
  | Ok a => k a
  | Raise e => Raise e
  end.

Declare Scope result_scope.
Delimit Scope result_scope with result.
Notation "'let?' x ':=' r 'in' k" := (bind_result r (fun x => k))
  (at level 10, x name, r at level 100, k at level 200) : result_scope.
Open Scope result_scope.

(* ================================================================= *)
(** ** [refresh_recipe_list] *)

(** The classification loop: the shared pool takes every shared recipe,
    the private pool the unshared ones of the current user, and the rest
    is dropped.  Returns [(my_private_recipes, all_shared_recipes)]. *)
Fixpoint classify (current_user : string) (saved : store) : store * store :=
  match saved with
  | [] => ([], [])
  | (r_id, data) :: rest =>
      let (my_private_recipes, all_shared_recipes) :=
        classify current_user rest in
      let author := get_or (d_author data) "Unknown" in
      let is_shared := get_or (d_shared data) false in
      if is_shared then
        (my_private_recipes, (r_id, data) :: all_shared_recipes)
      else if String.eqb author current_user then
        ((r_id, data) :: my_private_recipes, all_shared_recipes)
      else
        (my_private_recipes, all_shared_recipes)
  end.

(** [list.sort(key=lambda x: x[1]['name'])]: the keys are computed for
    every element first, then the list is sorted on them, stably. *)
Fixpoint name_keys (l : store) : result (list (string * (string * pydict))) :=
  match l with
  | [] => Ok []
  | (r_id, data) :: rest =>
      let? k := getitem "name" (d_name data) in
      let? ks := name_keys rest in
      Ok ((k, (r_id, data)) :: ks)
  end.

Fixpoint insert_sorted {A : Type} (x : string * A) (l : list (string * A))
  : list (string * A) :=
  match l with
  | [] => [x]
  | y :: ys =>
      if String.leb (fst x) (fst y) then x :: y :: ys
      else y :: insert_sorted x ys
  end.

Definition stable_sort {A : Type} (l : list (string * A))
  : list (string * A) :=
  fold_right insert_sorted [] l.

Definition sort_by_name (l : store) : result store :=
  let? ks := name_keys l in
  Ok (map snd (stable_sort ks)).

Definition header_private : list_item :=
  mkItem "--- My Private Recipes ---" None.
Definition spacer : list_item := mkItem "" None.
Definition header_shared : list_item :=
  mkItem "--- Shared Recipes (All Users) ---" None.

(** The two rendering loops.  Each returns the items it added and the
    exception that stopped it, if any: items already added stay in the
    widget. *)
Fixpoint render_private (l : store) : list list_item * option exn :=
  match l with
  | [] => ([], None)
  | (r_id, data) :: rest =>
      match getitem "name" (d_name data) with
      | Raise e => ([], Some e)
      | Ok n =>
          let (items, e) := render_private rest in
          (mkItem n (Some r_id) :: items, e)
      end
  end.

Fixpoint render_shared (current_user : string) (l : store)
  : list list_item * option exn :=
  match l with
  | [] => ([], None)
  | (r_id, data) :: rest =>
      match getitem "name" (d_name data) with
      | Raise e => ([], Some e)
      | Ok display_name =>
          match getitem "author" (d_author data) with
          | Raise e => ([], Some e)
          | Ok a =>
              let display_name :=
                if negb (String.eqb a current_user)
                then display_name ++ " (" ++ a ++ ")"
                else display_name in
              let (items, e) := render_shared current_user rest in
              (mkItem display_name (Some r_id) :: items, e)
          end
      end
  end.

(** The content of [self.recipe_list] after the call, and the exception
    that ended it early, if any. *)
Definition refresh_recipe_list (saved : store) (current_user : string)
  : list list_item * option exn :=
  if str_is_empty current_user then ([], None)
  else
    let (my_private_recipes, all_shared_recipes) :=
      classify current_user saved in
    match sort_by_name my_private_recipes with
    | Raise e => ([], Some e)
    | Ok my_private_recipes =>
    match sort_by_name all_shared_recipes with
    | Raise e => ([], Some e)
    | Ok all_shared_recipes =>
        let (private_items, e1) :=
          match my_private_recipes with
          | [] => ([], None)
          | _ :: _ =>
              let (items, e) := render_private my_private_recipes in
              (header_private :: items, e)
          end in
        match e1 with
        | Some e => (private_items, Some e)
        | None =>
            let spacer_items :=
              match my_private_recipes, all_shared_recipes with
              | _ :: _, _ :: _ => [spacer]
              | _, _ => []
              end in
            let (shared_items, e2) :=
              match all_shared_recipes with
              | [] => ([], None)
              | _ :: _ =>
                  let (items, e) :=
                    render_shared current_user all_shared_recipes in
                  (header_shared :: items, e)
              end in
            ((private_items ++ spacer_items ++ shared_items)%list, e2)
        end
    end
    end.

(** The slot connected to [user_combo.currentTextChanged], and the call
    that ends [save_recipe] and [delete_recipe]. *)
Definition refresh (g : gui) (current_user : string) : option exn * gui :=
  let (items, e) := refresh_recipe_list (saved_recipes g) current_user in
  (e, mkGui (saved_recipes g) (users g) items (queue_list g)
            (recipes_json g) (users_json g) (history_csv g)).

(** A recipe identifier is listed when some item carries it. *)
Definition listed (r_id : string) (items : list list_item) : Prop :=
  In (Some r_id) (map role items).

(** [log_action]: one more row in [history.csv], under the current user
    or ["Unknown"]. *)
Definition log_action (current_user action : string) (g : gui) : gui :=
  let u := if str_is_empty current_user then "Unknown" else current_user in
  mkGui (saved_recipes g) (users g) (recipe_list g) (queue_list g)
        (recipes_json g) (users_json g) (history_csv g ++ [(u, action)])%list.

(* ================================================================= *)
(** ** [load_data] *)

(** The migration loop over [raw_data.items()]; [uuid4 n] is what the
    [n]-th call of [uuid.uuid4()] returns, as a string. *)
Fixpoint migrate (uuid4 : nat -> string) (n : nat) (raw_data : store)
  (saved : store) : store :=
  match raw_data with
  | [] => saved
  | (key, val) :: rest =>
      match d_name val with
      | None =>
          let new_id := uuid4 n in
          migrate uuid4 (S n) rest (dict_set new_id (set_name key val) saved)
      | Some _ =>
          migrate uuid4 n rest (dict_set key val saved)
      end
  end.

Definition load_data (uuid4 : nat -> string) (current_user : string)
  (g : gui) : option exn * gui :=
  let users' :=
    match users_json g with
    | Some us => us
    | None => users g
    end in
  let saved' :=
    match recipes_json g with
    | Some raw_data => migrate uuid4 0 raw_data []
    | None => saved_recipes g
    end in
  refresh (mkGui saved' users' (recipe_list g) (queue_list g)
                 (recipes_json g) (users_json g) (history_csv g))
          current_user.

(* ================================================================= *)
(** ** [save_recipe] and [delete_recipe] *)

(** How both handlers end, after their call of [refresh_recipe_list]:
    [Done], unless that call raised. *)
Definition after_refresh (p : option exn * gui) : outcome * gui :=
  match p with
  | (Some e, g) => (Raised e, g)
  | (None, g) => (Done, g)
  end.

Definition with_recipes (saved : store) (g : gui) : gui :=
  mkGui saved (users g) (recipe_list g) (queue_list g)
        (recipes_json g) (users_json g) (history_csv g).

(** [json.dump(self.saved_recipes, f)] into [recipes.json]. *)
Definition dump_recipes (g : gui) : gui :=
  mkGui (saved_recipes g) (users g) (recipe_list g) (queue_list g)
        (Some (saved_recipes g)) (users_json g) (history_csv g).

(** [a != user] where [a] comes from [d.get('author')] and may be
    [None]. *)
Definition differs (a : option string) (user : string) : bool :=
  match a with
  | Some a => negb (String.eqb a user)
  | None => true
  end.

(** [f"{a}"] for such a value. *)
Definition str_of_author (a : option string) : string :=
  match a with
  | Some a => a
  | None => "None"
  end.

(** The identifier an update is meant for: the one of the selected item,
    unless the item is a header. *)
Definition selected_recipe_id (current_item : option list_item)
  : option string :=
  match current_item with
  | Some item =>
      if negb (String.prefix "---" (text item)) then
        match role item with
        | Some selected_id =>
            if str_is_empty selected_id then None else Some selected_id
        | None => None
        end
      else None
  | None => None
  end.

(** The permission check of [save_recipe]: [Some author] when the save
    must be refused. *)
Definition save_denied (saved : store) (recipe_id : option string)
  (user : string) : option (option string) :=
  match recipe_id with
  | Some rid =>
      match dict_get rid saved with
      | Some existing_data =>
          let author := d_author existing_data in
          let is_shared := get_or (d_shared existing_data) false in
          if differs author user && negb is_shared then Some author
          else None
      | None => None
      end
  | None => None
  end.

(** [save_recipe].  [name], [user], [current_item], [speed], [duration],
    [acceleration] and [shared] are read from the widgets; [fresh] is
    what [str(uuid.uuid4())] returns if it is called. *)
Definition save_recipe (name user : string) (current_item : option list_item)
  (speed duration acceleration : Z) (shared : bool) (fresh : string)
  (g : gui) : outcome * gui :=
  if str_is_empty user then
    (Warned "Error" "Please select a User first!", g)
  else if str_is_empty name then (Ignored, g)
  else
    let recipe_id := selected_recipe_id current_item in
    match save_denied (saved_recipes g) recipe_id user with
    | Some author =>
        (Warned "Permission Denied"
           ("You cannot modify '" ++ name ++ "' because it belongs to "
              ++ str_of_author author ++ " and is not shared."), g)
    | None =>
        let recipe_id := get_or recipe_id fresh in
        let author :=
          match dict_get recipe_id (saved_recipes g) with
          | None => Ok user
          | Some existing => getitem "author" (d_author existing)
          end in
        match author with
        | Raise e => (Raised e, g)
        | Ok author =>
            let data :=
              mkDict None (Some name) (Some speed) (Some duration)
                     (Some acceleration) (Some author) (Some shared) in
            let g := with_recipes (dict_set recipe_id data (saved_recipes g)) g in
            let g := dump_recipes g in
            let g := log_action user ("Saved: " ++ name) g in
            after_refresh (refresh g user)
        end
    end.

(** [delete_recipe], on the selected item and the current user. *)
Definition delete_recipe (current_item : option list_item)
  (current_user : string) (g : gui) : outcome * gui :=
  match current_item with
  | None => (Ignored, g)
  | Some item =>
      match role item with
      | None => (Ignored, g)
      | Some recipe_id =>
          if str_is_empty recipe_id then (Ignored, g)
          else
            match dict_get recipe_id (saved_recipes g) with
            | None => (Ignored, g)
            | Some data =>
                if dict_is_empty data then (Ignored, g)
                else
                  let author := d_author data in
                  let is_shared := get_or (d_shared data) false in
                  if differs author current_user && negb is_shared then
                    (Warned "Permission Denied"
                       "You cannot delete this recipe. It belongs to another user.",
                     g)
                  else
                    match getitem "name" (d_name data) with
                    | Raise e => (Raised e, g)
                    | Ok name =>
                        let g :=
                          with_recipes (dict_del recipe_id (saved_recipes g)) g in
                        let g := dump_recipes g in
                        let g := log_action current_user ("Deleted: " ++ name) g in
                        after_refresh (refresh g current_user)
                    end
            end
      end
  end.

(* ================================================================= *)
(** ** Users *)

Definition with_users (us : list string) (g : gui) : gui :=
  mkGui (saved_recipes g) us (recipe_list g) (queue_list g)
        (recipes_json g) (Some us) (history_csv g).

Definition user_mem (u : string) (us : list string) : bool :=
  existsb (String.eqb u) us.

(** [list.remove(u)]: the first occurrence goes. *)
Fixpoint list_remove (u : string) (us : list string) : list string :=
  match us with
  | [] => []
  | v :: rest => if String.eqb u v then rest else v :: list_remove u rest
  end.

(** [add_new_user]; [name] and [ok] are the answer of the input dialog. *)
Definition add_new_user (name : string) (ok : bool) (g : gui) : gui :=
  if ok && negb (str_is_empty name) && negb (user_mem name (users g))
  then with_users (users g ++ [name])%list g
  else g.

(** [delete_user]; [u] is the current text of the user box and [yes]
    the answer to the confirmation.  Removing the entry from the box
    changes its current text, which runs [refresh] as a slot of its
    own. *)
Definition delete_user (u : string) (yes : bool) (g : gui) : gui :=
  if negb (str_is_empty u) && user_mem u (users g) then
    if yes then with_users (list_remove u (users g)) g else g
  else g.

(* ================================================================= *)
(** ** The execution queue and [start_process] *)

Definition with_queue (q : list queue_item) (g : gui) : gui :=
  mkGui (saved_recipes g) (users g) (recipe_list g) q
        (recipes_json g) (users_json g) (history_csv g).

(** [add_wait_step]. *)
Definition add_wait_step (dur : Z) (g : gui) : gui :=
  let item :=
    mkQueueItem ("--- WAIT " ++ str_of_int dur ++ "s ---")
      (RoleDict (mkDict (Some "wait") (Some "Wait") None (Some dur)
                        None None None)) in
  with_queue (queue_list g ++ [item])%list g.

(** Dropping an item of the recipe list on the queue copies its text;
    [keeps_role] says whether the copy kept the identifier. *)
Definition drop_recipe (item : list_item) (keeps_role : bool) (g : gui)
  : gui :=
  let data :=
    match role item with
    | Some r_id => if keeps_role then RoleId r_id else RoleNone
    | None => RoleNone
    end in
  with_queue (queue_list g ++ [mkQueueItem (text item) data])%list g.

(** [data and 'type' in data and data['type'] == 'wait']. *)
Definition is_wait_step (data : user_role) : result bool :=
  match data with
  | RoleNone => Ok false
  | RoleId s =>
      if str_is_empty s then Ok false
      else if contains "type" s then Raise TypeError
      else Ok false
  | RoleDict d =>
      if dict_is_empty d then Ok false
      else
        match d_type d with
        | None => Ok false
        | Some t => Ok (String.eqb t "wait")
        end
  end.

(** The search loop: the first recipe, in the order of the dictionary,
    whose name is [clean_name]. *)
Fixpoint find_by_name (clean_name : string) (saved : store)
  : result (option pydict) :=
  match saved with
  | [] => Ok None
  | (rid, rdata) :: rest =>
      let? n := getitem "name" (d_name rdata) in
      if String.eqb n clean_name then Ok (Some rdata)
      else find_by_name clean_name rest
  end.

(** One turn of the loop over the queue: the step and the name it
    appends, if any. *)
Definition resolve_item (saved : store) (item : queue_item)
  : result (option (pydict * string)) :=
  let data := q_data item in
  let? wait := is_wait_step data in
  if wait then
    match data with
    | RoleDict d => Ok (Some (d, "Wait"))
    | _ => Ok None
    end
  else
    let item_text := q_text item in
    let clean_name := split_head item_text in
    let? found_data := find_by_name clean_name saved in
    match found_data with
    | Some found_data =>
        if dict_is_empty found_data then Ok None
        else Ok (Some (set_type "spin" found_data, clean_name))
    | None => Ok None
    end.

Fixpoint collect_steps (saved : store) (queue : list queue_item)
  : result (list pydict * list string) :=
  match queue with
  | [] => Ok ([], [])
  | item :: rest =>
      let? this := resolve_item saved item in
      let? more := collect_steps saved rest in
      match this with
      | Some (step, name) => Ok (step :: fst more, name :: snd more)
      | None => Ok more
      end
  end.

(** What [MotorWorker.__init__] is given. *)
Record worker := mkWorker {
  recipe_steps : list pydict;
  loop_count : Z;
  simulation_mode : bool
}.

(** [start_process]: the outcome, the window, and the worker it starts,
    if any.  [user], [sim_mode] and [loops] are read from the widgets. *)
Definition start_process (user : string) (sim_mode : bool) (loops : Z)
  (g : gui) : outcome * gui * option worker :=
  if str_is_empty user then
    (Warned "Error" "Select a User first!", g, None)
  else
    match collect_steps (saved_recipes g) (queue_list g) with
    | Raise e => (Raised e, g, None)
    | Ok (steps, names) =>
        match steps with
        | [] => (Ignored, g, None)
        | _ :: _ =>
            let mode_text := if sim_mode then "[SIM]" else "[LIVE]" in
            let g :=
              log_action user
                ("Started " ++ mode_text ++ ": " ++ String.concat ", " names)
                g in
            (Done, g, Some (mkWorker steps loops sim_mode))
        end
    end.

(* ================================================================= *)
(** ** [MotorWorker]: signals, serial port and the cancellation flag *)

(** What [progress_update] carries.  The three step notifications keep
    the parts of their prefix [f"Loop {current_loop}/{total_loops} |
    {name}"] apart; [message_text] is the string that is emitted. *)
Inductive message :=
| Initializing
| NoSerial
| Connected (port : string)
| ConnectionError (e : string)
| Waiting (current_loop total_loops : Z) (name : string) (t : Z)
| Ramping (current_loop total_loops : Z) (name : string) (speed : Z)
| Spinning (current_loop total_loops : Z) (name : string) (speed t : Z)
| ProcessComplete.

Definition prefix_text (current_loop total_loops : Z) (name : string)
  : string :=
  "Loop " ++ str_of_int current_loop ++ "/" ++ str_of_int total_loops
          ++ " | " ++ name.

Definition message_text (m : message) : string :=
  match m with
  | Initializing => "Initializing..."
  | NoSerial => "Error: pyserial not installed!"
  | Connected port => "Connected to " ++ port
  | ConnectionError e => "Connection Error: " ++ e
  | Waiting l n name t =>
      prefix_text l n name ++ ": WAITING " ++ str_of_int t ++ "s..."
  | Ramping l n name speed =>
      prefix_text l n name ++ ": Ramping to " ++ str_of_int speed ++ " RPM..."
  | Spinning l n name speed t =>
      prefix_text l n name ++ ": Spinning " ++ str_of_int speed
                  ++ " RPM (" ++ str_of_int t ++ "s left)"
  | ProcessComplete => "Process Complete."
  end.

(** The notifications that report the progress of a step. *)
Definition is_step_progress (m : message) : bool :=
  match m with
  | Waiting _ _ _ _ | Ramping _ _ _ _ | Spinning _ _ _ _ _ => true
  | _ => false
  end.

Definition newline : string := String (ascii_of_nat 10) EmptyString.

(** [f"SPEED:{speed}\n"]; [speed_command 0] is [b"SPEED:0\n"]. *)
Definition speed_command (speed : Z) : string :=
  "SPEED:" ++ str_of_int speed ++ newline.

(** Everything the thread does that can be seen from outside, and every
    read of [self.is_running] with the value read. *)
Inductive event :=
| Emit (m : message)
| Finished
| SerialOpen (port : string) (baud_rate : Z)
| SerialWrite (cmd : string)
| SerialClose
| Sleep (seconds : Z)
| Poll (is_running : bool).

(** What the thread runs in: is [import serial] possible, does opening
    the port raise (and with which text), how many reads of
    [self.is_running] still see [True] before [stop()] has been called
    ([None]: it never is), and how many calls of [self.ser.write] and
    [self.ser.close] succeed before one raises ([None]: none ever
    does).  The flag only ever goes from [True] to [False], so
    [stop_after] covers every interleaving with [stop]; the calls on
    the open port are outside any [try], so the first that raises ends
    the thread. *)
Record environment := mkEnv {
  SERIAL_AVAILABLE : bool;
  open_error : option string;
  stop_after : option nat;
  fault_after : option nat
}.

(** The state of the thread: [self.ser] is set or [None], the reads of
    the flag that are left, and the calls on the port that are left
    before one raises. *)
Record wstate := mkState {
  ser : bool;
  polls_left : option nat;
  io_left : option nat
}.

(** A computation returns or raises, leaves a state, and has appended
    its events to the trace. *)
Definition M (A : Type) : Type := wstate -> result A * wstate * list event.

Definition ret {A : Type} (a : A) : M A := fun s => (Ok a, s, []).

Definition bind {A B : Type} (m : M A) (k : A -> M B) : M B :=
  fun s =>
    match m s with
    | (Ok a, s1, t1) =>
        match k a s1 with
        | (r, s2, t2) => (r, s2, (t1 ++ t2)%list)
        end
    | (Raise e, s1, t1) => (Raise e, s1, t1)
    end.

Declare Scope worker_scope.
Delimit Scope worker_scope with worker.
Notation "x <- m ;; k" := (bind m (fun x => k))
  (at level 61, m at next level, right associativity) : worker_scope.
Notation "m ;; k" := (bind m (fun _ => k))
  (at level 61, right associativity) : worker_scope.
Open Scope worker_scope.

Definition tell (e : event) : M unit := fun s => (Ok tt, s, [e]).

Definition emit (m : message) : M unit := tell (Emit m).
Definition sleep (seconds : Z) : M unit := tell (Sleep seconds).

(** [step[key]]. *)
Definition lift {A : Type} (r : result A) : M A := fun s => (r, s, []).

(** Reading [self.is_running]. *)
Definition is_running : M bool :=
  fun s =>
    match polls_left s with
    | None => (Ok true, s, [Poll true])
    | Some O => (Ok false, s, [Poll false])
    | Some (S n) =>
        (Ok true, mkState (ser s) (Some n) (io_left s), [Poll true])
    end.

Definition port : string := "COM3".
Definition baud_rate : Z := 9600.

(** [self.ser = serial.Serial(self.port, self.baud_rate, timeout=1)]
    when it returns. *)
Definition set_ser : M unit :=
  fun s =>
    (Ok tt, mkState true (polls_left s) (io_left s),
     [SerialOpen port baud_rate]).

(** A call on the open port, [self.ser.write(cmd)] or
    [self.ser.close()]: it does what [call] says, or it raises. *)
Definition serial_io (call : event) : M unit :=
  fun s =>
    match io_left s with
    | None => (Ok tt, s, [call])
    | Some O => (Raise SerialException, s, [])
    | Some (S n) => (Ok tt, mkState (ser s) (polls_left s) (Some n), [call])
    end.

(** [if not self.simulation_mode and self.ser: self.ser.write(cmd)]. *)
Definition write_if_live (simulation_mode : bool) (cmd : string) : M unit :=
  fun s =>
    if negb simulation_mode && ser s then serial_io (SerialWrite cmd) s
    else (Ok tt, s, []).

(** [for x in xs: if not self.is_running: break; body(x)], the shape
    of all three loops of [run]. *)
Fixpoint for_running {A : Type} (xs : list A) (body : A -> M unit) : M unit :=
  match xs with
  | [] => ret tt
  | x :: rest =>
      running <- is_running ;;
      if running then body x ;; for_running rest body
      else ret tt
  end.

(** [range(lo, hi)] and [range(hi, 0, -1)]. *)
Definition range_up (lo hi : Z) : list Z :=
  map (fun i => lo + Z.of_nat i) (seq 0 (Z.to_nat (hi - lo))).

Definition range_down (hi : Z) : list Z :=
  map (fun i => hi - Z.of_nat i) (seq 0 (Z.to_nat hi)).

(** The body of the loop over the steps. *)
Definition run_step (simulation_mode : bool) (current_loop total_loops : Z)
  (step : pydict) : M unit :=
  let step_type := get_or (d_type step) "spin" in
  let name := get_or (d_name step) "Step" in
  duration <- lift (getitem "duration" (d_duration step)) ;;
  if String.eqb step_type "wait" then
    write_if_live simulation_mode (speed_command 0) ;;
    for_running (range_down duration) (fun t =>
      emit (Waiting current_loop total_loops name t) ;;
      sleep 1)
  else
    speed <- lift (getitem "speed" (d_speed step)) ;;
    write_if_live simulation_mode (speed_command speed) ;;
    emit (Ramping current_loop total_loops name speed) ;;
    sleep 1 ;;
    for_running (range_down duration) (fun t =>
      emit (Spinning current_loop total_loops name speed t) ;;
      sleep 1).

(** Part 2 of [run], the execution loop. *)
Definition execution_loop (w : worker) : M unit :=
  let total_loops := loop_count w in
  for_running (range_up 1 (total_loops + 1)) (fun current_loop =>
    for_running (recipe_steps w)
      (run_step (simulation_mode w) current_loop total_loops)).

(** Part 3 of [run], finish and stop. *)
Definition finish (w : worker) : M unit :=
  (fun s =>
     if negb (simulation_mode w) && ser s
     then (serial_io (SerialWrite (speed_command 0)) ;;
           serial_io SerialClose) s
     else (Ok tt, s, [])) ;;
  emit ProcessComplete ;;
  tell Finished.

(** Part 1 of [run], connecting: [true] when [run] goes on, [false]
    when it has returned. *)
Definition connect (w : worker) (env : environment) : M bool :=
  if negb (simulation_mode w) then
    if negb (SERIAL_AVAILABLE env) then
      emit NoSerial ;; tell Finished ;; ret false
    else
      match open_error env with
      | None =>
          set_ser ;; sleep 2 ;; emit (Connected port) ;; ret true
      | Some e =>
          emit (ConnectionError e) ;; tell Finished ;; ret false
      end
  else ret true.

Definition run_body (w : worker) (env : environment) : M unit :=
  emit Initializing ;;
  go_on <- connect w env ;;
  if go_on then execution_loop w ;; finish w
  else ret tt.

(** [MotorWorker.run]: how it ended and what it did, in order.  The
    thread starts with [self.ser = None]. *)
Definition run (w : worker) (env : environment) : result unit * list event :=
  match run_body w env
          (mkState false (stop_after env) (fault_after env)) with
  | (r, _, trace) => (r, trace)
  end.

(** The notifications of a trace, in order, and the serial commands. *)
Fixpoint notifications (trace : list event) : list message :=
  match trace with
  | [] => []
  | Emit m :: rest => m :: notifications rest
  | _ :: rest => notifications rest
  end.

Fixpoint device_commands (trace : list event) : list string :=
  match trace with
  | [] => []
  | SerialWrite cmd :: rest => cmd :: device_commands rest
  | _ :: rest => device_commands rest
  end.

(* ================================================================= *)
(** ** Notions used by the statements *)


(** Recipes the list can show: each has a name, and each shared one
    an author. *)
Definition well_formed (data : pydict) : bool :=
  match d_name data with
  | None => false
  | Some _ =>
      if get_or (d_shared data) false then
        match d_author data with
        | None => false
        | Some _ => true
        end
      else true
  end.

Definition listable (saved : store) : bool :=
  forallb (fun kv => well_formed (snd kv)) saved.

(** Who may update or delete: the author, or anyone if it is shared. *)
Definition authorized (user : string) (data : pydict) : Prop :=
  d_author data = Some user \/ get_or (d_shared data) false = true.

(** The six notifications of one pass over [Spin(2000, 3); Wait(2)]. *)
Definition pass_notifications (current_loop total_loops : Z)
  (spin_name wait_name : string) : list message :=
  [ Ramping current_loop total_loops spin_name 2000;
    Spinning current_loop total_loops spin_name 2000 3;
    Spinning current_loop total_loops spin_name 2000 2;
    Spinning current_loop total_loops spin_name 2000 1;
    Waiting current_loop total_loops wait_name 2;
    Waiting current_loop total_loops wait_name 1 ].

(** How a live run with an open port ends. *)
Definition shutdown : list event :=
  [ SerialWrite (speed_command 0); SerialClose;
    Emit ProcessComplete; Finished ].

Definition is_progress_event (e : event) : bool :=
  match e with
  | Emit m => is_step_progress m
  | _ => false
  end.

(** The trace without the traffic on the serial port: signals, sleeps
    and reads of the flag. *)
Definition is_serial (e : event) : bool :=
  match e with
  | SerialOpen _ _ | SerialWrite _ | SerialClose => true
  | _ => false
  end.

Definition thread_view (trace : list event) : list event :=
  filter (fun e => negb (is_serial e)) trace.



(** A string without [" ("] in it. *)
Definition plain (s : string) : Prop := contains " (" s = false.

(** The number of legacy records of a file, that is, of calls of
    [uuid.uuid4()] by the migration loop. *)
Fixpoint legacy_count (raw_data : store) : nat :=
  match raw_data with
  | [] => O
  | (_, val) :: rest =>
      match d_name val with
      | None => S (legacy_count rest)
      | Some _ => legacy_count rest
      end
  end.

(** The entry each record of the file becomes, in the order read, the
    first legacy record taking [uuid4 n]. *)
Fixpoint migrated (uuid4 : nat -> string) (n : nat) (raw_data : store)
  : store :=
  match raw_data with
  | [] => []
  | (key, val) :: rest =>
      match d_name val with
      | None => (uuid4 n, set_name key val) :: migrated uuid4 (S n) rest
      | Some _ => (key, val) :: migrated uuid4 n rest
      end
  end.

(** The same thread state with another count of serial calls left
    before one fails. *)
Definition set_io (io : option nat) (s : wstate) : wstate :=
  mkState (ser s) (polls_left s) io.

(** The flag has been cleared: every further read sees [False]. *)
Definition stopped (s : wstate) : Prop := polls_left s = Some O.

(** The state a read that saw [True] leaves. *)
Definition after_poll (s : wstate) : wstate :=
  match polls_left s with
  | Some (S n) => mkState (ser s) (Some n) (io_left s)
  | _ => s
  end.

(** What a loop of [run], or the body of one, does about the flag: it
    leaves [self.ser] alone and a cleared flag cleared; and either it
    never read [False], or from the first such read on it did nothing
    but read [False] again, and it returned with the flag cleared. *)
Definition halts_cleanly (s : wstate)
  (out : result unit * wstate * list event) : Prop :=
  match out with
  | (r, s', t) =>
      ser s' = ser s /\ (stopped s -> stopped s') /\
      (~ In (Poll false) t \/
       exists t1 k,
         t = (t1 ++ repeat (Poll false) (S k))%list /\
         ~ In (Poll false) t1 /\ r = Ok tt /\ stopped s')
  end.





(** How a live run begins once the port is open. *)
Definition startup : list event :=
  [ Emit Initializing; SerialOpen port baud_rate; Sleep 2;
    Emit (Connected port) ].

(* ================================================================= *)
(** ** Sample data *)

Definition recipe (name : string) (speed duration acceleration : Z)
  (author : string) (shared : bool) : pydict :=
  mkDict None (Some name) (Some speed) (Some duration) (Some acceleration)
         (Some author) (Some shared).

Definition etch : pydict := recipe "Etch" 3000 30 500 "bob" true.
Definition prime : pydict := recipe "Prime" 1000 5 100 "al" false.
Definition rinse : pydict := recipe "Rinse" 500 10 50 "bob" false.

Definition sample_store : store :=
  [("r1", etch); ("r2", prime); ("r3", rinse)].

Definition sample_gui : gui :=
  mkGui sample_store ["al"; "bob"] [] [] (Some sample_store)
        (Some ["al"; "bob"]) [].

(** Items of the recipe list as [refresh_recipe_list] makes them. *)
Definition etch_item : list_item := mkItem "Etch (bob)" (Some "r1").
Definition prime_item : list_item := mkItem "Prime" (Some "r2").
Definition rinse_item : list_item := mkItem "Rinse" (Some "r3").

(** A file written before recipes had identifiers: [Soak] is keyed by
    its name and has no [name] field. *)
Definition soak_legacy : pydict :=
  mkDict None None (Some 200) (Some 60) (Some 20) (Some "al") None.

Definition legacy_file : store := [("Soak", soak_legacy); ("r1", etch)].

Definition legacy_gui : gui :=
  mkGui [] [] [] [] (Some legacy_file) None [].

(** A generator of identifiers that never repeats itself. *)
Definition sample_uuid4 (n : nat) : string :=
  "uuid-" ++ NilZero.string_of_uint (Nat.to_uint n).

(** The two steps of the sample run, with or without a name. *)
Definition spin_2000_3 (name : option string) : pydict :=
  mkDict (Some "spin") name (Some 2000) (Some 3) None None None.

Definition wait_2 (name : option string) : pydict :=
  mkDict (Some "wait") name None (Some 2) None None None.

(* ================================================================= *)
(** ** Notions used by the further properties *)

(** The name an entry is sorted on, and the order of the sort. *)
Definition name_of (e : string * pydict) : string :=
  get_or (d_name (snd e)) "".

Definition name_le (a b : string * pydict) : Prop :=
  String.leb (name_of a) (name_of b) = true.

(** [x[1]['name'] == n], false without a name. *)
Definition has_name (n : string) (e : string * pydict) : bool :=
  match d_name (snd e) with
  | Some m => String.eqb m n
  | None => false
  end.

(** The identifiers a list shows, in order. *)
Definition listed_ids (items : list list_item) : list string :=
  flat_map (fun it => match role it with Some r => [r] | None => [] end)
           items.

(** Every recipe has a [name] key. *)
Definition all_named (saved : store) : bool :=
  forallb (fun kv => match d_name (snd kv) with
                     | Some _ => true
                     | None => false
                     end) saved.

(** ** The other buttons of the queue *)

(** [QListWidget.takeItem(row)]: the item at [row] leaves the list; a
    row that does not exist changes nothing. *)
Fixpoint take_item {A : Type} (row : nat) (l : list A) : list A :=
  match l, row with
  | [], _ => []
  | _ :: rest, O => rest
  | x :: rest, S row => x :: take_item row rest
  end.

(** [remove_queue_step]; [row] is [self.queue_list.currentRow()], which
    is [-1] when no row is current. *)
Definition remove_queue_step (row : Z) (g : gui) : gui :=
  if 0 <=? row then with_queue (take_item (Z.to_nat row) (queue_list g)) g
  else g.

(** The "Clear All" button, connected to [self.queue_list.clear]. *)
Definition clear_queue (g : gui) : gui := with_queue [] g.


(* ================================================================= *)
(** ** Notions used for the worker thread at large *)

(** What the loops of [run] may do: read the flag, sleep, notify a
    step and, on a live run only, write to the port. *)
Definition is_loop_event (live : bool) (e : event) : bool :=
  match e with
  | Poll _ | Sleep _ => true
  | Emit m => is_step_progress m
  | SerialWrite _ => live
  | _ => false
  end.

(** The keys [run] reads with [step[key]]: a step [run] can execute. *)
Definition step_ok (step : pydict) : bool :=
  match d_duration step with
  | None => false
  | Some _ =>
      if String.eqb (get_or (d_type step) "spin") "wait" then true
      else match d_speed step with
           | None => false
           | Some _ => true
           end
  end.

(** A loop of [run] keeps to its events and raises nothing but the
    [KeyError] of a missing key and, on a live run, the exception of
    a write that failed. *)
Definition loop_sound (live : bool)
  (out : result unit * wstate * list event) : Prop :=
  match out with
  | (r, _, t) =>
      forallb (is_loop_event live) t = true /\
      match r with
      | Ok _ => True
      | Raise e =>
          e = KeyError "duration" \/ e = KeyError "speed" \/
          (live = true /\ e = SerialException)
      end
  end.




(** Reads of the flag that saw [True], step notifications and sleeps
    of a trace. *)
Definition polls_true (trace : list event) : nat :=
  length (filter (fun e => match e with Poll true => true | _ => false end)
                 trace).

Definition progress_count (trace : list event) : nat :=
  length (filter is_progress_event trace).

(** The seconds a trace sleeps. *)
Fixpoint sleep_seconds (trace : list event) : Z :=
  match trace with
  | [] => 0
  | Sleep seconds :: rest => seconds + sleep_seconds rest
  | _ :: rest => sleep_seconds rest
  end.

(** A loop, or a body, that spends at most one notification and one
    second of sleep per read of the flag that saw [True], and [extra]
    more; the reads it made are gone from the reads that are left. *)
Definition within (extra : nat) (s : wstate)
  (out : result unit * wstate * list event) : Prop :=
  match out with
  | (_, s', t) =>
      (forall k, polls_left s = Some k ->
                 exists k', polls_left s' = Some k' /\
                            (polls_true t + k' = k)%nat) /\
      (progress_count t <= extra + polls_true t)%nat /\
      sleep_seconds t <= Z.of_nat (extra + polls_true t)
  end.

(** What one step does when nobody cancels, on a live run with the
    port open ([live]) or not. *)
Definition step_events (live : bool) (current_loop total_loops : Z)
  (step : pydict) : list event :=
  let name := get_or (d_name step) "Step" in
  let duration := get_or (d_duration step) 0 in
  let speed := get_or (d_speed step) 0 in
  if String.eqb (get_or (d_type step) "spin") "wait" then
    ((if live then [SerialWrite (speed_command 0)] else []) ++
     flat_map (fun t => [Poll true;
                         Emit (Waiting current_loop total_loops name t);
                         Sleep 1])
              (range_down duration))%list
  else
    ((if live then [SerialWrite (speed_command speed)] else []) ++
     Emit (Ramping current_loop total_loops name speed) :: Sleep 1 ::
     flat_map (fun t => [Poll true;
                         Emit (Spinning current_loop total_loops name speed t);
                         Sleep 1])
              (range_down duration))%list.

(** The whole execution loop when nobody cancels. *)
Definition loop_events (live : bool) (w : worker) : list event :=
  flat_map (fun current_loop =>
              Poll true ::
              flat_map (fun step =>
                          Poll true ::
                          step_events live current_loop (loop_count w) step)
                       (recipe_steps w))
           (range_up 1 (loop_count w + 1)).

(** The reads of the flag in a trace. *)
Definition polls (trace : list event) : nat :=
  length (filter (fun e => match e with Poll _ => true | _ => false end)
                 trace).

(** [cut k trace]: [trace] up to its read number [k + 1] of the flag,
    that read left out. *)
Fixpoint cut (k : nat) (trace : list event) : list event :=
  match trace with
  | [] => []
  | Poll b :: rest =>
      match k with
      | O => []
      | S k' => Poll b :: cut k' rest
      end
  | e :: rest => e :: cut k rest
  end.

(** What is done of [full], the events of a loop nobody cancels, when
    the reads of the flag that see [True] are [left] ([None]: all):
    all of it, or what comes before the first read that sees
    [False]. *)
Definition schedule (left : option nat) (full : list event) : list event :=
  match left with
  | Some k => cut k full
  | None => full
  end.

(** The flag stays set long enough for [n] reads. *)
Definition outlasts (left : option nat) (n : nat) : Prop :=
  match left with
  | Some k => (n <= k)%nat
  | None => True
  end.

Definition left_after (left : option nat) (n : nat) : option nat :=
  match left with
  | Some k => Some (k - n)%nat
  | None => None
  end.

(** A loop nested [depth] deep (or the body of one) follows [full]:
    when it returns, it has done [full] as far as the flag let it and
    then, if the flag was cleared before [full] was through, left its
    loops reading [False] at least once and at most [depth] times;
    when it raises, it has done part of that. *)
Definition follows (depth : nat) (full : list event) (s : wstate)
  (out : result unit * wstate * list event) : Prop :=
  match out with
  | (Ok _, s', t) =>
      ser s' = ser s /\
      polls_left s' = left_after (polls_left s) (polls full) /\
      exists j,
        t = (schedule (polls_left s) full ++ repeat (Poll false) j)%list /\
        (j <= depth)%nat /\
        (outlasts (polls_left s) (polls full) -> j = O) /\
        (~ outlasts (polls_left s) (polls full) -> (1 <= j)%nat)
  | (Raise _, _, t) =>
      exists rest, schedule (polls_left s) full = (t ++ rest)%list
  end.

(** The seconds of one step: a spin step ramps for one second before
    its countdown; a countdown from zero or below is empty. *)
Definition step_seconds (step : pydict) : Z :=
  let duration := Z.max 0 (get_or (d_duration step) 0) in
  if String.eqb (get_or (d_type step) "spin") "wait" then duration
  else 1 + duration.

Definition pass_seconds (steps : list pydict) : Z :=
  fold_right (fun step total => step_seconds step + total) 0 steps.

(* ================================================================= *)
(** ** The recipe form *)

(** The widgets of the form: the name, the three spin boxes, the
    read-only author and the check box. *)
Record form := mkForm {
  name_input : string;
  speed_input : Z;
  duration_input : Z;
  accel_input : Z;
  author_label : string;
  shared_checkbox : bool
}.

(** What filling the form can raise: a missing key, or PyQt refusing
    an integer that does not fit a C [int]. *)
Inductive form_exn :=
| FormKeyError (key : string)
| FormOverflowError.

(** [QSpinBox.setValue] on a box of range [lo..hi]: the value is
    brought into the range. *)
Definition setValue (lo hi value : Z) : option Z :=
  if (-2147483648 <=? value) && (value <=? 2147483647)
  then Some (Z.max lo (Z.min hi value))
  else None.

(** [load_selected_recipe_details], the handler of a click on an item
    of the recipe list: the form it leaves and what it raised.  The
    widgets are set one after the other, so those set before an
    exception keep their new value. *)
Definition load_selected_recipe_details (item : list_item) (g : gui)
  (f : form) : form * option form_exn :=
  match role item with
  | None => (f, None)
  | Some recipe_id =>
      if str_is_empty recipe_id then (f, None)
      else
        match dict_get recipe_id (saved_recipes g) with
        | None => (f, None)
        | Some data =>
            if dict_is_empty data then (f, None)
            else
              match d_name data with
              | None => (f, Some (FormKeyError "name"))
              | Some name =>
              let f := mkForm name (speed_input f) (duration_input f)
                              (accel_input f) (author_label f)
                              (shared_checkbox f) in
              match d_speed data with
              | None => (f, Some (FormKeyError "speed"))
              | Some speed =>
              match setValue 0 100000 speed with
              | None => (f, Some FormOverflowError)
              | Some speed =>
              let f := mkForm (name_input f) speed (duration_input f)
                              (accel_input f) (author_label f)
                              (shared_checkbox f) in
              match d_duration data with
              | None => (f, Some (FormKeyError "duration"))
              | Some duration =>
              match setValue 0 360000 duration with
              | None => (f, Some FormOverflowError)
              | Some duration =>
              let f := mkForm (name_input f) (speed_input f) duration
                              (accel_input f) (author_label f)
                              (shared_checkbox f) in
              match d_acceleration data with
              | None => (f, Some (FormKeyError "acceleration"))
              | Some acceleration =>
              match setValue 0 100000 acceleration with
              | None => (f, Some FormOverflowError)
              | Some acceleration =>
                  (mkForm (name_input f) (speed_input f) (duration_input f)
                          acceleration
                          (get_or (d_author data) "Unknown")
                          (get_or (d_shared data) false),
                   None)
              end end end end end end end
        end
  end.

(** [self.save_btn]: [save_recipe] reading the form. *)
Definition save_form (f : form) (user : string)
  (current_item : option list_item) (fresh : string) (g : gui)
  : outcome * gui :=
  save_recipe (name_input f) user current_item (speed_input f)
              (duration_input f) (accel_input f) (shared_checkbox f) fresh g.

(* ================================================================= *)
(** ** The history file and its table *)

(** [history.csv] taken row by row, as [csv.writer] appends to it and
    [csv.reader] reads it back: the file is absent, or it holds rows
    of fields, its last line complete.  The handlers above keep of it
    the user and the action of each row they add; here are the file
    itself and the table of the History tab. *)
Module History.

Definition file : Type := option (list (list string)).

Definition header : list string := ["Timestamp"; "User"; "Action"].

(** [log_action], where [t] is what
    [datetime.now().strftime("%Y-%m-%d %H:%M:%S")] returns: the header
    goes first if the file did not exist, then the row. *)
Definition log_action (t current_user action : string) (f : file) : file :=
  let u := if str_is_empty current_user then "Unknown" else current_user in
  match f with
  | None => Some [header; [t; u; action]]
  | Some rows => Some (rows ++ [[t; u; action]])%list
  end.





End History.
(* ================================================================= *)
(** * Properties *)

(** ** Strings and dictionaries *)

Lemma str_is_empty_true (s : string) : str_is_empty s = true <-> s = "".
Proof. destruct s; simpl; split; congruence. Qed.

Lemma str_is_empty_false (s : string) : str_is_empty s = false <-> s <> "".
Proof. destruct s; simpl; split; congruence. Qed.

Lemma dict_get_In (k : string) (v : pydict) (d : store) :
  dict_get k d = Some v -> In (k, v) d.
Proof.
  induction d as [|[k' v'] d IH]; simpl; [discriminate|].
  destruct (String.eqb_spec k k') as [->|Hne]; intros H.
  - left. congruence.
  - right. auto.
Qed.

Lemma In_dict_get (k : string) (v : pydict) (d : store) :
  NoDup (keys d) -> In (k, v) d -> dict_get k d = Some v.
Proof.
  induction d as [|[k' v'] d IH]; simpl; [tauto|].
  intros Hnd [Heq|Hin]; inversion Hnd as [|? ? Hnotin Hnd']; subst.
  - inversion Heq; subst. now rewrite String.eqb_refl.
  - destruct (String.eqb_spec k k') as [->|Hne]; [|auto].
    exfalso. apply Hnotin. change k' with (fst (k', v)). now apply in_map.
Qed.

Lemma In_keys (k : string) (d : store) :
  In k (keys d) <-> exists v, In (k, v) d.
Proof.
  unfold keys. rewrite in_map_iff. split.
  - intros [[k' v] [Hk Hin]]. simpl in Hk. subst. eauto.
  - intros [v Hin]. exists (k, v). auto.
Qed.

Lemma NoDup_keys_functional (k : string) (v v' : pydict) (d : store) :
  NoDup (keys d) -> In (k, v) d -> In (k, v') d -> v = v'.
Proof.
  intros Hnd H1 H2.
  apply (In_dict_get _ _ _ Hnd) in H1. apply (In_dict_get _ _ _ Hnd) in H2.
  congruence.
Qed.

(** ** The listing *)

Lemma classify_private (u r_id : string) (data : pydict) (saved : store) :
  In (r_id, data) (fst (classify u saved)) <->
  In (r_id, data) saved /\ get_or (d_shared data) false = false
  /\ get_or (d_author data) "Unknown" = u.
Proof.
  induction saved as [|[k v] saved IH]; simpl; [tauto|].
  destruct (classify u saved) as [p s]. simpl in IH.
  destruct (get_or (d_shared v) false) eqn:Hs.
  - simpl. rewrite IH. split.
    + tauto.
    + intros [[Heq|Hin] [H1 H2]]; [|tauto].
      inversion Heq; subst. congruence.
  - destruct (String.eqb_spec (get_or (d_author v) "Unknown") u) as [Ha|Ha];
      simpl; rewrite IH; split.
    + intros [Heq|H]; [inversion Heq; subst; tauto|tauto].
    + tauto.
    + tauto.
    + intros [[Heq|Hin] [H1 H2]]; [|tauto].
      inversion Heq; subst. contradiction.
Qed.

Lemma classify_shared (u r_id : string) (data : pydict) (saved : store) :
  In (r_id, data) (snd (classify u saved)) <->
  In (r_id, data) saved /\ get_or (d_shared data) false = true.
Proof.
  induction saved as [|[k v] saved IH]; simpl; [tauto|].
  destruct (classify u saved) as [p s]. simpl in IH.
  destruct (get_or (d_shared v) false) eqn:Hs.
  - simpl. rewrite IH. split.
    + intros [Heq|H]; [inversion Heq; subst; tauto|tauto].
    + tauto.
  - assert (Hgoal : In (r_id, data) s <->
                    ((k, v) = (r_id, data) \/ In (r_id, data) saved)
                    /\ get_or (d_shared data) false = true).
    { rewrite IH. split; [tauto|].
      intros [[Heq|Hin] H1]; [|tauto]. inversion Heq; subst. congruence. }
    destruct (String.eqb _ u); simpl; exact Hgoal.
Qed.

Lemma insert_sorted_perm {A : Type} (x : string * A) (l : list (string * A)) :
  Permutation (insert_sorted x l) (x :: l).
Proof.
  induction l as [|y l IH]; simpl; [reflexivity|].
  destruct (String.leb (fst x) (fst y)); [reflexivity|].
  rewrite IH. apply perm_swap.
Qed.

Lemma stable_sort_perm {A : Type} (l : list (string * A)) :
  Permutation (stable_sort l) l.
Proof.
  induction l as [|x l IH]; simpl; [reflexivity|].
  rewrite insert_sorted_perm. now constructor.
Qed.

Lemma name_keys_snd (l : store) ks :
  name_keys l = Ok ks -> map snd ks = l.
Proof.
  revert ks. induction l as [|[k v] l IH]; simpl; intros ks H.
  - inversion H. reflexivity.
  - destruct (d_name v); simpl in H; [|discriminate].
    destruct (name_keys l) as [ks'|]; simpl in H; [|discriminate].
    inversion H; subst. simpl. f_equal. now apply IH.
Qed.

Lemma sort_by_name_perm (l l' : store) :
  sort_by_name l = Ok l' -> Permutation l' l.
Proof.
  unfold sort_by_name. destruct (name_keys l) as [ks|] eqn:Hk; simpl; [|discriminate].
  intros H. inversion H; subst.
  rewrite stable_sort_perm. now rewrite (name_keys_snd _ _ Hk).
Qed.

Lemma sort_by_name_total (l : store) :
  Forall (fun kv => d_name (snd kv) <> None) l ->
  exists l', sort_by_name l = Ok l'.
Proof.
  intros H. unfold sort_by_name.
  assert (exists ks, name_keys l = Ok ks) as [ks ->].
  { induction H as [|[k v] l Hx Hl [ks IH]]; simpl; [eauto|].
    simpl in Hx. destruct (d_name v); [|congruence]. simpl.
    rewrite IH. simpl. eauto. }
  simpl. eauto.
Qed.

Lemma render_private_roles (l : store) :
  incl (map role (fst (render_private l))) (map (@Some string) (keys l)).
Proof.
  induction l as [|[k v] l IH]; simpl; [apply incl_refl|].
  destruct (d_name v); simpl; [|apply incl_nil_l].
  destruct (render_private l) as [items e]. simpl in *.
  intros x [<-|Hx]; [now left|right; auto].
Qed.

Lemma render_shared_roles (u : string) (l : store) :
  incl (map role (fst (render_shared u l))) (map (@Some string) (keys l)).
Proof.
  induction l as [|[k v] l IH]; simpl; [apply incl_refl|].
  destruct (d_name v); simpl; [|apply incl_nil_l].
  destruct (d_author v); simpl; [|apply incl_nil_l].
  destruct (render_shared u l) as [items e]. simpl in *.
  intros x [<-|Hx]; [now left|right; auto].
Qed.

Lemma render_private_total (l : store) :
  Forall (fun kv => d_name (snd kv) <> None) l ->
  snd (render_private l) = None /\
  map role (fst (render_private l)) = map (@Some string) (keys l).
Proof.
  induction 1 as [|[k v] l Hx Hl [IH1 IH2]]; simpl; [auto|].
  simpl in Hx. destruct (d_name v); [|congruence]. simpl.
  destruct (render_private l) as [items e]. simpl in *. subst.
  split; [reflexivity|]. now f_equal.
Qed.

Lemma render_shared_total (u : string) (l : store) :
  Forall (fun kv => d_name (snd kv) <> None /\ d_author (snd kv) <> None) l ->
  snd (render_shared u l) = None /\
  map role (fst (render_shared u l)) = map (@Some string) (keys l).
Proof.
  induction 1 as [|[k v] l [Hn Ha] Hl [IH1 IH2]]; simpl; [auto|].
  simpl in Hn, Ha. destruct (d_name v); [|congruence].
  destruct (d_author v); [|congruence]. simpl.
  destruct (render_shared u l) as [items e]. simpl in *. subst.
  split; [reflexivity|]. now f_equal.
Qed.

Lemma In_Some_keys (r_id : string) (l : store) :
  In (Some r_id) (map (@Some string) (keys l)) <-> In r_id (keys l).
Proof.
  rewrite in_map_iff. split.
  - intros [k [Hk Hin]]. congruence.
  - eauto.
Qed.

Lemma keys_perm (l l' : store) :
  Permutation l' l -> forall k, In k (keys l') <-> In k (keys l).
Proof.
  intros Hp k. unfold keys. split; apply Permutation_in.
  - now apply Permutation_map.
  - apply Permutation_map. now symmetry.
Qed.

(** Whatever the list shows was put there by the classification loop,
    also when a rendering loop stopped on an exception. *)
Lemma listed_sound (saved : store) (u r_id : string) :
  listed r_id (fst (refresh_recipe_list saved u)) ->
  In r_id (keys (fst (classify u saved))) \/
  In r_id (keys (snd (classify u saved))).
Proof.
  unfold listed, refresh_recipe_list.
  destruct (str_is_empty u); simpl; [tauto|].
  destruct (classify u saved) as [p s]. simpl.
  destruct (sort_by_name p) as [p'|] eqn:Hp; simpl; [|tauto].
  destruct (sort_by_name s) as [s'|] eqn:Hs; simpl; [|tauto].
  apply sort_by_name_perm in Hp. apply sort_by_name_perm in Hs.
  pose proof (render_private_roles p') as Hrp.
  pose proof (render_shared_roles u s') as Hrs.
  assert (Hpriv : forall items,
    In (Some r_id) (map role items) ->
    incl (map role items) (map (@Some string) (keys p')) -> In r_id (keys p)).
  { intros items Hin Hincl. apply (keys_perm _ _ Hp), In_Some_keys. auto. }
  assert (Hshr : forall items,
    In (Some r_id) (map role items) ->
    incl (map role items) (map (@Some string) (keys s')) -> In r_id (keys s)).
  { intros items Hin Hincl. apply (keys_perm _ _ Hs), In_Some_keys. auto. }
  destruct (render_private p') as [pi pe].
  destruct (render_shared u s') as [si se]. simpl in Hrp, Hrs.
  destruct p' as [|p0 p']; destruct s' as [|s0 s']; simpl;
    destruct pe; simpl; rewrite ?map_app; simpl; rewrite ?in_app_iff; simpl;
    intuition (try discriminate; eauto).
Qed.

(** When every recipe can be shown, nothing raises and the list shows
    exactly what the classification loop kept. *)
Lemma listed_complete (saved : store) (u r_id : string) :
  u <> "" -> listable saved = true ->
  snd (refresh_recipe_list saved u) = None /\
  (In r_id (keys (fst (classify u saved))) \/
   In r_id (keys (snd (classify u saved))) ->
   listed r_id (fst (refresh_recipe_list saved u))).
Proof.
  intros Hu Hl. unfold listed, refresh_recipe_list.
  apply str_is_empty_false in Hu. rewrite Hu.
  unfold listable in Hl. rewrite forallb_forall in Hl.
  assert (Hwp : Forall (fun kv => d_name (snd kv) <> None)
                       (fst (classify u saved))).
  { apply Forall_forall. intros [k v] Hin.
    apply classify_private in Hin. destruct Hin as [Hin _].
    apply Hl in Hin. unfold well_formed in Hin. simpl in *.
    destruct (d_name v); congruence. }
  assert (Hws : Forall (fun kv => d_name (snd kv) <> None
                                  /\ d_author (snd kv) <> None)
                       (snd (classify u saved))).
  { apply Forall_forall. intros [k v] Hin.
    apply classify_shared in Hin. destruct Hin as [Hin Hsh].
    apply Hl in Hin. unfold well_formed in Hin. simpl in *. rewrite Hsh in Hin.
    destruct (d_name v); [|discriminate].
    destruct (d_author v); [|discriminate]. split; congruence. }
  destruct (classify u saved) as [p s]. simpl in *.
  destruct (sort_by_name_total _ Hwp) as [p' Hp]. rewrite Hp.
  assert (Hws' : Forall (fun kv => d_name (snd kv) <> None) s).
  { eapply Forall_impl; [|exact Hws]. simpl. tauto. }
  destruct (sort_by_name_total _ Hws') as [s' Hs]. rewrite Hs.
  apply sort_by_name_perm in Hp. apply sort_by_name_perm in Hs.
  assert (Hwp' : Forall (fun kv => d_name (snd kv) <> None) p').
  { rewrite Forall_forall in *. intros x Hx. apply Hwp.
    eapply Permutation_in; eauto. }
  assert (Hws2 : Forall (fun kv => d_name (snd kv) <> None
                                   /\ d_author (snd kv) <> None) s').
  { rewrite Forall_forall in *. intros x Hx. apply Hws.
    eapply Permutation_in; eauto. }
  destruct (render_private_total _ Hwp') as [Hpe Hpr].
  destruct (render_shared_total u _ Hws2) as [Hse Hsr].
  pose proof (keys_perm _ _ Hp r_id) as Hkp. pose proof (keys_perm _ _ Hs r_id) as Hks.
  rewrite <- In_Some_keys in Hkp. rewrite <- In_Some_keys in Hks.
  rewrite <- Hpr in Hkp. rewrite <- Hsr in Hks.
  destruct (render_private p') as [pi pe].
  destruct (render_shared u s') as [si se]. simpl in *. subst pe se.
  destruct p' as [|p0 p']; destruct s' as [|s0 s']; simpl;
    (split; [reflexivity|]);
    rewrite ?map_app; simpl; rewrite ?in_app_iff; simpl;
    simpl in Hkp, Hks, Hpr, Hsr; try rewrite Hpr in *; try rewrite Hsr in *;
    simpl in *; intuition.
Qed.




(** ** Saving and deleting *)

Lemma dict_get_set_eq (k : string) (v : pydict) (d : store) :
  dict_get k (dict_set k v d) = Some v.
Proof.
  induction d as [|[k' v'] d IH]; simpl.
  - now rewrite String.eqb_refl.
  - destruct (String.eqb_spec k k') as [->|Hne]; simpl.
    + now rewrite String.eqb_refl.
    + destruct (String.eqb_spec k k'); [contradiction|exact IH].
Qed.

Lemma dict_get_set_neq (k k' : string) (v : pydict) (d : store) :
  k <> k' -> dict_get k (dict_set k' v d) = dict_get k d.
Proof.
  intros Hne. induction d as [|[k0 v0] d IH]; simpl.
  - destruct (String.eqb_spec k k'); [contradiction|reflexivity].
  - destruct (String.eqb_spec k' k0) as [->|Hne']; simpl.
    + destruct (String.eqb_spec k k0); [contradiction|reflexivity].
    + destruct (String.eqb_spec k k0); [reflexivity|exact IH].
Qed.

Lemma dict_get_del (k : string) (d : store) :
  NoDup (keys d) -> dict_get k (dict_del k d) = None.
Proof.
  induction d as [|[k' v'] d IH]; simpl; [reflexivity|].
  intros Hnd. inversion Hnd as [|? ? Hnotin Hnd']; subst.
  destruct (String.eqb_spec k k') as [->|Hne]; simpl.
  - destruct (dict_get k' d) as [v|] eqn:Hg; [|reflexivity].
    exfalso. apply Hnotin. apply In_keys. exists v. now apply dict_get_In.
  - destruct (String.eqb_spec k k'); [contradiction|auto].
Qed.

Lemma refresh_frame (g : gui) (u : string) :
  saved_recipes (snd (refresh g u)) = saved_recipes g /\
  users (snd (refresh g u)) = users g /\
  queue_list (snd (refresh g u)) = queue_list g /\
  recipes_json (snd (refresh g u)) = recipes_json g /\
  users_json (snd (refresh g u)) = users_json g /\
  history_csv (snd (refresh g u)) = history_csv g /\
  fst (refresh g u) = snd (refresh_recipe_list (saved_recipes g) u).
Proof.
  unfold refresh. destruct (refresh_recipe_list (saved_recipes g) u).
  simpl. repeat split.
Qed.

Lemma after_refresh_snd (p : option exn * gui) :
  snd (after_refresh p) = snd p.
Proof. destruct p as [[e|] g]; reflexivity. Qed.

Lemma after_refresh_fst (p : option exn * gui) :
  fst p = None -> fst (after_refresh p) = Done.
Proof. destruct p as [[e|] g]; simpl; congruence. Qed.

(** The recipes after a handler's closing call of [refresh]. *)
Ltac saved_after_refresh :=
  rewrite after_refresh_snd;
  match goal with
  | |- context [refresh ?g1 ?u] => destruct (refresh_frame g1 u) as [-> _]
  end.

Lemma differs_false (a : option string) (user : string) :
  differs a user = false <-> a = Some user.
Proof.
  destruct a as [a|]; simpl; [|split; discriminate].
  rewrite negb_false_iff, String.eqb_eq. split; congruence.
Qed.

Lemma save_denied_None (saved : store) (r_id user : string) (old : pydict) :
  dict_get r_id saved = Some old ->
  (save_denied saved (Some r_id) user = None <-> authorized user old).
Proof.
  intros Hg. unfold save_denied, authorized. rewrite Hg.
  destruct (differs (d_author old) user) eqn:Hd;
    destruct (get_or (d_shared old) false); simpl.
  - split; auto.
  - split; [discriminate|]. intros [Ha|Hs]; [|discriminate].
    apply differs_false in Ha. congruence.
  - apply differs_false in Hd. split; auto.
  - apply differs_false in Hd. split; auto.
Qed.

Lemma listable_set (k : string) (v : pydict) (d : store) :
  listable d = true -> well_formed v = true ->
  listable (dict_set k v d) = true.
Proof.
  unfold listable. intros Hd Hv.
  induction d as [|[k' v'] d IH]; simpl in *.
  - now rewrite Hv.
  - apply andb_prop in Hd. destruct Hd as [H1 H2].
    destruct (String.eqb k k'); simpl.
    + now rewrite Hv, H2.
    + now rewrite H1, IH.
Qed.

(** C5, as amended.  A save with no operator selected or with an empty
    name changes nothing, neither the recipes in memory nor any file;
    the first is answered by a warning, the second (with an operator
    selected) by nothing at all. *)
Theorem C5_invalid_save_rejected (name user : string)
  (current_item : option list_item) (speed duration acceleration : Z)
  (shared : bool) (fresh : string) (g : gui) :
  user = "" \/ name = "" ->
  snd (save_recipe name user current_item speed duration acceleration
                   shared fresh g) = g /\
  (user = "" ->
   fst (save_recipe name user current_item speed duration acceleration
                    shared fresh g)
   = Warned "Error" "Please select a User first!") /\
  (user <> "" ->
   fst (save_recipe name user current_item speed duration acceleration
                    shared fresh g) = Ignored).
Proof.
  intros H. unfold save_recipe.
  destruct (str_is_empty user) eqn:Hu.
  - apply str_is_empty_true in Hu. simpl. intuition congruence.
  - apply str_is_empty_false in Hu.
    destruct H as [H|H]; [contradiction|]. subst name. simpl.
    intuition congruence.
Qed.

Lemma C5_witness :
  snd (save_recipe "" "al" None 3000 30 500 false "r4" sample_gui)
  = sample_gui /\
  fst (save_recipe "Etch" "" None 3000 30 500 false "r4" sample_gui)
  = Warned "Error" "Please select a User first!".
Proof.
  split.
  - apply (C5_invalid_save_rejected "" "al" None 3000 30 500 false "r4"
             sample_gui). right. reflexivity.
  - apply (C5_invalid_save_rejected "Etch" "" None 3000 30 500 false "r4"
             sample_gui); [left|]; reflexivity.
Defined.

(** C5 fails for an empty name: the handler returns without showing
    anything, so no reason reaches the operator. *)
Lemma C5_counterexample :
  save_recipe "" "al" None 3000 30 500 false "r4" sample_gui
  = (Ignored, sample_gui) /\
  forall title body,
    fst (save_recipe "" "al" None 3000 30 500 false "r4" sample_gui)
    <> Warned title body.
Proof. split; [reflexivity|]. intros title body. discriminate. Qed.

(** C3.  No save changes the author of a recipe already in the store;
    and an update of that recipe by its author, or by anyone when it is
    shared, overwrites name, speed, duration, acceleration and shared,
    writes the file, and ends well when the list can be shown. *)
Theorem C3_update_keeps_author (name user : string)
  (current_item : option list_item) (speed duration acceleration : Z)
  (shared : bool) (fresh : string) (g : gui) (r_id : string)
  (old : pydict) :
  dict_get r_id (saved_recipes g) = Some old ->
  let res := save_recipe name user current_item speed duration acceleration
                         shared fresh g in
  (exists new, dict_get r_id (saved_recipes (snd res)) = Some new
               /\ d_author new = d_author old) /\
  (forall a,
     user <> "" -> name <> "" ->
     selected_recipe_id current_item = Some r_id ->
     authorized user old -> d_author old = Some a ->
     dict_get r_id (saved_recipes (snd res))
     = Some (recipe name speed duration acceleration a shared)
     /\ recipes_json (snd res) = Some (saved_recipes (snd res))
     /\ (listable (saved_recipes g) = true -> fst res = Done)).
Proof.
  intros Hold res. split.
  - subst res. unfold save_recipe.
    destruct (str_is_empty user); [simpl; eauto|].
    destruct (str_is_empty name); [simpl; eauto|].
    destruct (save_denied _ _ _); [simpl; eauto|].
    set (rid := get_or (selected_recipe_id current_item) fresh).
    destruct (dict_get rid (saved_recipes g)) as [existing|] eqn:Hex.
    + destruct (d_author existing) as [a|] eqn:Ha; simpl; [|eauto].
      saved_after_refresh.
      simpl. destruct (String.eqb_spec r_id rid) as [->|Hne].
      * rewrite dict_get_set_eq. eexists. split; [reflexivity|]. simpl.
        congruence.
      * rewrite dict_get_set_neq by exact Hne. eauto.
    + simpl. saved_after_refresh.
      simpl. rewrite dict_get_set_neq by congruence. eauto.
  - intros a Hu Hn Hsel Hauth Ha. subst res. unfold save_recipe.
    apply str_is_empty_false in Hu, Hn. rewrite Hu, Hn, Hsel.
    apply (save_denied_None _ _ _ _ Hold) in Hauth. rewrite Hauth.
    simpl. rewrite Hold, Ha. simpl.
    rewrite after_refresh_snd.
    match goal with
    | |- context [refresh ?g1 ?u] =>
        destruct (refresh_frame g1 u) as [-> [_ [_ [-> [_ [_ Hfst]]]]]]
    end.
    simpl. rewrite dict_get_set_eq.
    split; [reflexivity|]. split; [reflexivity|].
    intros Hl. apply after_refresh_fst. rewrite Hfst. simpl.
    apply listed_complete with (r_id := r_id).
    + now apply str_is_empty_false.
    + apply listable_set; [exact Hl|].
      unfold well_formed. simpl. now destruct shared.
Qed.

Lemma C3_witness :
  dict_get "r1"
    (saved_recipes
       (snd (save_recipe "Etch" "al" (Some etch_item) 3500 25 500 true "r4"
                         sample_gui)))
  = Some (recipe "Etch" 3500 25 500 "bob" true).
Proof.
  apply (C3_update_keeps_author "Etch" "al" (Some etch_item) 3500 25 500
           true "r4" sample_gui "r1" etch eq_refl).
  - discriminate.
  - discriminate.
  - reflexivity.
  - right. reflexivity.
  - reflexivity.
Defined.

(** C4.  Deleting through an item that carries a (non-empty) recipe
    identifier: an identifier that is not in the store, and a recipe of
    another author that is not shared, both leave the window and the
    files as they were, the second with a "Permission Denied" warning;
    the store changes only by removing a recipe whose author is the
    acting user or which is shared, and such a recipe, when it has a
    name, is removed. *)
Theorem C4_delete_guarded (item : list_item) (user : string) (g : gui)
  (r_id : string) :
  role item = Some r_id -> r_id <> "" ->
  let res := delete_recipe (Some item) user g in
  (dict_get r_id (saved_recipes g) = None -> res = (Ignored, g)) /\
  (forall data a,
     dict_get r_id (saved_recipes g) = Some data ->
     d_author data = Some a -> a <> user ->
     get_or (d_shared data) false = false ->
     res = (Warned "Permission Denied"
              "You cannot delete this recipe. It belongs to another user.",
            g)) /\
  (saved_recipes (snd res) <> saved_recipes g ->
   exists data,
     dict_get r_id (saved_recipes g) = Some data /\ authorized user data /\
     saved_recipes (snd res) = dict_del r_id (saved_recipes g) /\
     recipes_json (snd res) = Some (saved_recipes (snd res))) /\
  (forall data n,
     dict_get r_id (saved_recipes g) = Some data -> authorized user data ->
     d_name data = Some n -> NoDup (keys (saved_recipes g)) ->
     dict_get r_id (saved_recipes (snd res)) = None).
Proof.
  intros Hrole Hid res. subst res. unfold delete_recipe. rewrite Hrole.
  apply str_is_empty_false in Hid. rewrite Hid.
  destruct (dict_get r_id (saved_recipes g)) as [data|] eqn:Hg.
  2:{ repeat split; try discriminate. simpl. congruence. }
  split; [discriminate|].
  destruct (dict_is_empty data) eqn:He.
  { assert (Hnone : d_author data = None /\ d_name data = None).
    { destruct data as [[] [] [] [] [] [] []]; simpl in He;
        try discriminate. auto. }
    destruct Hnone as [Hna Hnn].
    split; [|split].
    - intros d a Hd Ha. inversion Hd; subst. congruence.
    - simpl. congruence.
    - intros d n Hd _ Hn. inversion Hd; subst. congruence. }
  destruct (differs (d_author data) user && negb (get_or (d_shared data) false))
    eqn:Hdeny.
  { apply andb_prop in Hdeny. destruct Hdeny as [Hd Hs].
    apply negb_true_iff in Hs.
    split; [|split].
    - reflexivity.
    - simpl. congruence.
    - intros d n Heq [Ha|Hsh] _ _; inversion Heq; subst.
      + apply differs_false in Ha. congruence.
      + congruence. }
  assert (Hauth : authorized user data).
  { apply andb_false_iff in Hdeny. destruct Hdeny as [Hd|Hs].
    - left. now apply differs_false.
    - right. now apply negb_false_iff in Hs. }
  split; [|split].
  - intros d a Heq Ha Hne Hs. inversion Heq; subst.
    destruct Hauth as [Hau|Hsh]; congruence.
  - destruct (d_name data) as [n|]; simpl; [|congruence].
    intros _. exists data. rewrite after_refresh_snd.
    match goal with
    | |- context [refresh ?g1 ?u] =>
        destruct (refresh_frame g1 u) as [-> [_ [_ [-> _]]]]
    end.
    simpl. auto.
  - intros d n Heq _ Hn Hnd. inversion Heq; subst. rewrite Hn. simpl.
    saved_after_refresh.
    simpl. now apply dict_get_del.
Qed.

Lemma C4_witness :
  delete_recipe (Some rinse_item) "al" sample_gui
  = (Warned "Permission Denied"
       "You cannot delete this recipe. It belongs to another user.",
     sample_gui)
  /\ delete_recipe (Some (mkItem "Gone" (Some "r9"))) "al" sample_gui
     = (Ignored, sample_gui)
  /\ dict_get "r1"
       (saved_recipes (snd (delete_recipe (Some etch_item) "al" sample_gui)))
     = None.
Proof.
  split; [|split].
  - apply (C4_delete_guarded rinse_item "al" sample_gui "r3" eq_refl)
      with (data := rinse) (a := "bob");
      [discriminate|reflexivity|reflexivity|discriminate|reflexivity].
  - apply (C4_delete_guarded (mkItem "Gone" (Some "r9")) "al" sample_gui
             "r9" eq_refl); [discriminate|reflexivity].
  - apply (C4_delete_guarded etch_item "al" sample_gui "r1" eq_refl)
      with (data := etch) (n := "Etch");
      [discriminate|reflexivity|right; reflexivity|reflexivity|].
    repeat constructor; simpl; intuition discriminate.
Defined.

(** ** Loading and migration *)

Lemma dict_set_fresh (k : string) (v : pydict) (d : store) :
  ~ In k (keys d) -> dict_set k v d = (d ++ [(k, v)])%list.
Proof.
  induction d as [|[k' v'] d IH]; simpl; [reflexivity|].
  intros Hn. destruct (String.eqb_spec k k') as [->|Hne].
  - exfalso. auto.
  - f_equal. apply IH. tauto.
Qed.

Lemma keys_app (d1 d2 : store) :
  keys (d1 ++ d2)%list = (keys d1 ++ keys d2)%list.
Proof. apply map_app. Qed.

Lemma migrate_migrated (uuid4 : nat -> string) (raw_data : store) :
  forall n saved,
    NoDup (keys saved ++ keys (migrated uuid4 n raw_data))%list ->
    migrate uuid4 n raw_data saved
    = (saved ++ migrated uuid4 n raw_data)%list.
Proof.
  induction raw_data as [|[key val] rest IH]; intros n saved Hnd; simpl.
  - now rewrite app_nil_r.
  - simpl in Hnd. destruct (d_name val); simpl in Hnd.
    + rewrite dict_set_fresh.
      * rewrite IH; [now rewrite <- app_assoc|].
        rewrite keys_app, <- app_assoc. exact Hnd.
      * apply NoDup_remove_2 in Hnd. rewrite in_app_iff in Hnd. tauto.
    + rewrite dict_set_fresh.
      * rewrite IH; [now rewrite <- app_assoc|].
        rewrite keys_app, <- app_assoc. exact Hnd.
      * apply NoDup_remove_2 in Hnd. rewrite in_app_iff in Hnd. tauto.
Qed.

Lemma migrated_keys (uuid4 : nat -> string) (raw_data : store) :
  forall n k,
    In k (keys (migrated uuid4 n raw_data)) ->
    (exists i, (n <= i < n + legacy_count raw_data)%nat /\ k = uuid4 i)
    \/ In k (keys raw_data).
Proof.
  induction raw_data as [|[key val] rest IH]; intros n k; simpl; [tauto|].
  destruct (d_name val); simpl.
  - intros [<-|Hin]; [tauto|].
    destruct (IH _ _ Hin) as [[i [Hi ->]]|Hr]; [left; exists i|]; auto.
  - intros [<-|Hin].
    + left. exists n. split; [lia|reflexivity].
    + destruct (IH _ _ Hin) as [[i [Hi ->]]|Hr]; [left; exists i|]; auto.
      split; [lia|reflexivity].
Qed.

Lemma migrated_NoDup (uuid4 : nat -> string) (raw_data : store) :
  forall n,
    NoDup (keys raw_data) ->
    (forall i j, (n <= i < n + legacy_count raw_data)%nat ->
                 (n <= j < n + legacy_count raw_data)%nat ->
                 uuid4 i = uuid4 j -> i = j) ->
    (forall i, (n <= i < n + legacy_count raw_data)%nat ->
               ~ In (uuid4 i) (keys raw_data)) ->
    NoDup (keys (migrated uuid4 n raw_data)).
Proof.
  induction raw_data as [|[key val] rest IH]; intros n Hnd Hinj Hfresh;
    simpl in *; [constructor|].
  inversion Hnd as [|? ? Hnotin Hnd']; subst.
  destruct (d_name val); simpl; constructor.
  - intros Hin. apply migrated_keys in Hin.
    destruct Hin as [[i [Hi Heq]]|Hin]; [|contradiction].
    apply (Hfresh i Hi). left. exact Heq.
  - apply IH; [exact Hnd'|exact Hinj|].
    intros i Hi Hin. apply (Hfresh i Hi). now right.
  - intros Hin. apply migrated_keys in Hin.
    destruct Hin as [[i [Hi Heq]]|Hin].
    + assert (n = i) by (apply Hinj; [lia|lia|exact Heq]). lia.
    + apply (Hfresh n); [lia|]. now right.
  - apply IH; [exact Hnd'| |].
    + intros i j Hi Hj. apply Hinj; lia.
    + intros i Hi Hin. apply (Hfresh i); [lia|]. now right.
Qed.

Lemma migrated_length (uuid4 : nat -> string) (raw_data : store) :
  forall n, length (migrated uuid4 n raw_data) = length raw_data.
Proof.
  induction raw_data as [|[key val] rest IH]; intros n; simpl; [reflexivity|].
  destruct (d_name val); simpl; now rewrite IH.
Qed.

Lemma migrated_named (uuid4 : nat -> string) (raw_data : store) :
  forall n key val,
    In (key, val) raw_data -> d_name val <> None ->
    In (key, val) (migrated uuid4 n raw_data).
Proof.
  induction raw_data as [|[k v] rest IH]; intros n key val; simpl; [tauto|].
  intros [Heq|Hin] Hn.
  - inversion Heq; subst. destruct (d_name val); [now left|congruence].
  - destruct (d_name v); right; auto.
Qed.

Lemma migrated_legacy (uuid4 : nat -> string) (raw_data : store) :
  forall n key val,
    In (key, val) raw_data -> d_name val = None ->
    exists i, (n <= i < n + legacy_count raw_data)%nat /\
              In (uuid4 i, set_name key val) (migrated uuid4 n raw_data).
Proof.
  induction raw_data as [|[k v] rest IH]; intros n key val; simpl; [tauto|].
  intros [Heq|Hin] Hn.
  - inversion Heq; subst. rewrite Hn. exists n. split; [lia|now left].
  - destruct (IH (S n) key val Hin Hn) as [i1 [Hi1 Hin1]].
    destruct (IH n key val Hin Hn) as [i0 [Hi0 Hin0]].
    destruct (d_name v).
    + exists i0. split; [lia|now right].
    + exists i1. split; [lia|now right].
Qed.

(** C9.  When the identifiers [uuid4] hands out are new (different
    from one another and from every key of the file), loading keeps one
    record per record of the file under pairwise different identifiers;
    a record that has a name stays under its key, unchanged; a legacy
    record is found under one of the generated identifiers, which is no
    key of the file, with its old key as name and every other field as
    it was. *)
Theorem C9_load_migrates_legacy (uuid4 : nat -> string) (u : string)
  (g : gui) (raw_data : store) :
  recipes_json g = Some raw_data ->
  NoDup (keys raw_data) ->
  (forall i j, (i < legacy_count raw_data)%nat ->
               (j < legacy_count raw_data)%nat ->
               uuid4 i = uuid4 j -> i = j) ->
  (forall i, (i < legacy_count raw_data)%nat ->
             ~ In (uuid4 i) (keys raw_data)) ->
  let saved := saved_recipes (snd (load_data uuid4 u g)) in
  NoDup (keys saved) /\ length saved = length raw_data /\
  (forall key val,
     In (key, val) raw_data -> d_name val <> None ->
     dict_get key saved = Some val) /\
  (forall key val,
     In (key, val) raw_data -> d_name val = None ->
     exists i new,
       (i < legacy_count raw_data)%nat /\
       ~ In (uuid4 i) (keys raw_data) /\
       dict_get (uuid4 i) saved = Some new /\
       d_name new = Some key /\
       d_speed new = d_speed val /\ d_duration new = d_duration val /\
       d_acceleration new = d_acceleration val /\
       d_author new = d_author val /\ d_shared new = d_shared val).
Proof.
  intros Hfile Hnd Hinj Hfresh saved.
  assert (Hnd' : NoDup (keys (migrated uuid4 0 raw_data))).
  { apply migrated_NoDup; [exact Hnd| |].
    - intros i j Hi Hj. apply Hinj; lia.
    - intros i Hi. apply Hfresh. lia. }
  assert (Hsaved : saved = migrated uuid4 0 raw_data).
  { subst saved. unfold load_data. rewrite Hfile.
    match goal with
    | |- context [refresh ?g1 ?u1] =>
        destruct (refresh_frame g1 u1) as [-> _]
    end.
    simpl. now rewrite migrate_migrated. }
  rewrite Hsaved. split; [exact Hnd'|]. split; [apply migrated_length|].
  split.
  - intros key val Hin Hn. apply In_dict_get; [exact Hnd'|].
    now apply migrated_named.
  - intros key val Hin Hn.
    destruct (migrated_legacy uuid4 raw_data 0 key val Hin Hn)
      as [i [Hi Hini]].
    exists i, (set_name key val).
    split; [lia|]. split; [apply Hfresh; lia|].
    split; [now apply In_dict_get|]. simpl. repeat split.
Qed.

Lemma sample_uuid4_fresh :
  (forall i j, (i < legacy_count legacy_file)%nat ->
               (j < legacy_count legacy_file)%nat ->
               sample_uuid4 i = sample_uuid4 j -> i = j) /\
  (forall i, (i < legacy_count legacy_file)%nat ->
             ~ In (sample_uuid4 i) (keys legacy_file)).
Proof.
  simpl. split.
  - intros i j Hi Hj _. lia.
  - intros i Hi. assert (i = O) by lia. subst i.
    simpl. intuition discriminate.
Qed.

Lemma C9_witness :
  let saved := saved_recipes (snd (load_data sample_uuid4 "al" legacy_gui)) in
  NoDup (keys saved) /\ length saved = length legacy_file /\
  dict_get "r1" saved = Some etch /\
  dict_get "uuid-0" saved = Some (set_name "Soak" soak_legacy).
Proof.
  destruct (C9_load_migrates_legacy sample_uuid4 "al" legacy_gui legacy_file
              eq_refl)
    as [Hnd [Hlen [Hnew Hold]]].
  - repeat constructor; simpl; intuition discriminate.
  - apply sample_uuid4_fresh.
  - apply sample_uuid4_fresh.
  - split; [exact Hnd|]. split; [exact Hlen|]. split.
    + apply Hnew; [simpl; auto|discriminate].
    + reflexivity.
Defined.

(** ** What the handlers keep true

    The statements above and below assume that no two recipes share an
    identifier and no two users a name.  Every handler keeps it so. *)

Lemma dict_set_keys (k : string) (v : pydict) (d : store) :
  In k (keys d) -> keys (dict_set k v d) = keys d.
Proof.
  induction d as [|[k' v'] d IH]; simpl; [tauto|].
  destruct (String.eqb_spec k k') as [->|Hne]; [reflexivity|].
  intros [H|H]; [congruence|]. simpl. f_equal. auto.
Qed.

Lemma NoDup_snoc {A : Type} (x : A) (l : list A) :
  NoDup l -> ~ In x l -> NoDup (l ++ [x]).
Proof.
  induction 1 as [|y l Hy Hl IH]; simpl; intros Hx.
  - constructor; [tauto|constructor].
  - constructor.
    + rewrite in_app_iff. simpl. intuition congruence.
    + apply IH. tauto.
Qed.

Lemma dict_set_NoDup (k : string) (v : pydict) (d : store) :
  NoDup (keys d) -> NoDup (keys (dict_set k v d)).
Proof.
  intros Hnd. destruct (in_dec string_dec k (keys d)) as [Hin|Hout].
  - now rewrite dict_set_keys.
  - rewrite dict_set_fresh by exact Hout. rewrite keys_app. simpl.
    now apply NoDup_snoc.
Qed.

Lemma dict_del_NoDup (k : string) (d : store) :
  NoDup (keys d) -> NoDup (keys (dict_del k d)).
Proof.
  induction d as [|[k' v'] d IH]; simpl; [auto|].
  intros Hnd. inversion Hnd as [|? ? Hnotin Hnd']; subst.
  destruct (String.eqb k k'); [exact Hnd'|]. simpl. constructor; [|auto].
  intros Hin. apply Hnotin. clear -Hin.
  induction d as [|[k0 v0] d IH]; simpl in *; [exact Hin|].
  destruct (String.eqb k k0); simpl in *; tauto.
Qed.

Lemma save_recipe_NoDup (name user : string)
  (current_item : option list_item) (speed duration acceleration : Z)
  (shared : bool) (fresh : string) (g : gui) :
  NoDup (keys (saved_recipes g)) ->
  NoDup (keys (saved_recipes
                 (snd (save_recipe name user current_item speed duration
                                   acceleration shared fresh g)))).
Proof.
  intros Hnd. unfold save_recipe.
  destruct (str_is_empty user); [exact Hnd|].
  destruct (str_is_empty name); [exact Hnd|].
  destruct (save_denied _ _ _); [exact Hnd|].
  destruct (match dict_get _ _ with None => _ | Some _ => _ end);
    [|exact Hnd].
  saved_after_refresh. simpl. now apply dict_set_NoDup.
Qed.

Lemma delete_recipe_NoDup (current_item : option list_item)
  (current_user : string) (g : gui) :
  NoDup (keys (saved_recipes g)) ->
  NoDup (keys (saved_recipes
                 (snd (delete_recipe current_item current_user g)))).
Proof.
  intros Hnd. unfold delete_recipe.
  destruct current_item as [item|]; [|exact Hnd].
  destruct (role item) as [recipe_id|]; [|exact Hnd].
  destruct (str_is_empty recipe_id); [exact Hnd|].
  destruct (dict_get recipe_id (saved_recipes g)) as [data|]; [|exact Hnd].
  destruct (dict_is_empty data); [exact Hnd|].
  destruct (differs _ _ && _); [exact Hnd|].
  destruct (getitem "name" (d_name data)); [|exact Hnd].
  saved_after_refresh. simpl. now apply dict_del_NoDup.
Qed.

(** ** Users *)

Lemma user_mem_In (u : string) (us : list string) :
  user_mem u us = true <-> In u us.
Proof.
  unfold user_mem. rewrite existsb_exists. split.
  - intros [v [Hin Heq]]. apply String.eqb_eq in Heq. now subst.
  - intros Hin. exists u. split; [exact Hin|apply String.eqb_refl].
Qed.

Lemma list_remove_In (u v : string) (us : list string) :
  NoDup us -> (In v (list_remove u us) <-> v <> u /\ In v us).
Proof.
  induction us as [|w us IH]; simpl; [tauto|].
  intros Hnd. inversion Hnd as [|? ? Hnotin Hnd']; subst.
  destruct (String.eqb_spec u w) as [->|Hne].
  - split.
    + intros Hin. split; [|now right]. intros ->. contradiction.
    + intros [Hne [Heq|Hin]]; [congruence|exact Hin].
  - simpl. rewrite (IH Hnd'). split.
    + intros [<-|[H1 H2]]; [split; [congruence|now left]|tauto].
    + intros [H1 [H2|H2]]; [now left|right; tauto].
Qed.

(** C10.  Deleting a user takes that name, and only that name, out of
    the user list and its file; the recipes in memory and their file
    are untouched, so every recipe of the deleted user is still there
    with its author, and those that are not shared are listed for none
    of the remaining users. *)
Theorem C10_delete_user_keeps_recipes (u : string) (g : gui) :
  u <> "" -> In u (users g) -> NoDup (users g) ->
  NoDup (keys (saved_recipes g)) ->
  let g' := delete_user u true g in
  saved_recipes g' = saved_recipes g /\
  recipes_json g' = recipes_json g /\
  ~ In u (users g') /\
  (forall v, v <> u -> (In v (users g') <-> In v (users g))) /\
  users_json g' = Some (users g') /\
  (forall v r_id data,
     In v (users g') -> In (r_id, data) (saved_recipes g) ->
     d_author data = Some u -> get_or (d_shared data) false = false ->
     In (r_id, data) (saved_recipes g') /\
     ~ listed r_id (fst (refresh_recipe_list (saved_recipes g') v))).
Proof.
  intros Hu Hin Hnd Hkeys g'. subst g'. unfold delete_user.
  apply str_is_empty_false in Hu. rewrite Hu.
  apply user_mem_In in Hin. rewrite Hin. simpl.
  split; [reflexivity|]. split; [reflexivity|].
  split; [rewrite list_remove_In by exact Hnd; tauto|].
  split; [intros v Hv; rewrite list_remove_In by exact Hnd; tauto|].
  split; [reflexivity|].
  intros v r_id data Hv Hdata Hauthor Hshared.
  split; [exact Hdata|].
  apply list_remove_In in Hv; [|exact Hnd]. destruct Hv as [Hvu _].
  intros Hl. apply listed_sound in Hl. rewrite !In_keys in Hl.
  destruct Hl as [[d Hd]|[d Hd]].
  - apply classify_private in Hd. destruct Hd as [Hd [_ Ha]].
    rewrite <- (NoDup_keys_functional _ _ _ _ Hkeys Hdata Hd) in Ha.
    rewrite Hauthor in Ha. simpl in Ha. congruence.
  - apply classify_shared in Hd. destruct Hd as [Hd Hs].
    rewrite <- (NoDup_keys_functional _ _ _ _ Hkeys Hdata Hd) in Hs.
    congruence.
Qed.

Lemma C10_witness :
  let g' := delete_user "bob" true sample_gui in
  saved_recipes g' = sample_store /\ users g' = ["al"] /\
  In ("r3", rinse) (saved_recipes g') /\
  ~ listed "r3" (fst (refresh_recipe_list (saved_recipes g') "al")).
Proof.
  destruct (C10_delete_user_keeps_recipes "bob" sample_gui)
    as [Hsaved [_ [_ [_ [_ Hhidden]]]]].
  - discriminate.
  - simpl. auto.
  - repeat constructor; simpl; intuition discriminate.
  - repeat constructor; simpl; intuition discriminate.
  - split; [exact Hsaved|]. split; [reflexivity|].
    apply Hhidden; [simpl; auto|simpl; auto|reflexivity|reflexivity].
Defined.

Lemma add_new_user_NoDup (name : string) (ok : bool) (g : gui) :
  NoDup (users g) -> NoDup (users (add_new_user name ok g)).
Proof.
  intros Hnd. unfold add_new_user.
  destruct ok; [|exact Hnd]. destruct (str_is_empty name); [exact Hnd|].
  destruct (user_mem name (users g)) eqn:Hm; [exact Hnd|]. simpl.
  apply NoDup_snoc; [exact Hnd|].
  intros Hin. apply user_mem_In in Hin. congruence.
Qed.

Lemma delete_user_NoDup (u : string) (yes : bool) (g : gui) :
  NoDup (users g) -> NoDup (users (delete_user u yes g)).
Proof.
  intros Hnd. unfold delete_user.
  destruct (negb (str_is_empty u) && user_mem u (users g)); [|exact Hnd].
  destruct yes; [|exact Hnd]. simpl.
  induction (users g) as [|v us IH]; simpl; [constructor|].
  inversion Hnd as [|? ? Hnotin Hnd']; subst.
  destruct (String.eqb u v); [exact Hnd'|]. constructor; [|auto].
  intros Hin. apply Hnotin. apply (list_remove_In u v us Hnd') in Hin. tauto.
Qed.

(** ** The queue and [start_process] *)

Lemma prefix_paren_app (s rest : string) :
  String.prefix " (" s = false -> s <> "" ->
  String.prefix " (" (s ++ " (" ++ rest) = false.
Proof.
  destruct s as [|c s]; [congruence|]. intros H _.
  change (String c s ++ " (" ++ rest) with (String c (s ++ " (" ++ rest)).
  cbn [String.prefix] in *.
  destruct (ascii_dec " " c); [|reflexivity].
  destruct s as [|c' s].
  - cbn [append String.prefix].
    destruct (ascii_dec "(" " "); [discriminate|reflexivity].
  - change (String c' s ++ " (" ++ rest)
      with (String c' (s ++ " (" ++ rest)).
    cbn [String.prefix] in *.
    destruct (ascii_dec "(" c'); [|reflexivity].
    destruct s; discriminate.
Qed.

Lemma split_head_plain (s : string) : plain s -> split_head s = s.
Proof.
  unfold plain. induction s as [|c s IH]; [reflexivity|].
  intros H. cbn [contains] in H. apply orb_false_iff in H.
  destruct H as [Hp Hc]. cbn [split_head]. rewrite Hp. f_equal. auto.
Qed.

Lemma split_head_suffix (s rest : string) :
  plain s -> split_head (s ++ " (" ++ rest) = s.
Proof.
  unfold plain. induction s as [|c s IH]; [destruct rest; reflexivity|].
  intros H. cbn [contains] in H. apply orb_false_iff in H.
  destruct H as [Hp Hc].
  change (String c s ++ " (" ++ rest) with (String c (s ++ " (" ++ rest)).
  cbn [split_head].
  change (String c (s ++ " (" ++ rest)) with (String c s ++ " (" ++ rest).
  rewrite prefix_paren_app by (exact Hp || discriminate).
  f_equal. auto.
Qed.

Lemma find_by_name_first (name k : string) (d : pydict)
  (before after : store) :
  Forall (fun kv => exists n, d_name (snd kv) = Some n /\ n <> name) before ->
  d_name d = Some name ->
  find_by_name name (before ++ (k, d) :: after)%list = Ok (Some d).
Proof.
  intros Hb Hd. induction Hb as [|[k0 d0] before [n [Hn Hne]] Hb IH]; simpl.
  - rewrite Hd. simpl. now rewrite String.eqb_refl.
  - simpl in Hn. rewrite Hn. simpl.
    destruct (String.eqb_spec n name); [contradiction|exact IH].
Qed.








(** ** The worker thread: runs that can be computed *)

(** C6, as amended.  The simulated, uncancelled run of
    [Spin(2000, 3); Wait(2)] with two loops returns normally and emits,
    in this order: "Initializing...", the six notifications of the
    first pass (ramp, spin with 3, 2, 1 seconds left, wait with 2, 1
    seconds left), the same six for the second pass, and "Process
    Complete."; nothing is sent to the serial port. *)
Theorem C6_simulated_run (spin_name wait_name : option string)
  (available : bool) (err : option string) (fault : option nat) :
  let out := run (mkWorker [spin_2000_3 spin_name; wait_2 wait_name] 2 true)
                 (mkEnv available err None fault) in
  fst out = Ok tt /\
  notifications (snd out)
  = (Initializing
       :: pass_notifications 1 2 (get_or spin_name "Step")
                             (get_or wait_name "Step")
       ++ pass_notifications 2 2 (get_or spin_name "Step")
                             (get_or wait_name "Step")
       ++ [ProcessComplete])%list /\
  device_commands (snd out) = [] /\
  filter is_serial (snd out) = [].
Proof.
  destruct spin_name, wait_name; repeat split.
Qed.

(** The strings of that run when the steps carry no name. *)
Example C6_texts :
  map message_text
      (notifications
         (snd (run (mkWorker [spin_2000_3 None; wait_2 None] 2 true)
                   (mkEnv false None None None))))
  = [ "Initializing...";
      "Loop 1/2 | Step: Ramping to 2000 RPM...";
      "Loop 1/2 | Step: Spinning 2000 RPM (3s left)";
      "Loop 1/2 | Step: Spinning 2000 RPM (2s left)";
      "Loop 1/2 | Step: Spinning 2000 RPM (1s left)";
      "Loop 1/2 | Step: WAITING 2s...";
      "Loop 1/2 | Step: WAITING 1s...";
      "Loop 2/2 | Step: Ramping to 2000 RPM...";
      "Loop 2/2 | Step: Spinning 2000 RPM (3s left)";
      "Loop 2/2 | Step: Spinning 2000 RPM (2s left)";
      "Loop 2/2 | Step: Spinning 2000 RPM (1s left)";
      "Loop 2/2 | Step: WAITING 2s...";
      "Loop 2/2 | Step: WAITING 1s...";
      "Process Complete." ].
Proof. vm_compute. reflexivity. Qed.

(** C6 fails as stated: the first notification is "Initializing...",
    not the ramp, and a pass emits six notifications, not seven. *)
Lemma C6_counterexample :
  let out := run (mkWorker [spin_2000_3 None; wait_2 None] 2 true)
                 (mkEnv false None None None) in
  notifications (snd out)
  <> (pass_notifications 1 2 "Step" "Step"
        ++ pass_notifications 2 2 "Step" "Step" ++ [ProcessComplete])%list /\
  hd_error (notifications (snd out)) = Some Initializing /\
  length (pass_notifications 1 2 "Step" "Step") = 6%nat /\
  length (notifications (snd out)) = 14%nat.
Proof.
  split; [|repeat split]. vm_compute. discriminate.
Qed.

(** C8.  In live mode, when [serial] cannot be imported or opening the
    port raises, the run consists of "Initializing...", one error
    notification that names the failure, and [finished]: no step
    notification, nothing written to the port, no read of the flag. *)
Theorem C8_no_connection_no_run (steps : list pydict) (loops : Z)
  (env : environment) :
  SERIAL_AVAILABLE env = false \/ open_error env <> None ->
  let out := run (mkWorker steps loops false) env in
  fst out = Ok tt /\
  (exists m,
     snd out = [Emit Initializing; Emit m; Finished] /\
     (SERIAL_AVAILABLE env = false /\ m = NoSerial \/
      SERIAL_AVAILABLE env = true /\
      exists e, open_error env = Some e /\ m = ConnectionError e)) /\
  filter is_progress_event (snd out) = [] /\
  filter is_serial (snd out) = [].
Proof.
  destruct env as [available err stop].
  destruct available; simpl.
  - intros [H|H]; [discriminate|].
    destruct err as [e|]; [|congruence].
    split; [reflexivity|]. split; [|split; reflexivity].
    exists (ConnectionError e). split; [reflexivity|]. right. eauto.
  - intros _. split; [reflexivity|]. split; [|split; reflexivity].
    exists NoSerial. split; [reflexivity|]. left. auto.
Qed.

Lemma C8_witness :
  run (mkWorker [spin_2000_3 None; wait_2 None] 2 false)
      (mkEnv true (Some "could not open port 'COM3'") None None)
  = (Ok tt,
     [Emit Initializing;
      Emit (ConnectionError "could not open port 'COM3'"); Finished]) /\
  message_text (ConnectionError "could not open port 'COM3'")
  = "Connection Error: could not open port 'COM3'".
Proof.
  destruct (C8_no_connection_no_run [spin_2000_3 None; wait_2 None] 2
              (mkEnv true (Some "could not open port 'COM3'") None None))
    as [Hr [[m [Ht _]] _]].
  - right. discriminate.
  - split; reflexivity.
Defined.

(** A session from the queue to the thread: the shared recipe "Etch" of
    [bob] is dragged into the queue by [al], a wait of two seconds is
    added, and the process is started once, simulated. *)
Example sample_session :
  let g := add_wait_step 2 (drop_recipe etch_item true sample_gui) in
  exists g' w,
    start_process "al" true 1 g = (Done, g', Some w) /\
    history_csv g' = [("al", "Started [SIM]: Etch, Wait")] /\
    map message_text (notifications (snd (run w (mkEnv false None None None))))
    = ([ "Initializing...";
        "Loop 1/1 | Etch: Ramping to 3000 RPM...";
        "Loop 1/1 | Etch: Spinning 3000 RPM (30s left)" ]
      ++ map (fun t => ("Loop 1/1 | Etch: Spinning 3000 RPM ("
                          ++ str_of_int t ++ "s left)")%string)
             (range_down 29)
      ++ [ "Loop 1/1 | Wait: WAITING 2s...";
           "Loop 1/1 | Wait: WAITING 1s...";
           "Process Complete." ])%list.
Proof.
  eexists. eexists. split; [reflexivity|]. split; [reflexivity|].
  vm_compute. reflexivity.
Qed.

(** ** The worker thread: traces *)

Lemma repeat_snoc {A : Type} (x : A) (n : nat) :
  (repeat x n ++ [x])%list = repeat x (S n).
Proof. induction n as [|n IH]; simpl; [reflexivity|]. now rewrite IH. Qed.

Lemma after_poll_ser (s : wstate) : ser (after_poll s) = ser s.
Proof. unfold after_poll. now destruct (polls_left s) as [[|n]|]. Qed.








(** ** The worker thread: the loop that watches the flag

    Every loop of [run] is a [for_running]; what holds of its body
    holds of the loop. *)

Section Loops.

Context {A : Type} (body : A -> M unit).

Lemma for_running_cons (x : A) (rest : list A) (s : wstate) :
  for_running (x :: rest) body s
  = match polls_left s with
    | Some O => (Ok tt, s, [Poll false])
    | _ =>
        match body x (after_poll s) with
        | (Ok _, s2, tb) =>
            match for_running rest body s2 with
            | (r, s3, t2) => (r, s3, Poll true :: (tb ++ t2)%list)
            end
        | (Raise e, s2, tb) => (Raise e, s2, Poll true :: tb)
        end
    end.
Proof.
  cbn [for_running]. unfold bind at 1. unfold is_running, after_poll.
  destruct (polls_left s) as [[|n]|]; [reflexivity| |];
    unfold bind;
    match goal with
    | |- context [body x ?s1] => destruct (body x s1) as [[[u|e] s2] tb]
    end; try reflexivity;
    destruct (for_running rest body s2) as [[r s3] t2]; reflexivity.
Qed.

Lemma for_running_stopped (xs : list A) (s : wstate) :
  stopped s ->
  for_running xs body s
  = (Ok tt, s, match xs with [] => [] | _ :: _ => [Poll false] end).
Proof.
  unfold stopped. intros Hs. destruct xs as [|x rest]; [reflexivity|].
  rewrite for_running_cons, Hs. reflexivity.
Qed.

Lemma for_running_halts :
  (forall x s, halts_cleanly s (body x s)) ->
  forall xs s, halts_cleanly s (for_running xs body s).
Proof.
  intros Hbody. induction xs as [|x rest IH]; intros s.
  - simpl. unfold ret. repeat split; auto.
  - rewrite for_running_cons.
    assert (Hlive : polls_left s <> Some O ->
      halts_cleanly s
        match body x (after_poll s) with
        | (Ok _, s2, tb) =>
            match for_running rest body s2 with
            | (r, s3, t2) => (r, s3, Poll true :: (tb ++ t2)%list)
            end
        | (Raise e, s2, tb) => (Raise e, s2, Poll true :: tb)
        end).
    { intros Hns. pose proof (Hbody x (after_poll s)) as Hb.
      destruct (body x (after_poll s)) as [[[u|e] s2] tb].
      - destruct Hb as [Hser [_ Hb]]. rewrite after_poll_ser in Hser.
        destruct Hb as [Hb|[t1 [k [-> [Ht1 [_ Hst]]]]]].
        + pose proof (IH s2) as Hr.
          destruct (for_running rest body s2) as [[r s3] t2].
          destruct Hr as [Hser3 [_ Hr]].
          split; [congruence|]. split; [intros; contradiction|].
          destruct Hr as [Hr|[t1 [k [-> [Ht1 [-> Hst]]]]]].
          * left. simpl. rewrite in_app_iff.
            intros [H|[H|H]]; [discriminate|tauto|tauto].
          * right. exists (Poll true :: tb ++ t1)%list, k.
            split; [simpl; now rewrite app_assoc|].
            split; [|auto]. simpl. rewrite in_app_iff.
            intros [H|[H|H]]; [discriminate|tauto|tauto].
        + rewrite (for_running_stopped rest s2 Hst).
          split; [congruence|]. split; [intros; contradiction|].
          right. destruct rest as [|y rest].
          * exists (Poll true :: t1), k. rewrite app_nil_r.
            split; [reflexivity|]. split; [|auto].
            simpl. intros [H|H]; [discriminate|tauto].
          * exists (Poll true :: t1), (S k).
            split; [|split; [|auto]].
            -- rewrite <- (repeat_snoc (Poll false) (S k)).
               simpl. now rewrite <- app_assoc.
            -- simpl. intros [H|H]; [discriminate|tauto].
      - destruct Hb as [Hser [_ Hb]]. rewrite after_poll_ser in Hser.
        split; [exact Hser|]. split; [intros; contradiction|].
        left. destruct Hb as [Hb|[t1 [k [_ [_ [Hr _]]]]]]; [|discriminate].
        simpl. intros [H|H]; [discriminate|tauto]. }
    destruct (polls_left s) as [[|n]|] eqn:Hp.
    + split; [reflexivity|]. split; [auto|]. right. exists [], O.
      repeat split; auto.
    + apply Hlive. discriminate.
    + apply Hlive. discriminate.
Qed.


End Loops.

(** ** The worker thread: steps and the execution loop *)

(** An action that reads no flag and leaves [self.ser] and the flag
    alone, followed by something that halts cleanly. *)
Lemma bind_halts {A : Type} (m : M A) (k : A -> M unit) (s s1 : wstate)
  (r : result A) (t0 : list event) :
  m s = (r, s1, t0) -> ser s1 = ser s -> polls_left s1 = polls_left s ->
  ~ In (Poll false) t0 ->
  (forall a, halts_cleanly s1 (k a s1)) ->
  halts_cleanly s (bind m k s).
Proof.
  intros Hm Hser1 Hpolls1 Ht0 Hk. unfold bind. rewrite Hm.
  destruct r as [a|e].
  - pose proof (Hk a) as Ha. destruct (k a s1) as [[r2 s2] t2].
    destruct Ha as [Hser [Hst Ha]]. split; [congruence|].
    split; [unfold stopped in *; intros H; apply Hst; congruence|].
    destruct Ha as [Ha|[t1 [n [-> [Ht1 Hrest]]]]].
    + left. rewrite in_app_iff. tauto.
    + right. exists (t0 ++ t1)%list, n. split; [now rewrite app_assoc|].
      split; [|exact Hrest]. rewrite in_app_iff. tauto.
  - split; [exact Hser1|].
    split; [unfold stopped; congruence|]. now left.
Qed.

(** A call on the port goes through or raises; either way it leaves
    [self.ser] and the flag alone. *)
Lemma serial_io_cases (call : event) (s : wstate) :
  (exists s1, serial_io call s = (Ok tt, s1, [call]) /\
              ser s1 = ser s /\ polls_left s1 = polls_left s /\
              (io_left s = None -> s1 = s) /\ io_left s <> Some O /\
              io_left s1 = match io_left s with
                           | Some n => Some (pred n)
                           | None => None
                           end) \/
  (serial_io call s = (Raise SerialException, s, []) /\ io_left s = Some O).
Proof.
  unfold serial_io. destruct (io_left s) as [[|n]|] eqn:Hio.
  - right. now split.
  - left. eexists. split; [reflexivity|]. simpl.
    repeat split; try discriminate.
  - left. exists s. repeat split; try discriminate. exact Hio.
Qed.

Lemma write_if_live_eq (simulation_mode : bool) (cmd : string) (s : wstate) :
  exists r s1 t,
    write_if_live simulation_mode cmd s = (r, s1, t)
    /\ ser s1 = ser s /\ polls_left s1 = polls_left s
    /\ ~ In (Poll false) t /\ thread_view t = []
    /\ (r = Ok tt \/ r = Raise SerialException /\ t = []).
Proof.
  unfold write_if_live. destruct (negb simulation_mode && ser s).
  - destruct (serial_io_cases (SerialWrite cmd) s)
      as [[s1 [-> [Hser [Hpolls _]]]]|[-> _]].
    + exists (Ok tt), s1, [SerialWrite cmd]. repeat split; auto.
      simpl. intros [H|H]; [discriminate|exact H].
    + exists (Raise SerialException), s, []. repeat split; auto.
  - exists (Ok tt), s, []. repeat split; auto.
Qed.

Lemma tick_halts (m : message) (s : wstate) :
  halts_cleanly s ((emit m ;; sleep 1) s).
Proof.
  unfold bind, emit, sleep, tell. simpl.
  split; [reflexivity|]. split; [auto|]. left.
  intros [H|[H|H]]; [discriminate|discriminate|exact H].
Qed.

Lemma run_step_halts (simulation_mode : bool) (current_loop total_loops : Z)
  (step : pydict) (s : wstate) :
  halts_cleanly s (run_step simulation_mode current_loop total_loops step s).
Proof.
  unfold run_step.
  eapply bind_halts; [reflexivity|reflexivity|reflexivity|simpl; tauto|].
  intros duration.
  destruct (String.eqb (get_or (d_type step) "spin") "wait").
  - destruct (write_if_live_eq simulation_mode (speed_command 0) s)
      as [r [s1 [t [Hw [Hser [Hpolls [Ht _]]]]]]].
    eapply bind_halts; [exact Hw|exact Hser|exact Hpolls|exact Ht|].
    intros _. apply for_running_halts. intros t0 s0. apply tick_halts.
  - eapply bind_halts; [reflexivity|reflexivity|reflexivity|simpl; tauto|].
    intros speed.
    destruct (write_if_live_eq simulation_mode (speed_command speed) s)
      as [r [s1 [t [Hw [Hser [Hpolls [Ht _]]]]]]].
    eapply bind_halts; [exact Hw|exact Hser|exact Hpolls|exact Ht|].
    intros _.
    eapply bind_halts;
      [reflexivity|reflexivity|reflexivity
      |simpl; intros [H|H]; [discriminate|exact H]|].
    intros _.
    eapply bind_halts;
      [reflexivity|reflexivity|reflexivity
      |simpl; intros [H|H]; [discriminate|exact H]|].
    intros _.
    apply for_running_halts. intros t0 s0. apply tick_halts.
Qed.

Lemma execution_loop_halts (w : worker) (s : wstate) :
  halts_cleanly s (execution_loop w s).
Proof.
  unfold execution_loop. apply for_running_halts. intros current_loop s0.
  apply for_running_halts. intros step s1. apply run_step_halts.
Qed.






(** ** The worker thread: one rule for the loops, and the steps *)

(** One rule for the three loops of [run]: a property [L] of a loop
    follows from a property [B] of its body on the items [Q] holds
    of. *)
Section LoopRule.

Context {A : Type} (body : A -> M unit).
Variable Q : A -> Prop.
Variables L B : wstate -> result unit * wstate * list event -> Prop.

Hypothesis L_nil : forall s, L s (Ok tt, s, []).
Hypothesis L_stop :
  forall s, polls_left s = Some O -> L s (Ok tt, s, [Poll false]).
Hypothesis L_step :
  forall s sb tb r s3 t2,
    polls_left s <> Some O ->
    B (after_poll s) (Ok tt, sb, tb) -> L sb (r, s3, t2) ->
    L s (r, s3, Poll true :: (tb ++ t2)%list).
Hypothesis L_raise :
  forall s e sb tb,
    polls_left s <> Some O ->
    B (after_poll s) (Raise e, sb, tb) ->
    L s (Raise e, sb, Poll true :: tb).
Hypothesis body_B : forall x s, Q x -> B s (body x s).

Lemma for_running_rule (xs : list A) :
  Forall Q xs -> forall s, L s (for_running xs body s).
Proof.
  induction 1 as [|x rest Hx Hrest IH]; intros s.
  - apply L_nil.
  - rewrite for_running_cons.
    assert (Hlive : polls_left s <> Some O ->
      L s
        match body x (after_poll s) with
        | (Ok _, s2, tb) =>
            match for_running rest body s2 with
            | (r, s3, t2) => (r, s3, Poll true :: (tb ++ t2)%list)
            end
        | (Raise e, s2, tb) => (Raise e, s2, Poll true :: tb)
        end).
    { intros Hns. pose proof (body_B x (after_poll s) Hx) as Hb.
      destruct (body x (after_poll s)) as [[[[]|e] s2] tb].
      - pose proof (IH s2) as Hr.
        destruct (for_running rest body s2) as [[r s3] t2].
        now apply (L_step s s2).
      - now apply L_raise. }
    destruct (polls_left s) as [[|k]|] eqn:Hp.
    + now apply L_stop.
    + apply Hlive. discriminate.
    + apply Hlive. discriminate.
Qed.

End LoopRule.

Lemma Forall_always {A : Type} (xs : list A) : Forall (fun _ => True) xs.
Proof. induction xs; constructor; auto. Qed.

(** A write of a step: nothing on a simulated run or without a port;
    otherwise it goes through or raises. *)
Lemma write_if_live_cases (sim : bool) (cmd : string) (s : wstate) :
  (negb sim && ser s = false /\
   write_if_live sim cmd s = (Ok tt, s, [])) \/
  (negb sim && ser s = true /\
   exists s1,
     write_if_live sim cmd s = (Ok tt, s1, [SerialWrite cmd]) /\
     ser s1 = ser s /\ polls_left s1 = polls_left s /\
     (io_left s = None -> s1 = s)) \/
  (negb sim && ser s = true /\ io_left s = Some O /\
   write_if_live sim cmd s = (Raise SerialException, s, [])).
Proof.
  unfold write_if_live. destruct (negb sim && ser s); [|now left].
  right.
  destruct (serial_io_cases (SerialWrite cmd) s)
    as [[s1 [Hw [Hser [Hpolls [Hio _]]]]]|[Hw Hio]].
  - left. split; [reflexivity|]. exists s1. auto.
  - right. auto.
Qed.

(** What a step does, in terms of its write and its countdown. *)
Lemma run_step_cases (sim : bool) (l n : Z) (step : pydict) (s : wstate) :
  run_step sim l n step s =
  match d_duration step with
  | None => (Raise (KeyError "duration"), s, [])
  | Some duration =>
      if String.eqb (get_or (d_type step) "spin") "wait" then
        match write_if_live sim (speed_command 0) s with
        | (Ok _, s1, tw) =>
            match for_running (range_down duration)
                    (fun t =>
                       emit (Waiting l n (get_or (d_name step) "Step") t) ;;
                       sleep 1) s1 with
            | (r, s', t) => (r, s', (tw ++ t)%list)
            end
        | (Raise e, s1, tw) => (Raise e, s1, tw)
        end
      else
        match d_speed step with
        | None => (Raise (KeyError "speed"), s, [])
        | Some speed =>
            match write_if_live sim (speed_command speed) s with
            | (Ok _, s1, tw) =>
                match for_running (range_down duration)
                        (fun t =>
                           emit (Spinning l n (get_or (d_name step) "Step")
                                          speed t) ;;
                           sleep 1) s1 with
                | (r, s', t) =>
                    (r, s',
                     (tw ++
                      Emit (Ramping l n (get_or (d_name step) "Step") speed)
                      :: Sleep 1 :: t)%list)
                end
            | (Raise e, s1, tw) => (Raise e, s1, tw)
            end
        end
  end.
Proof.
  unfold run_step. unfold bind at 1. unfold lift, getitem.
  destruct (d_duration step) as [duration|]; [|reflexivity].
  destruct (String.eqb (get_or (d_type step) "spin") "wait").
  - unfold bind at 1.
    destruct (write_if_live sim (speed_command 0) s) as [[[[]|e] s1] tw];
      [|reflexivity].
    now destruct (for_running (range_down duration) _ s1) as [[r s'] t].
  - unfold bind at 1. destruct (d_speed step) as [speed|]; [|reflexivity].
    unfold bind at 1.
    destruct (write_if_live sim (speed_command speed) s)
      as [[[[]|e] s1] tw]; [|reflexivity].
    unfold bind at 1 2, emit, sleep, tell.
    now destruct (for_running (range_down duration) _ s1) as [[r s'] t].
Qed.

Lemma tick_eq (m : message) (s : wstate) :
  (emit m ;; sleep 1) s = (Ok tt, s, [Emit m; Sleep 1]).
Proof. reflexivity. Qed.

(** A simulated run: the loop, then the two signals. *)
Lemma run_sim_cases (w : worker) (env : environment) :
  simulation_mode w = true ->
  match execution_loop w
          (mkState false (stop_after env) (fault_after env)) with
  | (Ok _, _, tl) =>
      run w env
      = (Ok tt,
         (Emit Initializing :: tl ++ [Emit ProcessComplete; Finished])%list)
  | (Raise e, _, tl) => run w env = (Raise e, Emit Initializing :: tl)
  end.
Proof.
  intros Hsim.
  destruct (execution_loop w
              (mkState false (stop_after env) (fault_after env)))
    as [[[[]|e] s2] tl] eqn:He;
    unfold run, run_body, connect, finish; rewrite Hsim; simpl;
    unfold bind, emit, tell, ret; simpl; rewrite He; reflexivity.
Qed.

(** The loops keep to their events. *)
Lemma ticks_sound (live : bool) (f : Z -> message) (ts : list Z) (s : wstate) :
  (forall t, is_step_progress (f t) = true) ->
  loop_sound live (for_running ts (fun t => emit (f t) ;; sleep 1) s).
Proof.
  intros Hf.
  apply (for_running_rule _ (fun _ => True)
           (fun _ => loop_sound live) (fun _ => loop_sound live)).
  - intros; now split.
  - intros; now split.
  - intros s0 sb tb r s3 t2 _ [Hb _] [Hl Hr]. split; [|exact Hr].
    simpl. rewrite forallb_app, Hb, Hl. reflexivity.
  - intros s0 e sb tb _ [Hb He]. split; [|exact He]. simpl. exact Hb.
  - intros t s0 _. rewrite tick_eq. split; [|exact I].
    simpl. now rewrite Hf.
  - apply Forall_always.
Qed.

Lemma run_step_sound (sim : bool) (l n : Z) (step : pydict) (s : wstate) :
  loop_sound (negb sim) (run_step sim l n step s).
Proof.
  rewrite run_step_cases.
  destruct (d_duration step) as [duration|]; [|split; [reflexivity|now left]].
  assert (Hw : forall cmd,
    match write_if_live sim cmd s with
    | (Ok _, _, tw) => forallb (is_loop_event (negb sim)) tw = true
    | (Raise e, _, tw) =>
        tw = [] /\ negb sim = true /\ e = SerialException
    end).
  { intros cmd.
    destruct (write_if_live_cases sim cmd s)
      as [[_ ->]|[[Hl [s1 [-> _]]]|[Hl [_ ->]]]].
    - reflexivity.
    - apply andb_prop in Hl. destruct Hl as [-> _]. reflexivity.
    - apply andb_prop in Hl. destruct Hl as [-> _]. auto. }
  destruct (String.eqb (get_or (d_type step) "spin") "wait").
  - specialize (Hw (speed_command 0)).
    destruct (write_if_live sim (speed_command 0) s) as [[[[]|e] s1] tw].
    + pose proof (ticks_sound (negb sim)
        (fun t => Waiting l n (get_or (d_name step) "Step") t)
        (range_down duration) s1 (fun _ => eq_refl)) as H.
      destruct (for_running _ _ s1) as [[r s'] t]. destruct H as [Ht Hr].
      split; [|exact Hr]. now rewrite forallb_app, Hw, Ht.
    + destruct Hw as [-> [Hl ->]]. split; [reflexivity|]. right. right. auto.
  - destruct (d_speed step) as [speed|];
      [|split; [reflexivity|right; now left]].
    specialize (Hw (speed_command speed)).
    destruct (write_if_live sim (speed_command speed) s)
      as [[[[]|e] s1] tw].
    + pose proof (ticks_sound (negb sim)
        (fun t => Spinning l n (get_or (d_name step) "Step") speed t)
        (range_down duration) s1 (fun _ => eq_refl)) as H.
      destruct (for_running _ _ s1) as [[r s'] t]. destruct H as [Ht Hr].
      split; [|exact Hr]. rewrite forallb_app, Hw. simpl. exact Ht.
    + destruct Hw as [-> [Hl ->]]. split; [reflexivity|]. right. right. auto.
Qed.

Lemma loop_sound_step (live : bool) (s sb : wstate) (tb t2 : list event)
  (r : result unit) (s3 : wstate) :
  loop_sound live (Ok tt, sb, tb) -> loop_sound live (r, s3, t2) ->
  loop_sound live (r, s3, Poll true :: (tb ++ t2)%list).
Proof.
  intros [Hb _] [Hl Hr]. split; [|exact Hr].
  simpl. rewrite forallb_app, Hb, Hl. reflexivity.
Qed.

Lemma execution_loop_sound (w : worker) (s : wstate) :
  loop_sound (negb (simulation_mode w)) (execution_loop w s).
Proof.
  unfold execution_loop.
  set (live := negb (simulation_mode w)).
  apply (for_running_rule _ (fun _ => True)
           (fun _ => loop_sound live) (fun _ => loop_sound live)).
  - intros; now split.
  - intros; now split.
  - intros s0 sb tb r s3 t2 _. apply loop_sound_step; exact s0.
  - intros s0 e sb tb _ [Hb He]. split; [|exact He]. exact Hb.
  - intros l s0 _.
    apply (for_running_rule _ (fun _ => True)
             (fun _ => loop_sound live) (fun _ => loop_sound live)).
    + intros; now split.
    + intros; now split.
    + intros s1 sb tb r s3 t2 _. apply loop_sound_step; exact s1.
    + intros s1 e sb tb _ [Hb He]. split; [|exact He]. exact Hb.
    + intros step s1 _. apply run_step_sound.
    + apply Forall_always.
  - apply Forall_always.
Qed.

(** With every key there, nothing raises but a port that fails. *)
Lemma ticks_return (f : Z -> message) (ts : list Z) (s : wstate) :
  fst (fst (for_running ts (fun t => emit (f t) ;; sleep 1) s)) = Ok tt.
Proof.
  apply (for_running_rule _ (fun _ => True)
           (fun _ out => fst (fst out) = Ok tt)
           (fun _ out => fst (fst out) = Ok tt)); auto.
  apply Forall_always.
Qed.

Lemma run_step_returns (sim : bool) (l n : Z) (step : pydict) (s : wstate) :
  step_ok step = true ->
  fst (fst (run_step sim l n step s)) = Ok tt \/
  fst (fst (run_step sim l n step s)) = Raise SerialException.
Proof.
  unfold step_ok. intros Hok. rewrite run_step_cases.
  destruct (d_duration step) as [duration|]; [|discriminate].
  destruct (String.eqb (get_or (d_type step) "spin") "wait").
  - destruct (write_if_live_cases sim (speed_command 0) s)
      as [[_ ->]|[[_ [s1 [-> _]]]|[_ [_ ->]]]]; [| |now right];
      match goal with
      | |- context [for_running ?ts ?body ?s0] =>
          pose proof (ticks_return
            (fun t => Waiting l n (get_or (d_name step) "Step") t) ts s0) as H;
          destruct (for_running ts body s0) as [[r s'] t]
      end; now left.
  - destruct (d_speed step) as [speed|]; [|discriminate].
    destruct (write_if_live_cases sim (speed_command speed) s)
      as [[_ ->]|[[_ [s1 [-> _]]]|[_ [_ ->]]]]; [| |now right];
      match goal with
      | |- context [for_running ?ts ?body ?s0] =>
          pose proof (ticks_return
            (fun t => Spinning l n (get_or (d_name step) "Step") speed t)
            ts s0) as H;
          destruct (for_running ts body s0) as [[r s'] t]
      end; now left.
Qed.

Lemma execution_loop_returns (w : worker) (s : wstate) :
  forallb step_ok (recipe_steps w) = true ->
  fst (fst (execution_loop w s)) = Ok tt \/
  fst (fst (execution_loop w s)) = Raise SerialException.
Proof.
  intros Hok. unfold execution_loop.
  set (P := fun (_ : wstate) (out : result unit * wstate * list event) =>
              fst (fst out) = Ok tt \/ fst (fst out) = Raise SerialException).
  apply (for_running_rule _ (fun _ => True) P P); unfold P; cbn [fst]; auto.
  - intros l s0 _.
    apply (for_running_rule _ (fun step => step_ok step = true) P P);
      unfold P; cbn [fst]; auto.
    + intros step s1 Hs. now apply run_step_returns.
    + apply Forall_forall. intros step Hin.
      rewrite forallb_forall in Hok. now apply Hok.
  - apply Forall_always.
Qed.

(** While the port does not fail, no loop raises its exception. *)
Lemma execution_loop_no_fault (w : worker) (s : wstate) :
  io_left s = None ->
  io_left (snd (fst (execution_loop w s))) = None /\
  fst (fst (execution_loop w s)) <> Raise SerialException.
Proof.
  set (P := fun (s : wstate) (out : result unit * wstate * list event) =>
              io_left s = None ->
              io_left (snd (fst out)) = None /\
              fst (fst out) <> Raise SerialException).
  assert (Hstep : forall s sb tb r s3 t2,
    polls_left s <> Some O ->
    P (after_poll s) (Ok tt, sb, tb) -> P sb (r, s3, t2) ->
    P s (r, s3, Poll true :: (tb ++ t2)%list)).
  { unfold P. cbn [fst snd]. intros s0 sb tb r s3 t2 _ Hb Hl Hio.
    apply Hl, Hb. unfold after_poll.
    now destruct (polls_left s0) as [[|k]|]. }
  assert (Hraise : forall s e sb tb,
    polls_left s <> Some O ->
    P (after_poll s) (Raise e, sb, tb) ->
    P s (Raise e, sb, Poll true :: tb)).
  { unfold P. cbn [fst snd]. intros s0 e sb tb _ Hb Hio.
    apply Hb. unfold after_poll.
    now destruct (polls_left s0) as [[|k]|]. }
  assert (Hticks : forall (f : Z -> message) ts s0,
    P s0 (for_running ts (fun t => emit (f t) ;; sleep 1) s0)).
  { intros f ts s0.
    apply (for_running_rule _ (fun _ => True) P P); auto.
    - unfold P. cbn [fst snd]. intros s1 H. split; [exact H|discriminate].
    - unfold P. cbn [fst snd]. intros s1 _ H. split; [exact H|discriminate].
    - intros t s1 _. rewrite tick_eq. unfold P. cbn [fst snd].
      intros H. split; [exact H|discriminate].
    - apply Forall_always. }
  unfold execution_loop.
  apply (for_running_rule _ (fun _ => True) P P); auto.
  - unfold P. cbn [fst snd]. intros s1 H. split; [exact H|discriminate].
  - unfold P. cbn [fst snd]. intros s1 _ H. split; [exact H|discriminate].
  - intros l s0 _.
    apply (for_running_rule _ (fun _ => True) P P); auto.
    + unfold P. cbn [fst snd]. intros s1 H. split; [exact H|discriminate].
    + unfold P. cbn [fst snd]. intros s1 _ H.
      split; [exact H|discriminate].
    + intros step s1 _. unfold P. intros Hio. rewrite run_step_cases.
      destruct (d_duration step) as [duration|];
        [|cbn [fst snd]; split; [exact Hio|discriminate]].
      destruct (String.eqb (get_or (d_type step) "spin") "wait").
      * destruct (write_if_live_cases (simulation_mode w) (speed_command 0)
                    s1)
          as [[_ ->]|[[_ [s2 [-> [_ [_ Hsame]]]]]|[_ [Hz _]]]];
          [|rewrite (Hsame Hio)|congruence];
          match goal with
          | |- context [for_running ?ts ?body s1] =>
              pose proof (Hticks
                (fun t => Waiting l (loop_count w)
                            (get_or (d_name step) "Step") t) ts s1 Hio) as H;
              destruct (for_running ts body s1) as [[r s'] t]
          end; exact H.
      * destruct (d_speed step) as [speed|];
          [|cbn [fst snd]; split; [exact Hio|discriminate]].
        destruct (write_if_live_cases (simulation_mode w)
                    (speed_command speed) s1)
          as [[_ ->]|[[_ [s2 [-> [_ [_ Hsame]]]]]|[_ [Hz _]]]];
          [|rewrite (Hsame Hio)|congruence];
          match goal with
          | |- context [for_running ?ts ?body s1] =>
              pose proof (Hticks
                (fun t => Spinning l (loop_count w)
                            (get_or (d_name step) "Step") speed t)
                ts s1 Hio) as H;
              destruct (for_running ts body s1) as [[r s'] t]
          end; exact H.
    + apply Forall_always.
  - apply Forall_always.
Qed.

Lemma loop_events_lack (live : bool) (t : list event) :
  forallb (is_loop_event live) t = true ->
  ~ In Finished t /\ ~ In (Emit ProcessComplete) t /\ ~ In SerialClose t /\
  (forall e, In e t -> is_serial e = true -> live = true).
Proof.
  rewrite forallb_forall. intros H. repeat split.
  - intros Hin. now apply H in Hin.
  - intros Hin. now apply H in Hin.
  - intros Hin. now apply H in Hin.
  - intros e Hin Hser. apply H in Hin.
    destruct e as [m| |p b|c| |z|b]; try discriminate; exact Hin.
Qed.

Lemma forallb_step_ok_returns (w : worker) (s s2 : wstate) (key : string)
  (tl : list event) :
  execution_loop w s = (Raise (KeyError key), s2, tl) ->
  forallb step_ok (recipe_steps w) = false.
Proof.
  intros He. destruct (forallb step_ok (recipe_steps w)) eqn:Hok; [|reflexivity].
  destruct (execution_loop_returns w s Hok) as [H|H];
    rewrite He in H; discriminate H.
Qed.

(** ** The worker thread: where the flag is read

    What a loop of [run] does is what it would do if nobody cancelled,
    cut at the first read of the flag that sees [False]; from there the
    thread only leaves its loops. *)

Lemma polls_app (t1 t2 : list event) :
  polls (t1 ++ t2) = (polls t1 + polls t2)%nat.
Proof. unfold polls. now rewrite filter_app, length_app. Qed.

Lemma outlasts_dec (left : option nat) (n : nat) :
  {outlasts left n} + {~ outlasts left n}.
Proof.
  destruct left as [k|]; simpl; [|now left].
  destruct (le_lt_dec n k); [now left|right; lia].
Qed.

Lemma left_after_spent (left : option nat) (n : nat) :
  ~ outlasts left n -> left_after left n = Some O.
Proof. destruct left as [k|]; simpl; [|tauto]. intros H. f_equal. lia. Qed.

Lemma left_after_add (left : option nat) (n m : nat) :
  left_after (left_after left n) m = left_after left (n + m).
Proof. destruct left as [k|]; simpl; [|reflexivity]. f_equal. lia. Qed.

Lemma outlasts_add (left : option nat) (n m : nat) :
  outlasts left (n + m) <-> outlasts left n /\ outlasts (left_after left n) m.
Proof. destruct left as [k|]; simpl; [lia|tauto]. Qed.

Lemma schedule_app_le (left : option nat) (a b : list event) :
  outlasts left (polls a) ->
  schedule left (a ++ b) = (a ++ schedule (left_after left (polls a)) b)%list.
Proof.
  destruct left as [k|]; simpl; [|reflexivity].
  revert k. induction a as [|e a IH]; intros k Hk.
  - simpl. now rewrite Nat.sub_0_r.
  - destruct e as [m| |p r|c| |z|r];
      try (cbn [app cut]; f_equal; apply IH; exact Hk).
    unfold polls in Hk. simpl in Hk. destruct k as [|k]; [lia|].
    cbn [app cut]. f_equal. rewrite IH by (unfold polls; lia).
    reflexivity.
Qed.

Lemma schedule_app_gt (left : option nat) (a b : list event) :
  ~ outlasts left (polls a) -> schedule left (a ++ b) = schedule left a.
Proof.
  destruct left as [k|]; simpl; [|tauto].
  revert k. induction a as [|e a IH]; intros k Hk.
  - unfold polls in Hk. simpl in Hk. lia.
  - destruct e as [m| |p r|c| |z|r];
      try (cbn [app cut]; f_equal; apply IH; exact Hk).
    unfold polls in Hk. simpl in Hk. destruct k as [|k]; [reflexivity|].
    cbn [app cut]. f_equal. apply IH. unfold polls. lia.
Qed.

Lemma schedule_app_prefix (left : option nat) (a b : list event) :
  exists rest, schedule left (a ++ b) = (schedule left a ++ rest)%list.
Proof.
  destruct (outlasts_dec left (polls a)) as [H|H].
  - rewrite schedule_app_le by exact H.
    exists (schedule (left_after left (polls a)) b).
    f_equal. rewrite <- (app_nil_r a) at 2.
    rewrite schedule_app_le by exact H.
    destruct (left_after left (polls a)); now rewrite app_nil_r.
  - rewrite schedule_app_gt by exact H. exists []. now rewrite app_nil_r.
Qed.

Lemma schedule_all (left : option nat) (a : list event) :
  outlasts left (polls a) -> schedule left a = a.
Proof.
  intros H. rewrite <- (app_nil_r a) at 1.
  rewrite schedule_app_le by exact H.
  destruct (left_after left (polls a)); now rewrite app_nil_r.
Qed.

(** A read that sees [True] spends one of the reads that are left. *)
Lemma after_poll_left (s : wstate) :
  polls_left s <> Some O ->
  polls_left (after_poll s) = left_after (polls_left s) 1 /\
  outlasts (polls_left s) 1.
Proof.
  unfold after_poll. destruct (polls_left s) as [[|n]|] eqn:Hp; simpl.
  - congruence.
  - intros _. split; [now rewrite Nat.sub_0_r|lia].
  - intros _. now rewrite Hp.
Qed.

Lemma follows_nil (depth : nat) (s : wstate) :
  follows depth [] s (Ok tt, s, []).
Proof.
  split; [reflexivity|]. split.
  - destruct (polls_left s); simpl; [now rewrite Nat.sub_0_r|reflexivity].
  - exists O. split; [now destruct (polls_left s)|].
    split; [lia|]. split; [reflexivity|].
    intros H. exfalso. apply H.
    destruct (polls_left s); simpl; [unfold polls; simpl; lia|exact I].
Qed.

Section Follows.

Context {A : Type} (body : A -> M unit) (f : A -> list event).
Variables (depth : nat) (port_open : bool).

Hypothesis body_follows :
  forall x s, ser s = port_open -> follows depth (f x) s (body x s).

Lemma for_running_follows (xs : list A) :
  forall s,
    ser s = port_open ->
    follows (S depth) (flat_map (fun x => Poll true :: f x) xs) s
            (for_running xs body s).
Proof.
  induction xs as [|x rest IH]; intros s Hs; [apply follows_nil|].
  rewrite for_running_cons. cbn [flat_map].
  set (F := flat_map (fun x => Poll true :: f x) rest) in *.
  change (Poll true :: f x ++ F)%list with ([Poll true] ++ f x ++ F)%list.
  assert (Hstop : polls_left s = Some O ->
    follows (S depth) ([Poll true] ++ f x ++ F) s (Ok tt, s, [Poll false])).
  { intros Hp. unfold follows. rewrite Hp. simpl.
    split; [reflexivity|]. split; [reflexivity|].
    exists 1%nat. split; [reflexivity|]. split; [lia|].
    split; [unfold polls; simpl; lia|lia]. }
  assert (Hlive : polls_left s <> Some O ->
    follows (S depth) ([Poll true] ++ f x ++ F) s
      match body x (after_poll s) with
      | (Ok _, s2, tb) =>
          match for_running rest body s2 with
          | (r, s3, t2) => (r, s3, Poll true :: (tb ++ t2)%list)
          end
      | (Raise e, s2, tb) => (Raise e, s2, Poll true :: tb)
      end).
  { intros Hns. destruct (after_poll_left s Hns) as [Hleft Hone].
    assert (Hsa : ser (after_poll s) = port_open)
      by (now rewrite after_poll_ser).
    pose proof (body_follows x (after_poll s) Hsa) as Hb.
    change (polls [Poll true]) with 1%nat in *.
    set (left1 := left_after (polls_left s) 1) in *.
    assert (Hsched : forall t,
      schedule (polls_left s) ([Poll true] ++ t)
      = (Poll true :: schedule left1 t)%list).
    { intros t. now rewrite schedule_app_le by exact Hone. }
    destruct (body x (after_poll s)) as [[[[]|e] sb] tb];
      unfold follows in Hb; rewrite Hleft, ?after_poll_ser in Hb.
    - destruct Hb as [Hserb [Hpb [jb [Htb [Hjb [Hout Hnot]]]]]].
      assert (Hsb : ser sb = port_open) by congruence.
      destruct (outlasts_dec left1 (polls (f x))) as [Hle|Hgt].
      + rewrite (Hout Hle) in Htb. simpl in Htb. rewrite app_nil_r in Htb.
        pose proof (IH sb Hsb) as Hr.
        destruct (for_running rest body sb) as [[[[]|e2] s3] t2];
          unfold follows in Hr |- *; rewrite Hpb in Hr.
        * destruct Hr as [Hser3 [Hp3 [j [Ht2 [Hj [Hout2 Hnot2]]]]]].
          split; [congruence|]. split.
          { rewrite Hp3. unfold left1. rewrite !polls_app, !left_after_add.
            reflexivity. }
          exists j. split.
          { rewrite Hsched, schedule_app_le by exact Hle.
            rewrite Htb, Ht2, (schedule_all _ _ Hle).
            simpl. now rewrite <- app_assoc. }
          split; [exact Hj|].
          rewrite !polls_app.
          change (polls [Poll true]) with 1%nat.
          rewrite !outlasts_add. fold left1. tauto.
        * destruct Hr as [rest2 Hr].
          exists rest2. rewrite Hsched, schedule_app_le by exact Hle.
          rewrite Htb, Hr, (schedule_all _ _ Hle).
          simpl. now rewrite <- app_assoc.
      + rewrite (left_after_spent _ _ Hgt) in Hpb.
        rewrite (for_running_stopped body rest sb Hpb).
        unfold follows. split; [congruence|]. split.
        { rewrite Hpb. symmetry. apply left_after_spent.
          rewrite !polls_app. change (polls [Poll true]) with 1%nat.
          rewrite !outlasts_add. fold left1. tauto. }
        exists (jb + match rest with [] => 0 | _ :: _ => 1 end)%nat.
        split.
        { rewrite Hsched, schedule_app_gt by exact Hgt. rewrite Htb.
          rewrite repeat_app. simpl. rewrite <- app_assoc.
          now destruct rest. }
        split; [destruct rest; lia|].
        specialize (Hnot Hgt).
        rewrite !polls_app. change (polls [Poll true]) with 1%nat.
        rewrite !outlasts_add. fold left1. split; [tauto|]. intros _. lia.
    - destruct Hb as [rest1 Hb]. unfold follows.
      destruct (schedule_app_prefix left1 (f x) F) as [rest2 Hpre].
      exists (rest1 ++ rest2)%list.
      rewrite Hsched, Hpre, Hb. simpl. now rewrite <- app_assoc. }
  destruct (polls_left s) as [[|k]|] eqn:Hp.
  - now apply Hstop.
  - apply Hlive. discriminate.
  - apply Hlive. discriminate.
Qed.

End Follows.

Lemma left_after_0 (left : option nat) : left_after left 0 = left.
Proof. destruct left; simpl; [now rewrite Nat.sub_0_r|reflexivity]. Qed.

Lemma outlasts_0 (left : option nat) : outlasts left 0.
Proof. destruct left; simpl; [lia|exact I]. Qed.

(** What comes before a loop and reads no flag. *)
Lemma follows_prefix (depth : nat) (pre full : list event) (s s1 : wstate)
  (r : result unit) (s' : wstate) (t : list event) :
  polls pre = O -> ser s1 = ser s -> polls_left s1 = polls_left s ->
  follows depth full s1 (r, s', t) ->
  follows depth (pre ++ full) s (r, s', (pre ++ t)%list).
Proof.
  intros Hpre Hser Hpolls. unfold follows. rewrite Hpolls.
  assert (Hs : forall b,
    schedule (polls_left s) (pre ++ b)
    = (pre ++ schedule (polls_left s) b)%list).
  { intros b. rewrite schedule_app_le by (rewrite Hpre; apply outlasts_0).
    now rewrite Hpre, left_after_0. }
  rewrite polls_app, Hpre, Hs. simpl. destruct r as [[]|e].
  - intros [Hser' [Hp [j [Ht H]]]]. split; [congruence|].
    split; [exact Hp|]. exists j. split; [|exact H].
    rewrite Ht. now rewrite app_assoc.
  - intros [rest ->]. exists rest. now rewrite app_assoc.
Qed.

Lemma follows_raise (depth : nat) (full : list event) (s s' : wstate)
  (e : exn) :
  follows depth full s (Raise e, s', []).
Proof. unfold follows. now exists (schedule (polls_left s) full). Qed.

Lemma tick_follows (m : message) (s : wstate) :
  follows 0 [Emit m; Sleep 1] s ((emit m ;; sleep 1) s).
Proof.
  rewrite tick_eq. split; [reflexivity|].
  split; [now rewrite left_after_0|]. exists O.
  split; [now destruct (polls_left s)|]. split; [lia|].
  split; [reflexivity|]. intros H. exfalso. apply H, outlasts_0.
Qed.

Lemma ticks_follows (f : Z -> message) (ts : list Z) (s : wstate) :
  follows 1 (flat_map (fun t => [Poll true; Emit (f t); Sleep 1]) ts) s
          (for_running ts (fun t => emit (f t) ;; sleep 1) s).
Proof.
  apply (for_running_follows
           (fun t => emit (f t) ;; sleep 1)
           (fun t => [Emit (f t); Sleep 1]) 0 (ser s)); [|reflexivity].
  intros t s0 _. apply tick_follows.
Qed.

Lemma run_step_follows (sim : bool) (l n : Z) (step : pydict) (s : wstate) :
  follows 1 (step_events (negb sim && ser s) l n step) s
          (run_step sim l n step s).
Proof.
  rewrite run_step_cases. unfold step_events.
  destruct (d_duration step) as [duration|]; [|apply follows_raise].
  cbn [get_or].
  destruct (String.eqb (get_or (d_type step) "spin") "wait").
  - destruct (write_if_live_cases sim (speed_command 0) s)
      as [[Hl ->]|[[Hl [s1 [-> [Hser [Hpolls _]]]]]|[_ [_ ->]]]];
      [| |apply follows_raise]; rewrite Hl.
    + pose proof (ticks_follows
        (fun t => Waiting l n (get_or (d_name step) "Step") t)
        (range_down duration) s) as H.
      destruct (for_running _ _ s) as [[r s'] t]. exact H.
    + pose proof (ticks_follows
        (fun t => Waiting l n (get_or (d_name step) "Step") t)
        (range_down duration) s1) as H.
      destruct (for_running _ _ s1) as [[r s'] t].
      now apply (follows_prefix 1 [SerialWrite (speed_command 0)] _ s s1).
  - destruct (d_speed step) as [speed|]; [|apply follows_raise].
    cbn [get_or].
    destruct (write_if_live_cases sim (speed_command speed) s)
      as [[Hl ->]|[[Hl [s1 [-> [Hser [Hpolls _]]]]]|[_ [_ ->]]]];
      [| |apply follows_raise]; rewrite Hl.
    + pose proof (ticks_follows
        (fun t => Spinning l n (get_or (d_name step) "Step") speed t)
        (range_down duration) s) as H.
      destruct (for_running _ _ s) as [[r s'] t].
      now apply (follows_prefix 1
                   [Emit (Ramping l n (get_or (d_name step) "Step") speed);
                    Sleep 1] _ s s).
    + pose proof (ticks_follows
        (fun t => Spinning l n (get_or (d_name step) "Step") speed t)
        (range_down duration) s1) as H.
      destruct (for_running _ _ s1) as [[r s'] t].
      now apply (follows_prefix 1
                   [SerialWrite (speed_command speed);
                    Emit (Ramping l n (get_or (d_name step) "Step") speed);
                    Sleep 1] _ s s1).
Qed.

Lemma execution_loop_follows (w : worker) (s : wstate) :
  follows 3 (loop_events (negb (simulation_mode w) && ser s) w) s
          (execution_loop w s).
Proof.
  unfold execution_loop, loop_events.
  apply (for_running_follows
           (fun current_loop =>
              for_running (recipe_steps w)
                (run_step (simulation_mode w) current_loop (loop_count w)))
           (fun current_loop =>
              flat_map
                (fun step =>
                   Poll true ::
                   step_events (negb (simulation_mode w) && ser s)
                               current_loop (loop_count w) step)
                (recipe_steps w))
           2 (ser s)); [|reflexivity].
  intros current_loop s0 Hs0.
  apply (for_running_follows
           (run_step (simulation_mode w) current_loop (loop_count w))
           (fun step =>
              step_events (negb (simulation_mode w) && ser s)
                          current_loop (loop_count w) step)
           1 (ser s)); [|exact Hs0].
  intros step s1 Hs1. rewrite <- Hs1. apply run_step_follows.
Qed.
(** ** The worker thread: a whole live run *)

(** The end of a live run with the port open: the motor is stopped and
    the port closed, unless one of the two calls raises. *)
Lemma finish_live (w : worker) (s : wstate) :
  simulation_mode w = false -> ser s = true ->
  finish w s
  = match io_left s with
    | Some O => (Raise SerialException, s, [])
    | Some (S O) =>
        (Raise SerialException, mkState true (polls_left s) (Some O),
         [SerialWrite (speed_command 0)])
    | Some (S (S n)) => (Ok tt, mkState true (polls_left s) (Some n), shutdown)
    | None => (Ok tt, s, shutdown)
    end.
Proof.
  intros Hlive Hser. unfold finish, bind, serial_io, emit, tell. cbv beta.
  rewrite Hlive, Hser. cbn [negb andb].
  destruct (io_left s) as [[|[|n]]|] eqn:Hio;
    cbn [io_left ser polls_left app]; rewrite ?Hio; reflexivity.
Qed.

(** A live run once the port is open: the loops, then the end. *)
Lemma run_connected (w : worker) (env : environment) :
  simulation_mode w = false -> SERIAL_AVAILABLE env = true ->
  open_error env = None ->
  run w env
  = match execution_loop w
            (mkState true (stop_after env) (fault_after env)) with
    | (Ok _, s2, tl) =>
        match finish w s2 with
        | (r, _, tf) => (r, (startup ++ tl ++ tf)%list)
        end
    | (Raise e, _, tl) => (Raise e, (startup ++ tl)%list)
    end.
Proof.
  intros Hlive Hav Herr. unfold run, run_body, connect.
  rewrite Hlive, Hav, Herr. simpl.
  unfold bind, emit, tell, set_ser, sleep, ret. simpl.
  destruct (execution_loop w (mkState true (stop_after env) (fault_after env)))
    as [[[[]|e] s2] tl]; [|reflexivity].
  now destruct (finish w s2) as [[r s3] tf].
Qed.

(** The ways a live run can go: no connection; the loops return and
    the run shuts the motor down, unless the port fails at the last
    moment; a step raises. *)
Lemma run_live_cases (w : worker) (env : environment) :
  simulation_mode w = false ->
  (exists m, (m = NoSerial \/ exists e, m = ConnectionError e) /\
             run w env = (Ok tt, [Emit Initializing; Emit m; Finished])) \/
  (exists s2 tl,
      execution_loop w (mkState true (stop_after env) (fault_after env))
      = (Ok tt, s2, tl) /\
      (run w env = (Ok tt, (startup ++ tl ++ shutdown)%list) \/
       run w env = (Raise SerialException, (startup ++ tl)%list) \/
       run w env
       = (Raise SerialException,
          (startup ++ tl ++ [SerialWrite (speed_command 0)])%list))) \/
  (exists e s2 tl,
      execution_loop w (mkState true (stop_after env) (fault_after env))
      = (Raise e, s2, tl) /\
      run w env = (Raise e, (startup ++ tl)%list)).
Proof.
  intros Hlive.
  destruct (SERIAL_AVAILABLE env) eqn:Hav.
  2:{ left. exists NoSerial. split; [now left|].
      unfold run, run_body, connect. now rewrite Hlive, Hav. }
  destruct (open_error env) as [e|] eqn:Herr.
  { left. exists (ConnectionError e). split; [right; eauto|].
    unfold run, run_body, connect. now rewrite Hlive, Hav, Herr. }
  right. rewrite (run_connected w env Hlive Hav Herr).
  pose proof (execution_loop_halts w
                (mkState true (stop_after env) (fault_after env))) as Hh.
  destruct (execution_loop w (mkState true (stop_after env) (fault_after env)))
    as [[[[]|e] s2] tl].
  - left. exists s2, tl. split; [reflexivity|].
    destruct Hh as [Hser _]. simpl in Hser.
    rewrite (finish_live w s2 Hlive Hser).
    destruct (io_left s2) as [[|[|n]]|].
    + right. left. now rewrite app_nil_r.
    + right. right. reflexivity.
    + left. reflexivity.
    + left. reflexivity.
  - right. exists e, s2, tl. split; reflexivity.
Qed.


Lemma unwinding_is_silent (k : nat) :
  filter is_progress_event (repeat (Poll false) k ++ shutdown) = [].
Proof. induction k as [|k IH]; [reflexivity|exact IH]. Qed.










(* ================================================================= *)
(** * Further properties *)

(** ** The order of the listing *)

Lemma leb_refl (s : string) : String.leb s s = true.
Proof. destruct (String.leb_total s s); assumption. Qed.

Lemma insert_sorted_In {A : Type} (x y : string * A) (l : list (string * A)) :
  In y (insert_sorted x l) <-> y = x \/ In y l.
Proof.
  split.
  - intros H. apply (Permutation_in _ (insert_sorted_perm x l)) in H.
    simpl in H. intuition.
  - intros H. apply (Permutation_in _ (Permutation_sym (insert_sorted_perm x l))).
    simpl. intuition.
Qed.

Lemma insert_sorted_sorted {A : Type} (x : string * A)
  (l : list (string * A)) :
  Sorted (fun a b => String.leb (fst a) (fst b) = true) l ->
  Sorted (fun a b => String.leb (fst a) (fst b) = true) (insert_sorted x l).
Proof.
  induction 1 as [|y l Hs IH Hhd]; simpl.
  - repeat constructor.
  - destruct (String.leb (fst x) (fst y)) eqn:Hxy.
    + constructor; [constructor; assumption|]. constructor. exact Hxy.
    + constructor; [exact IH|].
      assert (Hyx : String.leb (fst y) (fst x) = true).
      { destruct (String.leb_total (fst x) (fst y)); congruence. }
      destruct l as [|z l]; simpl.
      * constructor. exact Hyx.
      * destruct (String.leb (fst x) (fst z)); constructor;
          [exact Hyx|]. now inversion Hhd.
Qed.

Lemma stable_sort_sorted {A : Type} (l : list (string * A)) :
  Sorted (fun a b => String.leb (fst a) (fst b) = true) (stable_sort l).
Proof.
  induction l as [|x l IH]; simpl; [constructor|].
  now apply insert_sorted_sorted.
Qed.

Lemma insert_sorted_stable {A : Type} (n : string) (x : string * A)
  (l : list (string * A)) :
  filter (fun e => String.eqb (fst e) n) (insert_sorted x l)
  = filter (fun e => String.eqb (fst e) n) (x :: l).
Proof.
  induction l as [|y l IH]; [reflexivity|].
  cbn [insert_sorted]. destruct (String.leb (fst x) (fst y)) eqn:Hxy;
    [reflexivity|].
  cbn [filter] in *. rewrite IH.
  destruct (String.eqb_spec (fst x) n) as [Hx|Hx];
    destruct (String.eqb_spec (fst y) n) as [Hy|Hy]; try reflexivity.
  rewrite Hx, Hy, leb_refl in Hxy. discriminate.
Qed.

Lemma stable_sort_stable {A : Type} (n : string) (l : list (string * A)) :
  filter (fun e => String.eqb (fst e) n) (stable_sort l)
  = filter (fun e => String.eqb (fst e) n) l.
Proof.
  induction l as [|x l IH]; [reflexivity|].
  cbn [stable_sort fold_right]. fold (stable_sort l).
  rewrite insert_sorted_stable. cbn [filter]. now rewrite IH.
Qed.

Lemma name_keys_decorated (l : store) ks :
  name_keys l = Ok ks ->
  Forall (fun k => d_name (snd (snd k)) = Some (fst k)) ks.
Proof.
  revert ks. induction l as [|[r_id data] l IH]; simpl; intros ks H.
  - inversion H. constructor.
  - destruct (d_name data) as [n|] eqn:Hn; simpl in H; [|discriminate].
    destruct (name_keys l) as [ks'|]; simpl in H; [|discriminate].
    inversion H; subst. constructor; [exact Hn|]. now apply IH.
Qed.

Lemma Sorted_map_snd (ks : list (string * (string * pydict))) :
  Forall (fun k => d_name (snd (snd k)) = Some (fst k)) ks ->
  Sorted (fun a b => String.leb (fst a) (fst b) = true) ks ->
  Sorted name_le (map snd ks).
Proof.
  intros Hd Hs. induction Hs as [|k ks Hs IH Hhd]; simpl; [constructor|].
  inversion Hd as [|? ? Hk Hks]; subst. constructor; [auto|].
  destruct ks as [|k' ks]; simpl; constructor.
  inversion Hks as [|? ? Hk' _]; subst. inversion Hhd; subst.
  unfold name_le, name_of. rewrite Hk, Hk'. simpl. assumption.
Qed.

Lemma filter_decorated (n : string) (ks : list (string * (string * pydict))) :
  Forall (fun k => d_name (snd (snd k)) = Some (fst k)) ks ->
  filter (has_name n) (map snd ks)
  = map snd (filter (fun e => String.eqb (fst e) n) ks).
Proof.
  induction 1 as [|k ks Hk Hks IH]; [reflexivity|].
  cbn [map filter]. unfold has_name at 1. rewrite Hk, IH.
  now destruct (String.eqb (fst k) n).
Qed.

(** X1.  When the sort of a group succeeds, the group holds the same
    entries, in ascending order of name (by character code, so capitals
    come first), and entries of equal name keep the order they have in
    the dictionary. *)
Theorem X1_sort_by_name_sorted_stable (l l' : store) :
  sort_by_name l = Ok l' ->
  Permutation l' l /\ Sorted name_le l' /\
  forall n, filter (has_name n) l' = filter (has_name n) l.
Proof.
  intros H. split; [now apply sort_by_name_perm|].
  unfold sort_by_name in H.
  destruct (name_keys l) as [ks|] eqn:Hk; simpl in H; [|discriminate].
  inversion H; subst. clear H.
  pose proof (name_keys_decorated _ _ Hk) as Hd.
  assert (Hd' : Forall (fun k => d_name (snd (snd k)) = Some (fst k))
                       (stable_sort ks)).
  { rewrite Forall_forall in *. intros k Hin. apply Hd.
    eapply Permutation_in; [apply stable_sort_perm|exact Hin]. }
  split.
  - apply Sorted_map_snd; [exact Hd'|apply stable_sort_sorted].
  - intros n. rewrite (filter_decorated n _ Hd'), stable_sort_stable.
    rewrite <- (filter_decorated n _ Hd). now rewrite (name_keys_snd _ _ Hk).
Qed.

Lemma X1_witness :
  sort_by_name [("r3", rinse); ("r2", prime); ("r9", rinse)]
  = Ok [("r2", prime); ("r3", rinse); ("r9", rinse)] /\
  Sorted name_le [("r2", prime); ("r3", rinse); ("r9", rinse)].
Proof.
  split; [reflexivity|].
  apply (X1_sort_by_name_sorted_stable
           [("r3", rinse); ("r2", prime); ("r9", rinse)]).
  reflexivity.
Defined.

(** ** What the listing shows *)

Lemma render_private_items (l : store) (item : list_item) :
  In item (fst (render_private l)) ->
  exists k d n, In (k, d) l /\ d_name d = Some n /\ item = mkItem n (Some k).
Proof.
  induction l as [|[k d] l IH]; simpl; [tauto|].
  destruct (d_name d) as [n|] eqn:Hn; simpl; [|tauto].
  destruct (render_private l) as [items e]. simpl in *.
  intros [<-|Hin].
  - exists k, d, n. auto.
  - destruct (IH Hin) as [k' [d' [n' [H1 [H2 H3]]]]].
    exists k', d', n'. auto.
Qed.

Lemma render_shared_items (u : string) (l : store) (item : list_item) :
  In item (fst (render_shared u l)) ->
  exists k d n a,
    In (k, d) l /\ d_name d = Some n /\ d_author d = Some a /\
    item = mkItem (if String.eqb a u then n else n ++ " (" ++ a ++ ")")
                  (Some k).
Proof.
  induction l as [|[k d] l IH]; simpl; [tauto|].
  destruct (d_name d) as [n|] eqn:Hn; simpl; [|tauto].
  destruct (d_author d) as [a|] eqn:Ha; simpl; [|tauto].
  destruct (render_shared u l) as [items e]. simpl in *.
  intros [<-|Hin].
  - exists k, d, n, a. repeat split; auto. now destruct (String.eqb a u).
  - destruct (IH Hin) as [k' [d' [n' [a' [H1 [H2 [H3 H4]]]]]]].
    exists k', d', n', a'. auto.
Qed.

(** An item that carries an identifier was made by one of the two
    rendering loops, from an entry the classification loop kept. *)
Lemma refresh_items (saved : store) (u : string) (item : list_item) :
  In item (fst (refresh_recipe_list saved u)) -> role item <> None ->
  (exists p', Permutation p' (fst (classify u saved)) /\
              In item (fst (render_private p'))) \/
  (exists s', Permutation s' (snd (classify u saved)) /\
              In item (fst (render_shared u s'))).
Proof.
  unfold refresh_recipe_list.
  destruct (str_is_empty u); simpl; [tauto|].
  destruct (classify u saved) as [p s]. simpl.
  destruct (sort_by_name p) as [p'|] eqn:Hp; simpl; [|tauto].
  destruct (sort_by_name s) as [s'|] eqn:Hs; simpl; [|tauto].
  apply sort_by_name_perm in Hp. apply sort_by_name_perm in Hs.
  intros Hin Hrole.
  assert (Hgoal :
    In item (fst (render_private p')) \/ In item (fst (render_shared u s')) ->
    (exists p'0, Permutation p'0 p /\ In item (fst (render_private p'0))) \/
    (exists s'0, Permutation s'0 s /\ In item (fst (render_shared u s'0)))).
  { intros [H|H]; [left|right]; eauto. }
  apply Hgoal. clear Hgoal.
  destruct (render_private p') as [pi pe].
  destruct (render_shared u s') as [si se]. simpl.
  destruct p' as [|p0 p']; destruct s' as [|s0 s']; simpl in Hin;
    destruct pe; simpl in Hin; rewrite ?in_app_iff in Hin; simpl in Hin;
    intuition (subst; simpl in *; try congruence).
Qed.

(** X2.  The text of an entry of the list: a recipe that is not shared
    is shown to its author under its name; a shared recipe is shown
    under its name to its author and under "name (author)" to everybody
    else. *)
Theorem X2_listing_labels (saved : store) (u r_id : string) (data : pydict)
  (item : list_item) :
  NoDup (keys saved) -> In (r_id, data) saved ->
  In item (fst (refresh_recipe_list saved u)) -> role item = Some r_id ->
  exists n,
    d_name data = Some n /\
    if get_or (d_shared data) false
    then exists a, d_author data = Some a /\
                   text item = if String.eqb a u then n
                               else n ++ " (" ++ a ++ ")"
    else get_or (d_author data) "Unknown" = u /\ text item = n.
Proof.
  intros Hnd Hdata Hin Hrole.
  assert (Hsome : role item <> None) by congruence.
  destruct (refresh_items saved u item Hin Hsome)
    as [[p' [Hp Hi]]|[s' [Hs Hi]]].
  - apply render_private_items in Hi.
    destruct Hi as [k [d [n [Hk [Hn ->]]]]]. simpl in Hrole.
    inversion Hrole; subst k.
    apply (Permutation_in _ Hp), classify_private in Hk.
    destruct Hk as [Hk [Hsh Hau]].
    rewrite (NoDup_keys_functional _ _ _ _ Hnd Hdata Hk).
    exists n. split; [exact Hn|]. rewrite Hsh. split; [exact Hau|reflexivity].
  - apply render_shared_items in Hi.
    destruct Hi as [k [d [n [a [Hk [Hn [Ha ->]]]]]]]. simpl in Hrole.
    inversion Hrole; subst k.
    apply (Permutation_in _ Hs), classify_shared in Hk.
    destruct Hk as [Hk Hsh].
    rewrite (NoDup_keys_functional _ _ _ _ Hnd Hdata Hk).
    exists n. split; [exact Hn|]. rewrite Hsh.
    exists a. split; [exact Ha|reflexivity].
Qed.

Lemma X2_witness :
  exists n,
    d_name etch = Some n /\
    if get_or (d_shared etch) false
    then exists a, d_author etch = Some a /\
                   text etch_item = if String.eqb a "al" then n
                                    else n ++ " (" ++ a ++ ")"
    else get_or (d_author etch) "Unknown" = "al" /\ text etch_item = n.
Proof.
  apply (X2_listing_labels sample_store "al" "r1" etch etch_item).
  - repeat constructor; simpl; intuition discriminate.
  - simpl. auto.
  - simpl. do 4 right. left. reflexivity.
  - reflexivity.
Defined.

Lemma classify_incl (u : string) (saved : store) :
  incl (keys (fst (classify u saved))) (keys saved) /\
  incl (keys (snd (classify u saved))) (keys saved).
Proof.
  split; intros k Hk; apply In_keys in Hk; destruct Hk as [v Hv];
    apply In_keys; exists v.
  - now apply classify_private in Hv.
  - now apply classify_shared in Hv.
Qed.

Lemma classify_NoDup (u : string) (saved : store) :
  NoDup (keys saved) ->
  NoDup (keys (fst (classify u saved)) ++ keys (snd (classify u saved))).
Proof.
  induction saved as [|[k v] saved IH]; simpl; [constructor|].
  intros Hnd. inversion Hnd as [|? ? Hnotin Hnd']; subst.
  specialize (IH Hnd'). destruct (classify_incl u saved) as [Hp Hs].
  destruct (classify u saved) as [p s]. simpl in *.
  assert (Hk : ~ In k (keys p ++ keys s)).
  { rewrite in_app_iff. intros [H|H]; apply Hnotin; auto. }
  destruct (get_or (d_shared v) false); simpl.
  - apply NoDup_Add with (a := k) (l := (keys p ++ keys s)%list).
    + apply Add_app.
    + auto.
  - destruct (String.eqb _ u); simpl; [constructor; assumption|exact IH].
Qed.

Lemma render_private_prefix (l : store) :
  exists rest,
    keys l = (listed_ids (fst (render_private l)) ++ rest)%list.
Proof.
  induction l as [|[k d] l [rest IH]]; simpl; [now exists []|].
  destruct (d_name d); simpl; [|eauto].
  destruct (render_private l) as [items e]. simpl in *.
  exists rest. now rewrite IH.
Qed.

Lemma render_shared_prefix (u : string) (l : store) :
  exists rest,
    keys l = (listed_ids (fst (render_shared u l)) ++ rest)%list.
Proof.
  induction l as [|[k d] l [rest IH]]; simpl; [now exists []|].
  destruct (d_name d); simpl; [|eauto].
  destruct (d_author d); simpl; [|eauto].
  destruct (render_shared u l) as [items e]. simpl in *.
  exists rest. now rewrite IH.
Qed.

Lemma listed_ids_app (l1 l2 : list list_item) :
  listed_ids (l1 ++ l2) = (listed_ids l1 ++ listed_ids l2)%list.
Proof. apply flat_map_app. Qed.

(** The identifiers shown are some of the private group followed by
    some of the shared group. *)
Lemma refresh_ids (saved : store) (u : string) :
  exists i1 r1 i2 r2,
    listed_ids (fst (refresh_recipe_list saved u)) = (i1 ++ i2)%list /\
    Permutation (i1 ++ r1) (keys (fst (classify u saved))) /\
    Permutation (i2 ++ r2) (keys (snd (classify u saved))).
Proof.
  assert (Hnone : forall p s : store,
    exists i1 r1 i2 r2 : list string,
      @nil string = (i1 ++ i2)%list /\
      Permutation (i1 ++ r1) (keys p) /\ Permutation (i2 ++ r2) (keys s)).
  { intros p s. exists [], (keys p), [], (keys s). simpl. auto. }
  unfold refresh_recipe_list.
  destruct (str_is_empty u); simpl; [apply Hnone|].
  destruct (classify u saved) as [p s]. simpl.
  destruct (sort_by_name p) as [p'|] eqn:Hp; simpl; [|apply Hnone].
  destruct (sort_by_name s) as [s'|] eqn:Hs; simpl; [|apply Hnone].
  apply sort_by_name_perm in Hp. apply sort_by_name_perm in Hs.
  apply (Permutation_map fst) in Hp. apply (Permutation_map fst) in Hs.
  fold (keys p') (keys p) in Hp. fold (keys s') (keys s) in Hs.
  destruct (render_private_prefix p') as [r1 H1].
  destruct (render_shared_prefix u s') as [r2 H2].
  rewrite H1 in Hp. rewrite H2 in Hs.
  destruct (render_private p') as [pi pe].
  destruct (render_shared u s') as [si se]. simpl in *.
  destruct p' as [|p0 p']; destruct s' as [|s0 s']; simpl;
    destruct pe; simpl; rewrite ?listed_ids_app; simpl.
  all: try (exists (listed_ids pi), r1, (listed_ids si), r2;
            split; [reflexivity|split; assumption]).
  all: try (exists (listed_ids pi), r1, [], (keys s);
            split; [now rewrite ?app_nil_r|split; [assumption|reflexivity]]).
  all: try (exists [], (keys p), (listed_ids si), r2;
            split; [reflexivity|split; [reflexivity|assumption]]).
  all: try (exists [], (keys p), [], (keys s);
            split; [reflexivity|split; reflexivity]).
Qed.

(** X3.  When no two recipes share an identifier, the list shows no
    recipe twice: the private and the shared group have nothing in
    common. *)
Theorem X3_listing_has_no_duplicates (saved : store) (u : string) :
  NoDup (keys saved) ->
  NoDup (listed_ids (fst (refresh_recipe_list saved u))).
Proof.
  intros Hnd. apply (classify_NoDup u) in Hnd.
  destruct (refresh_ids saved u) as [i1 [r1 [i2 [r2 [-> [Hp Hs]]]]]].
  assert (Hperm : Permutation ((i1 ++ i2) ++ (r1 ++ r2))
                    (keys (fst (classify u saved))
                       ++ keys (snd (classify u saved)))).
  { rewrite <- Hp, <- Hs. rewrite <- !app_assoc.
    apply Permutation_app_head. rewrite !app_assoc.
    apply Permutation_app_tail. apply Permutation_app_comm. }
  apply (Permutation_NoDup (Permutation_sym Hperm)) in Hnd.
  now apply NoDup_app_remove_r in Hnd.
Qed.

Lemma X3_witness :
  NoDup (listed_ids (fst (refresh_recipe_list sample_store "bob"))) /\
  listed_ids (fst (refresh_recipe_list sample_store "bob")) = ["r3"; "r1"].
Proof.
  split; [|reflexivity].
  apply (X3_listing_has_no_duplicates sample_store "bob").
  repeat constructor; simpl; intuition discriminate.
Defined.

(** ** The listing and records without an author *)

Lemma all_named_Forall (saved : store) :
  all_named saved = true <->
  Forall (fun kv => d_name (snd kv) <> None) saved.
Proof.
  unfold all_named. rewrite forallb_forall, Forall_forall.
  split; intros H kv Hin; specialize (H kv Hin);
    destruct (d_name (snd kv)); congruence.
Qed.

Lemma render_shared_raises (u : string) (l : store) :
  Forall (fun kv => d_name (snd kv) <> None) l ->
  Exists (fun kv => d_author (snd kv) = None) l ->
  snd (render_shared u l) = Some (KeyError "author").
Proof.
  induction 1 as [|[k d] l Hn Hl IH]; intros Hex;
    [inversion Hex|].
  simpl in *. destruct (d_name d); [|congruence]. simpl.
  destruct (d_author d) eqn:Ha; simpl; [|reflexivity].
  inversion Hex as [? ? Hd|? ? Hd]; subst; [simpl in Hd; congruence|].
  specialize (IH Hd). now destruct (render_shared u l).
Qed.

(** X4.  A shared recipe that has no [author] key breaks the listing
    for every operator: when all recipes have a name, the refresh ends
    in [KeyError('author')]. *)
Theorem X4_shared_without_author_raises (saved : store) (u r_id : string)
  (data : pydict) :
  u <> "" -> all_named saved = true -> In (r_id, data) saved ->
  get_or (d_shared data) false = true -> d_author data = None ->
  snd (refresh_recipe_list saved u) = Some (KeyError "author").
Proof.
  intros Hu Hnamed Hin Hsh Hau. unfold refresh_recipe_list.
  apply str_is_empty_false in Hu. rewrite Hu.
  apply all_named_Forall in Hnamed. rewrite Forall_forall in Hnamed.
  assert (Hwp : Forall (fun kv => d_name (snd kv) <> None)
                       (fst (classify u saved))).
  { apply Forall_forall. intros [k v] Hk. apply classify_private in Hk.
    apply Hnamed. tauto. }
  assert (Hws : Forall (fun kv => d_name (snd kv) <> None)
                       (snd (classify u saved))).
  { apply Forall_forall. intros [k v] Hk. apply classify_shared in Hk.
    apply Hnamed. tauto. }
  assert (Hmem : In (r_id, data) (snd (classify u saved))).
  { apply classify_shared. auto. }
  destruct (classify u saved) as [p s]. simpl in *.
  destruct (sort_by_name_total _ Hwp) as [p' Hp]. rewrite Hp.
  destruct (sort_by_name_total _ Hws) as [s' Hs]. rewrite Hs.
  apply sort_by_name_perm in Hp. apply sort_by_name_perm in Hs.
  assert (Hwp' : Forall (fun kv => d_name (snd kv) <> None) p').
  { rewrite Forall_forall in *. intros x Hx. apply Hwp.
    eapply Permutation_in; eauto. }
  assert (Hws' : Forall (fun kv => d_name (snd kv) <> None) s').
  { rewrite Forall_forall in *. intros x Hx. apply Hws.
    eapply Permutation_in; eauto. }
  assert (Hex : Exists (fun kv => d_author (snd kv) = None) s').
  { apply Exists_exists. exists (r_id, data). split; [|exact Hau].
    eapply Permutation_in; [apply Permutation_sym; exact Hs|exact Hmem]. }
  destruct (render_private_total _ Hwp') as [Hpe _].
  pose proof (render_shared_raises u s' Hws' Hex) as Hse.
  destruct (render_private p') as [pi pe].
  destruct (render_shared u s') as [si se]. simpl in *. subst pe se.
  destruct s' as [|s0 s']; [inversion Hex|].
  destruct p' as [|p0 p']; reflexivity.
Qed.

Lemma X4_witness :
  snd (refresh_recipe_list
         [("r1", etch);
          ("r7", mkDict None (Some "Old") (Some 100) (Some 5) (Some 10)
                        None (Some true))] "al")
  = Some (KeyError "author").
Proof.
  apply (X4_shared_without_author_raises _ "al" "r7"
           (mkDict None (Some "Old") (Some 100) (Some 5) (Some 10)
                   None (Some true))).
  - discriminate.
  - reflexivity.
  - simpl. auto.
  - reflexivity.
  - reflexivity.
Defined.

(** ** Saving and deleting, case by case *)

Lemma refresh_list (g : gui) (u : string) :
  recipe_list (snd (refresh g u))
  = fst (refresh_recipe_list (saved_recipes g) u).
Proof.
  unfold refresh. now destruct (refresh_recipe_list (saved_recipes g) u).
Qed.

Lemma after_refresh_Done (p : option exn * gui) :
  fst (after_refresh p) = Done <-> fst p = None.
Proof. destruct p as [[e|] g]; simpl; split; congruence. Qed.

(** Either [save_recipe] returns before touching anything, or it
    stores one record, writes the file, logs and refreshes. *)
Lemma save_recipe_cases (name user : string)
  (current_item : option list_item) (speed duration acceleration : Z)
  (shared : bool) (fresh : string) (g : gui) :
  let res := save_recipe name user current_item speed duration acceleration
                         shared fresh g in
  let rid := get_or (selected_recipe_id current_item) fresh in
  (snd res = g /\ fst res <> Done) \/
  (exists a,
     match dict_get rid (saved_recipes g) with
     | None => a = user
     | Some existing => d_author existing = Some a
     end /\
     user <> "" /\ name <> "" /\
     save_denied (saved_recipes g) (selected_recipe_id current_item) user
     = None /\
     saved_recipes (snd res)
     = dict_set rid (recipe name speed duration acceleration a shared)
                (saved_recipes g) /\
     recipes_json (snd res) = Some (saved_recipes (snd res)) /\
     history_csv (snd res)
     = (history_csv g ++ [(user, ("Saved: " ++ name)%string)])%list /\
     users (snd res) = users g /\ queue_list (snd res) = queue_list g /\
     users_json (snd res) = users_json g /\
     recipe_list (snd res)
     = fst (refresh_recipe_list (saved_recipes (snd res)) user) /\
     (fst res = Done <->
      snd (refresh_recipe_list (saved_recipes (snd res)) user) = None)).
Proof.
  intros res rid. subst res rid. unfold save_recipe.
  destruct (str_is_empty user) eqn:Hu; [left; split; [reflexivity|discriminate]|].
  destruct (str_is_empty name) eqn:Hn; [left; split; [reflexivity|discriminate]|].
  destruct (save_denied _ _ _) eqn:Hd; [left; split; [reflexivity|discriminate]|].
  apply str_is_empty_false in Hn.
  set (rid := get_or (selected_recipe_id current_item) fresh).
  assert (Hstep : forall a,
    let g1 := log_action user ("Saved: " ++ name)
                (dump_recipes
                   (with_recipes
                      (dict_set rid
                         (recipe name speed duration acceleration a shared)
                         (saved_recipes g)) g)) in
    saved_recipes (snd (after_refresh (refresh g1 user)))
    = dict_set rid (recipe name speed duration acceleration a shared)
               (saved_recipes g) /\
    recipes_json (snd (after_refresh (refresh g1 user)))
    = Some (saved_recipes (snd (after_refresh (refresh g1 user)))) /\
    history_csv (snd (after_refresh (refresh g1 user)))
    = (history_csv g ++ [(user, ("Saved: " ++ name)%string)])%list /\
    users (snd (after_refresh (refresh g1 user))) = users g /\
    queue_list (snd (after_refresh (refresh g1 user))) = queue_list g /\
    users_json (snd (after_refresh (refresh g1 user))) = users_json g /\
    recipe_list (snd (after_refresh (refresh g1 user)))
    = fst (refresh_recipe_list
             (saved_recipes (snd (after_refresh (refresh g1 user)))) user) /\
    (fst (after_refresh (refresh g1 user)) = Done <->
     snd (refresh_recipe_list
            (saved_recipes (snd (after_refresh (refresh g1 user)))) user)
     = None)).
  { intros a g1. rewrite after_refresh_snd, after_refresh_Done, refresh_list.
    destruct (refresh_frame g1 user)
      as [-> [-> [-> [-> [-> [-> ->]]]]]].
    subst g1. unfold log_action. rewrite Hu. simpl. repeat split; auto. }
  destruct (dict_get rid (saved_recipes g)) as [existing|] eqn:Hex.
  - destruct (d_author existing) as [a|] eqn:Ha; simpl.
    + right. exists a. split; [reflexivity|].
      split; [now apply str_is_empty_false|]. split; [exact Hn|].
      split; [reflexivity|]. apply Hstep.
    + left. split; [reflexivity|discriminate].
  - simpl. right. exists user. split; [reflexivity|].
    split; [now apply str_is_empty_false|]. split; [exact Hn|].
    split; [reflexivity|]. apply Hstep.
Qed.

Lemma delete_recipe_cases (current_item : option list_item) (user : string)
  (g : gui) :
  let res := delete_recipe current_item user g in
  (snd res = g /\ fst res <> Done) \/
  (exists item r_id data n,
     current_item = Some item /\ role item = Some r_id /\ r_id <> "" /\
     dict_get r_id (saved_recipes g) = Some data /\ d_name data = Some n /\
     authorized user data /\
     saved_recipes (snd res) = dict_del r_id (saved_recipes g) /\
     recipes_json (snd res) = Some (saved_recipes (snd res)) /\
     history_csv (snd res)
     = (history_csv g
          ++ [(if str_is_empty user then "Unknown" else user,
               ("Deleted: " ++ n)%string)])%list /\
     users (snd res) = users g /\ queue_list (snd res) = queue_list g /\
     users_json (snd res) = users_json g /\
     recipe_list (snd res)
     = fst (refresh_recipe_list (saved_recipes (snd res)) user) /\
     (fst res = Done <->
      snd (refresh_recipe_list (saved_recipes (snd res)) user) = None)).
Proof.
  intros res. subst res. unfold delete_recipe.
  destruct current_item as [item|]; [|left; split; [reflexivity|discriminate]].
  destruct (role item) as [r_id|] eqn:Hrole;
    [|left; split; [reflexivity|discriminate]].
  destruct (str_is_empty r_id) eqn:Hid;
    [left; split; [reflexivity|discriminate]|].
  destruct (dict_get r_id (saved_recipes g)) as [data|] eqn:Hg;
    [|left; split; [reflexivity|discriminate]].
  destruct (dict_is_empty data); [left; split; [reflexivity|discriminate]|].
  destruct (differs (d_author data) user
            && negb (get_or (d_shared data) false)) eqn:Hdeny;
    [left; split; [reflexivity|discriminate]|].
  destruct (d_name data) as [n|] eqn:Hn; simpl;
    [|left; split; [reflexivity|discriminate]].
  right. exists item, r_id, data, n.
  split; [reflexivity|]. split; [exact Hrole|].
  split; [now apply str_is_empty_false|]. split; [exact Hg|].
  split; [exact Hn|]. split.
  { apply andb_false_iff in Hdeny. destruct Hdeny as [Hd|Hs].
    - left. now apply differs_false.
    - right. now apply negb_false_iff in Hs. }
  rewrite after_refresh_snd, after_refresh_Done, refresh_list.
  match goal with
  | |- context [refresh ?g1 ?u] =>
      destruct (refresh_frame g1 u) as [-> [-> [-> [-> [-> [-> ->]]]]]]
  end.
  simpl. repeat split; auto.
Qed.

Lemma dict_get_del_neq (k k' : string) (d : store) :
  k <> k' -> dict_get k (dict_del k' d) = dict_get k d.
Proof.
  intros Hne. induction d as [|[k0 v0] d IH]; simpl; [reflexivity|].
  destruct (String.eqb_spec k' k0) as [->|Hne']; simpl.
  - destruct (String.eqb_spec k k0); [contradiction|reflexivity].
  - destruct (String.eqb_spec k k0); [reflexivity|exact IH].
Qed.

Lemma dict_del_snoc (k : string) (v : pydict) (d : store) :
  ~ In k (keys d) -> dict_del k (d ++ [(k, v)])%list = d.
Proof.
  induction d as [|[k0 v0] d IH]; simpl; intros Hn.
  - now rewrite String.eqb_refl.
  - destruct (String.eqb_spec k k0) as [->|Hne]; [tauto|].
    f_equal. apply IH. tauto.
Qed.

Lemma dict_get_snoc (k : string) (v : pydict) (d : store) :
  ~ In k (keys d) -> dict_get k (d ++ [(k, v)])%list = Some v.
Proof.
  induction d as [|[k0 v0] d IH]; simpl; intros Hn.
  - now rewrite String.eqb_refl.
  - destruct (String.eqb_spec k k0) as [->|Hne]; [tauto|].
    apply IH. tauto.
Qed.

Lemma dict_get_None (k : string) (d : store) :
  ~ In k (keys d) -> dict_get k d = None.
Proof.
  intros Hn. destruct (dict_get k d) as [v|] eqn:Hg; [|reflexivity].
  exfalso. apply Hn, In_keys. exists v. now apply dict_get_In.
Qed.

Lemma render_private_done (l : store) :
  snd (render_private l) = None ->
  map role (fst (render_private l)) = map (@Some string) (keys l).
Proof.
  induction l as [|[k d] l IH]; simpl; [reflexivity|].
  destruct (d_name d); simpl; [|discriminate].
  destruct (render_private l) as [items e]. simpl in *.
  intros He. now rewrite IH.
Qed.

Lemma render_shared_done (u : string) (l : store) :
  snd (render_shared u l) = None ->
  map role (fst (render_shared u l)) = map (@Some string) (keys l).
Proof.
  induction l as [|[k d] l IH]; simpl; [reflexivity|].
  destruct (d_name d); simpl; [|discriminate].
  destruct (d_author d); simpl; [|discriminate].
  destruct (render_shared u l) as [items e]. simpl in *.
  intros He. now rewrite IH.
Qed.

(** A refresh that did not raise shows everything the classification
    loop kept. *)
Lemma listed_when_done (saved : store) (u r_id : string) :
  u <> "" -> snd (refresh_recipe_list saved u) = None ->
  In r_id (keys (fst (classify u saved))) \/
  In r_id (keys (snd (classify u saved))) ->
  listed r_id (fst (refresh_recipe_list saved u)).
Proof.
  intros Hu. unfold listed, refresh_recipe_list.
  apply str_is_empty_false in Hu. rewrite Hu.
  destruct (classify u saved) as [p s]. simpl.
  destruct (sort_by_name p) as [p'|] eqn:Hp; simpl; [|discriminate].
  destruct (sort_by_name s) as [s'|] eqn:Hs; simpl; [|discriminate].
  apply sort_by_name_perm in Hp. apply sort_by_name_perm in Hs.
  pose proof (keys_perm _ _ Hp r_id) as Hkp.
  pose proof (keys_perm _ _ Hs r_id) as Hks.
  rewrite <- In_Some_keys in Hkp. rewrite <- In_Some_keys in Hks.
  pose proof (render_private_done p') as Hpr.
  pose proof (render_shared_done u s') as Hsr.
  destruct (render_private p') as [pi pe].
  destruct (render_shared u s') as [si se]. simpl in *.
  destruct p' as [|p0 p']; destruct s' as [|s0 s']; simpl;
    destruct pe; simpl; try discriminate; intros He;
    try specialize (Hpr eq_refl); try specialize (Hsr He);
    rewrite ?map_app; simpl; rewrite ?Hpr, ?Hsr;
    rewrite ?in_app_iff; simpl; simpl in Hkp, Hks; intuition.
Qed.

(** X5.  Saving with nothing selected (or with a header selected), when
    the generated identifier is new, appends one recipe under that
    identifier with the operator as author, writes the file, adds the
    row "Saved: name" to the history, leaves users and queue alone, and,
    unless the refresh raised, shows the new recipe in the list. *)
Theorem X5_save_creates_new_recipe (name user : string)
  (current_item : option list_item) (speed duration acceleration : Z)
  (shared : bool) (fresh : string) (g : gui) :
  user <> "" -> name <> "" -> selected_recipe_id current_item = None ->
  ~ In fresh (keys (saved_recipes g)) ->
  let res := save_recipe name user current_item speed duration acceleration
                         shared fresh g in
  saved_recipes (snd res)
  = (saved_recipes g
       ++ [(fresh, recipe name speed duration acceleration user shared)])%list
  /\ recipes_json (snd res) = Some (saved_recipes (snd res))
  /\ history_csv (snd res)
     = (history_csv g ++ [(user, ("Saved: " ++ name)%string)])%list
  /\ users (snd res) = users g /\ queue_list (snd res) = queue_list g
  /\ (fst res = Done -> listed fresh (recipe_list (snd res))).
Proof.
  intros Hu Hn Hsel Hfresh res.
  destruct (save_recipe_cases name user current_item speed duration
              acceleration shared fresh g)
    as [[Hsame Hnd]|[a [Ha [_ [_ [_ [Hs [Hj [Hh [Hus [Hq [_ [Hl Hd]]]]]]]]]]]]].
  - exfalso. revert Hnd. unfold save_recipe.
    apply str_is_empty_false in Hu, Hn. rewrite Hu, Hn, Hsel. simpl.
    rewrite (dict_get_None _ _ Hfresh). simpl.
    intros _. revert Hsame. unfold save_recipe. rewrite Hu, Hn, Hsel. simpl.
    rewrite (dict_get_None _ _ Hfresh). simpl. rewrite after_refresh_snd.
    match goal with
    | |- context [refresh ?g1 ?u] =>
        destruct (refresh_frame g1 u) as [_ [_ [_ [_ [_ [Hh _]]]]]]
    end.
    intros Heq. rewrite Heq in Hh. unfold log_action in Hh. simpl in Hh.
    apply (f_equal (@length _)) in Hh. rewrite length_app in Hh.
    simpl in Hh. lia.
  - rewrite Hsel in Ha, Hs. simpl in Ha, Hs.
    rewrite (dict_get_None _ _ Hfresh) in Ha. subst a.
    rewrite dict_set_fresh in Hs by exact Hfresh.
    fold res in Hs, Hj, Hh, Hus, Hq, Hl, Hd.
    repeat (split; [assumption|]).
    intros Hdone. rewrite Hl. apply listed_when_done; [exact Hu|now apply Hd|].
    rewrite Hs, !In_keys.
    destruct shared.
    + right. exists (recipe name speed duration acceleration user true).
      apply classify_shared. split; [|reflexivity].
      apply in_or_app. right. left. reflexivity.
    + left. exists (recipe name speed duration acceleration user false).
      apply classify_private.
      split; [apply in_or_app; right; left; reflexivity|].
      split; reflexivity.
Qed.

Lemma X5_witness :
  let res := save_recipe "Bake" "al" None 1500 60 200 false "r4" sample_gui in
  saved_recipes (snd res)
  = (sample_store ++ [("r4", recipe "Bake" 1500 60 200 "al" false)])%list /\
  listed "r4" (recipe_list (snd res)).
Proof.
  destruct (X5_save_creates_new_recipe "Bake" "al" None 1500 60 200 false
              "r4" sample_gui)
    as [Hs [_ [_ [_ [_ Hl]]]]].
  - discriminate.
  - discriminate.
  - reflexivity.
  - simpl. intuition discriminate.
  - split; [exact Hs|]. apply Hl. reflexivity.
Defined.

(** X6.  An update of an existing recipe is refused with the
    "Permission Denied" warning exactly when the operator is neither its
    author nor is it shared; the warning names the recipe and its
    author, and nothing at all is changed. *)
Theorem X6_save_refused_iff_unauthorized (name user : string)
  (current_item : option list_item) (speed duration acceleration : Z)
  (shared : bool) (fresh : string) (g : gui) (r_id : string)
  (old : pydict) :
  user <> "" -> name <> "" ->
  selected_recipe_id current_item = Some r_id ->
  dict_get r_id (saved_recipes g) = Some old ->
  let res := save_recipe name user current_item speed duration acceleration
                         shared fresh g in
  ((exists body, fst res = Warned "Permission Denied" body)
   <-> ~ authorized user old) /\
  (~ authorized user old ->
   res = (Warned "Permission Denied"
            ("You cannot modify '" ++ name ++ "' because it belongs to "
               ++ str_of_author (d_author old) ++ " and is not shared."),
          g)).
Proof.
  intros Hu Hn Hsel Hold res. subst res. unfold save_recipe.
  apply str_is_empty_false in Hu, Hn. rewrite Hu, Hn, Hsel.
  pose proof (save_denied_None _ _ user _ Hold) as Hauth.
  unfold save_denied in *. rewrite Hold in *.
  destruct (differs (d_author old) user
            && negb (get_or (d_shared old) false)).
  - assert (Hno : ~ authorized user old).
    { intros H. apply Hauth in H. discriminate. }
    split; [split; [intros _; exact Hno|intros _; simpl; eauto]|].
    intros _. reflexivity.
  - assert (Hyes : authorized user old) by now apply Hauth.
    split; [|intros H; contradiction].
    split; [|intros H; contradiction].
    intros [body Hb]. exfalso. revert Hb. simpl. rewrite Hold.
    destruct (d_author old); simpl; [|discriminate].
    match goal with
    | |- context [after_refresh ?p] => destruct p as [[e|] g']
    end; discriminate.
Qed.

Lemma X6_witness :
  save_recipe "Rinse" "al" (Some rinse_item) 700 10 50 false "r4" sample_gui
  = (Warned "Permission Denied"
       "You cannot modify 'Rinse' because it belongs to bob and is not shared.",
     sample_gui).
Proof.
  apply (X6_save_refused_iff_unauthorized "Rinse" "al" (Some rinse_item)
           700 10 50 false "r4" sample_gui "r3" rinse).
  - discriminate.
  - discriminate.
  - reflexivity.
  - reflexivity.
  - intros [H|H]; discriminate.
Defined.

(** X7.  A save touches at most the recipe under the identifier it
    saves to (the selected one, else the generated one), and a delete
    at most the recipe of the selected item; all other recipes, the
    users and the queue stay as they are. *)
Theorem X7_save_and_delete_touch_one_recipe (name user : string)
  (current_item : option list_item) (speed duration acceleration : Z)
  (shared : bool) (fresh : string) (g : gui) :
  let saved := snd (save_recipe name user current_item speed duration
                                acceleration shared fresh g) in
  let deleted := snd (delete_recipe current_item user g) in
  (forall k, k <> get_or (selected_recipe_id current_item) fresh ->
             dict_get k (saved_recipes saved) = dict_get k (saved_recipes g))
  /\ (forall k, (forall item, current_item = Some item ->
                              role item <> Some k) ->
                dict_get k (saved_recipes deleted)
                = dict_get k (saved_recipes g))
  /\ users saved = users g /\ queue_list saved = queue_list g
  /\ users deleted = users g /\ queue_list deleted = queue_list g.
Proof.
  intros saved deleted. subst saved deleted.
  assert (Hsave :
    (forall k, k <> get_or (selected_recipe_id current_item) fresh ->
       dict_get k (saved_recipes
                     (snd (save_recipe name user current_item speed duration
                                       acceleration shared fresh g)))
       = dict_get k (saved_recipes g)) /\
    users (snd (save_recipe name user current_item speed duration
                            acceleration shared fresh g)) = users g /\
    queue_list (snd (save_recipe name user current_item speed duration
                                 acceleration shared fresh g))
    = queue_list g).
  { destruct (save_recipe_cases name user current_item speed duration
                acceleration shared fresh g) as [[Hsame _]|[a Hcase]].
    - rewrite Hsame. auto.
    - destruct Hcase as [_ [_ [_ [_ [Hs [_ [_ [Hus [Hq _]]]]]]]]].
      split; [|split; assumption].
      intros k Hk. rewrite Hs. now apply dict_get_set_neq. }
  assert (Hdel :
    (forall k, (forall item, current_item = Some item ->
                             role item <> Some k) ->
       dict_get k (saved_recipes (snd (delete_recipe current_item user g)))
       = dict_get k (saved_recipes g)) /\
    users (snd (delete_recipe current_item user g)) = users g /\
    queue_list (snd (delete_recipe current_item user g)) = queue_list g).
  { destruct (delete_recipe_cases current_item user g)
      as [[Hsame _]|[item [r_id [data [n Hcase]]]]].
    - rewrite Hsame. auto.
    - destruct Hcase as [Hci [Hrole [_ [_ [_ [_ [Hd [_ [_ [Hud [Hqd _]]]]]]]]]]].
      split; [|split; assumption].
      intros k Hk. rewrite Hd. apply dict_get_del_neq. intros ->.
      apply (Hk item Hci). exact Hrole. }
  tauto.
Qed.

Lemma X7_witness :
  dict_get "r2"
    (saved_recipes (snd (save_recipe "Etch" "bob" (Some etch_item)
                                     3500 30 500 true "r4" sample_gui)))
  = dict_get "r2" sample_store /\
  dict_get "r2"
    (saved_recipes (snd (delete_recipe (Some etch_item) "bob" sample_gui)))
  = dict_get "r2" sample_store.
Proof.
  pose proof (X7_save_and_delete_touch_one_recipe "Etch" "bob"
                (Some etch_item) 3500 30 500 true "r4" sample_gui) as H.
  cbv zeta in H. destruct H as [Hsave [Hdelete _]]. split.
  - apply Hsave. discriminate.
  - apply Hdelete. intros item Hitem. inversion Hitem; subst. discriminate.
Defined.

Lemma selected_recipe_id_Some (current_item : option list_item)
  (r_id : string) :
  selected_recipe_id current_item = Some r_id ->
  r_id <> "" /\ exists item, current_item = Some item /\ role item = Some r_id.
Proof.
  unfold selected_recipe_id. destruct current_item as [item|]; [|discriminate].
  destruct (negb _); [|discriminate].
  destruct (role item) as [s|] eqn:Hrole; [|discriminate].
  destruct (str_is_empty s) eqn:He; [discriminate|].
  intros H. inversion H; subst. split; [now apply str_is_empty_false|].
  exists item. split; [reflexivity|exact Hrole].
Qed.

(** X8.  Creating a recipe and deleting it again, as the same operator,
    gives back the recipes there were, in memory and in the file. *)
Theorem X8_save_then_delete_restores (name user : string)
  (current_item : option list_item) (speed duration acceleration : Z)
  (shared : bool) (fresh : string) (g : gui) (new_item : list_item) :
  user <> "" -> name <> "" -> selected_recipe_id current_item = None ->
  fresh <> "" -> ~ In fresh (keys (saved_recipes g)) ->
  role new_item = Some fresh ->
  let g1 := snd (save_recipe name user current_item speed duration
                             acceleration shared fresh g) in
  let g2 := snd (delete_recipe (Some new_item) user g1) in
  saved_recipes g2 = saved_recipes g /\
  recipes_json g2 = Some (saved_recipes g) /\
  history_csv g2
  = (history_csv g ++ [(user, ("Saved: " ++ name)%string);
                       (user, ("Deleted: " ++ name)%string)])%list.
Proof.
  intros Hu Hn Hsel Hf Hfresh Hrole g1 g2. subst g2 g1.
  destruct (save_recipe_cases name user current_item speed duration
              acceleration shared fresh g)
    as [[Hsame Hnd]|[a [Ha [_ [_ [_ [Hs [Hj [Hh _]]]]]]]]].
  { exfalso. revert Hsame. unfold save_recipe.
    apply str_is_empty_false in Hu, Hn. rewrite Hu, Hn, Hsel. simpl.
    rewrite (dict_get_None _ _ Hfresh). simpl. rewrite after_refresh_snd.
    match goal with
    | |- context [refresh ?g1 ?u] =>
        destruct (refresh_frame g1 u) as [_ [_ [_ [_ [_ [Hh _]]]]]]
    end.
    intros Heq. rewrite Heq in Hh. unfold log_action in Hh. simpl in Hh.
    apply (f_equal (@length _)) in Hh. rewrite length_app in Hh.
    simpl in Hh. lia. }
  rewrite Hsel in Ha, Hs. simpl in Ha, Hs.
  rewrite (dict_get_None _ _ Hfresh) in Ha. subst a.
  rewrite dict_set_fresh in Hs by exact Hfresh.
  unfold delete_recipe. rewrite Hrole.
  apply str_is_empty_false in Hf. rewrite Hf, Hs.
  rewrite (dict_get_snoc _ _ _ Hfresh). simpl.
  rewrite String.eqb_refl. simpl. rewrite after_refresh_snd.
  match goal with
  | |- context [refresh ?g3 ?u] =>
      destruct (refresh_frame g3 u) as [-> [_ [_ [-> [_ [-> _]]]]]]
  end.
  simpl. rewrite (dict_del_snoc _ _ _ Hfresh), Hh.
  apply str_is_empty_false in Hu. rewrite Hu. rewrite <- app_assoc.
  repeat split.
Qed.

Lemma X8_witness :
  let g1 := snd (save_recipe "Bake" "al" None 1500 60 200 false "r4"
                             sample_gui) in
  let g2 := snd (delete_recipe (Some (mkItem "Bake" (Some "r4"))) "al" g1) in
  saved_recipes g2 = sample_store /\ recipes_json g2 = Some sample_store.
Proof.
  destruct (X8_save_then_delete_restores "Bake" "al" None 1500 60 200 false
              "r4" sample_gui (mkItem "Bake" (Some "r4")))
    as [H1 [H2 _]].
  - discriminate.
  - discriminate.
  - reflexivity.
  - discriminate.
  - simpl. intuition discriminate.
  - reflexivity.
  - split; assumption.
Defined.

(** An update that is let through stores the new record under the same
    identifier, with the author it had. *)
Lemma save_update_state (name user : string)
  (current_item : option list_item) (speed duration acceleration : Z)
  (shared : bool) (fresh : string) (g : gui) (r_id : string)
  (old : pydict) (a : string) :
  user <> "" -> name <> "" ->
  selected_recipe_id current_item = Some r_id ->
  dict_get r_id (saved_recipes g) = Some old ->
  authorized user old -> d_author old = Some a ->
  let res := save_recipe name user current_item speed duration acceleration
                         shared fresh g in
  saved_recipes (snd res)
  = dict_set r_id (recipe name speed duration acceleration a shared)
             (saved_recipes g) /\
  recipe_list (snd res)
  = fst (refresh_recipe_list (saved_recipes (snd res)) user).
Proof.
  intros Hu Hn Hsel Hold Hauth Ha res. subst res. unfold save_recipe.
  apply str_is_empty_false in Hu, Hn. rewrite Hu, Hn, Hsel.
  apply (save_denied_None _ _ _ _ Hold) in Hauth. rewrite Hauth.
  simpl. rewrite Hold, Ha. simpl.
  rewrite after_refresh_snd, refresh_list.
  match goal with
  | |- context [refresh ?g1 ?u] => destruct (refresh_frame g1 u) as [-> _]
  end.
  split; reflexivity.
Qed.

(** X9.  An operator who updates somebody else's shared recipe with
    "shared" unticked gives the recipe back to its author alone: it is
    stored unshared under the same author, it is gone from the
    operator's list, and the operator's next update or delete of it is
    refused. *)
Theorem X9_unsharing_locks_out_the_editor (name user : string)
  (current_item : option list_item) (speed duration acceleration : Z)
  (fresh : string) (g : gui) (r_id : string) (old : pydict) (a : string) :
  user <> "" -> name <> "" ->
  selected_recipe_id current_item = Some r_id ->
  dict_get r_id (saved_recipes g) = Some old ->
  d_author old = Some a -> a <> user ->
  get_or (d_shared old) false = true ->
  NoDup (keys (saved_recipes g)) ->
  let g1 := snd (save_recipe name user current_item speed duration
                             acceleration false fresh g) in
  dict_get r_id (saved_recipes g1)
  = Some (recipe name speed duration acceleration a false) /\
  ~ listed r_id (recipe_list g1) /\
  (forall item,
     role item = Some r_id ->
     fst (delete_recipe (Some item) user g1)
     = Warned "Permission Denied"
         "You cannot delete this recipe. It belongs to another user.") /\
  (forall name2 item speed2 duration2 acceleration2 shared2 fresh2,
     name2 <> "" -> selected_recipe_id (Some item) = Some r_id ->
     exists body,
       fst (save_recipe name2 user (Some item) speed2 duration2
                        acceleration2 shared2 fresh2 g1)
       = Warned "Permission Denied" body).
Proof.
  intros Hu Hn Hsel Hold Ha Hne Hsh Hnd g1. subst g1.
  destruct (save_update_state name user current_item speed duration
              acceleration false fresh g r_id old a Hu Hn Hsel Hold
              (or_intror Hsh) Ha) as [Hs Hl].
  assert (Hget :
    dict_get r_id
      (saved_recipes
         (snd (save_recipe name user current_item speed duration
                           acceleration false fresh g)))
    = Some (recipe name speed duration acceleration a false)).
  { rewrite Hs. apply dict_get_set_eq. }
  assert (Hdiff : differs (Some a) user = true).
  { simpl. apply negb_true_iff. now apply String.eqb_neq. }
  split; [exact Hget|]. split; [|split].
  - rewrite Hl. intros Hlisted. apply listed_sound in Hlisted.
    rewrite !In_keys in Hlisted.
    assert (Hnd' :
      NoDup (keys (saved_recipes
                     (snd (save_recipe name user current_item speed duration
                                       acceleration false fresh g))))).
    { rewrite Hs. now apply dict_set_NoDup. }
    apply dict_get_In in Hget.
    destruct Hlisted as [[d Hd]|[d Hd]].
    + apply classify_private in Hd. destruct Hd as [Hd [_ Hau]].
      rewrite <- (NoDup_keys_functional _ _ _ _ Hnd' Hget Hd) in Hau.
      simpl in Hau. contradiction.
    + apply classify_shared in Hd. destruct Hd as [Hd Hs'].
      rewrite <- (NoDup_keys_functional _ _ _ _ Hnd' Hget Hd) in Hs'.
      discriminate.
  - intros item Hrole. unfold delete_recipe. rewrite Hrole.
    destruct (selected_recipe_id_Some _ _ Hsel) as [Hid _].
    apply str_is_empty_false in Hid. rewrite Hid, Hget. simpl.
    simpl in Hdiff. now rewrite Hdiff.
  - intros name2 item speed2 duration2 acceleration2 shared2 fresh2 Hn2 Hsel2.
    unfold save_recipe at 1.
    apply str_is_empty_false in Hu, Hn2. rewrite Hu, Hn2, Hsel2.
    unfold save_denied. rewrite Hget. simpl. simpl in Hdiff.
    rewrite Hdiff. simpl. eauto.
Qed.

Lemma X9_witness :
  let g1 := snd (save_recipe "Etch" "al" (Some etch_item) 3000 30 500 false
                             "r4" sample_gui) in
  ~ listed "r1" (recipe_list g1) /\
  fst (delete_recipe (Some etch_item) "al" g1)
  = Warned "Permission Denied"
      "You cannot delete this recipe. It belongs to another user.".
Proof.
  destruct (X9_unsharing_locks_out_the_editor "Etch" "al" (Some etch_item)
              3000 30 500 "r4" sample_gui "r1" etch "bob")
    as [_ [Hl [Hd _]]].
  - discriminate.
  - discriminate.
  - reflexivity.
  - reflexivity.
  - reflexivity.
  - discriminate.
  - reflexivity.
  - repeat constructor; simpl; intuition discriminate.
  - split; [exact Hl|]. apply Hd. reflexivity.
Defined.

(** ** Names, and the file read back *)

Lemma all_named_set (k : string) (v : pydict) (d : store) :
  all_named d = true -> d_name v <> None -> all_named (dict_set k v d) = true.
Proof.
  unfold all_named. intros Hd Hv.
  induction d as [|[k' v'] d IH]; simpl in *.
  - destruct (d_name v); [reflexivity|congruence].
  - apply andb_prop in Hd. destruct Hd as [H1 H2].
    destruct (String.eqb k k'); simpl.
    + destruct (d_name v); [exact H2|congruence].
    + now rewrite H1, IH.
Qed.

Lemma all_named_del (k : string) (d : store) :
  all_named d = true -> all_named (dict_del k d) = true.
Proof.
  unfold all_named. induction d as [|[k' v'] d IH]; simpl; [auto|].
  intros Hd. apply andb_prop in Hd. destruct Hd as [H1 H2].
  destruct (String.eqb k k'); simpl; [exact H2|]. now rewrite H1, IH.
Qed.

Lemma migrate_all_named (uuid4 : nat -> string) (raw_data : store) :
  forall n saved,
    all_named saved = true ->
    all_named (migrate uuid4 n raw_data saved) = true.
Proof.
  induction raw_data as [|[key val] rest IH]; intros n saved Hs; simpl;
    [exact Hs|].
  destruct (d_name val) eqn:Hn; apply IH; apply all_named_set;
    try exact Hs; simpl; congruence.
Qed.

Lemma save_recipe_all_named (name user : string)
  (current_item : option list_item) (speed duration acceleration : Z)
  (shared : bool) (fresh : string) (g : gui) :
  all_named (saved_recipes g) = true ->
  all_named (saved_recipes
               (snd (save_recipe name user current_item speed duration
                                 acceleration shared fresh g))) = true.
Proof.
  intros Hg.
  destruct (save_recipe_cases name user current_item speed duration
              acceleration shared fresh g) as [[-> _]|[a Hcase]];
    [exact Hg|].
  destruct Hcase as [_ [_ [_ [_ [-> _]]]]].
  apply all_named_set; [exact Hg|discriminate].
Qed.

Lemma delete_recipe_all_named (current_item : option list_item)
  (user : string) (g : gui) :
  all_named (saved_recipes g) = true ->
  all_named (saved_recipes (snd (delete_recipe current_item user g))) = true.
Proof.
  intros Hg.
  destruct (delete_recipe_cases current_item user g)
    as [[-> _]|[item [r_id [data [n Hcase]]]]]; [exact Hg|].
  destruct Hcase as [_ [_ [_ [_ [_ [_ [-> _]]]]]]].
  now apply all_named_del.
Qed.

Lemma find_by_name_total (clean_name : string) (saved : store) :
  all_named saved = true ->
  exists found, find_by_name clean_name saved = Ok found.
Proof.
  unfold all_named. induction saved as [|[k d] saved IH]; simpl; [eauto|].
  intros H. apply andb_prop in H. destruct H as [H1 H2].
  destruct (d_name d) as [n|]; [|discriminate]. simpl.
  destruct (String.eqb n clean_name); eauto.
Qed.

Lemma render_shared_error (u : string) (l : store) (e : exn) :
  Forall (fun kv => d_name (snd kv) <> None) l ->
  snd (render_shared u l) = Some e -> e = KeyError "author".
Proof.
  induction 1 as [|[k d] l Hn Hl IH]; simpl; [discriminate|].
  simpl in Hn. destruct (d_name d); [|congruence]. simpl.
  destruct (d_author d); simpl; [|congruence].
  destruct (render_shared u l) as [items e']. simpl in *. exact IH.
Qed.

Lemma refresh_error_named (saved : store) (u : string) (e : exn) :
  all_named saved = true ->
  snd (refresh_recipe_list saved u) = Some e -> e = KeyError "author".
Proof.
  intros Hnamed. unfold refresh_recipe_list.
  destruct (str_is_empty u); simpl; [discriminate|].
  apply all_named_Forall in Hnamed. rewrite Forall_forall in Hnamed.
  assert (Hwp : Forall (fun kv => d_name (snd kv) <> None)
                       (fst (classify u saved))).
  { apply Forall_forall. intros [k v] Hk. apply classify_private in Hk.
    apply Hnamed. tauto. }
  assert (Hws : Forall (fun kv => d_name (snd kv) <> None)
                       (snd (classify u saved))).
  { apply Forall_forall. intros [k v] Hk. apply classify_shared in Hk.
    apply Hnamed. tauto. }
  destruct (classify u saved) as [p s]. simpl in *.
  destruct (sort_by_name_total _ Hwp) as [p' Hp]. rewrite Hp.
  destruct (sort_by_name_total _ Hws) as [s' Hs]. rewrite Hs.
  apply sort_by_name_perm in Hp. apply sort_by_name_perm in Hs.
  assert (Hwp' : Forall (fun kv => d_name (snd kv) <> None) p').
  { rewrite Forall_forall in *. intros x Hx. apply Hwp.
    eapply Permutation_in; eauto. }
  assert (Hws' : Forall (fun kv => d_name (snd kv) <> None) s').
  { rewrite Forall_forall in *. intros x Hx. apply Hws.
    eapply Permutation_in; eauto. }
  destruct (render_private_total _ Hwp') as [Hpe _].
  pose proof (render_shared_error u s' e Hws') as Hse.
  destruct (render_private p') as [pi pe].
  destruct (render_shared u s') as [si se]. simpl in *. subst pe.
  destruct p' as [|p0 p']; destruct s' as [|s0 s']; simpl;
    try discriminate; exact Hse.
Qed.

(** X10.  Loading gives every recipe a name, and saving and deleting keep
    it so; and in a store where every recipe has a name, the search by
    name of [start_process] never raises and the only exception the
    refresh of the list can end in is [KeyError('author')]. *)
Theorem X10_every_recipe_keeps_a_name :
  (forall uuid4 u g raw_data,
     recipes_json g = Some raw_data ->
     all_named (saved_recipes (snd (load_data uuid4 u g))) = true) /\
  (forall name user current_item speed duration acceleration shared fresh g,
     all_named (saved_recipes g) = true ->
     all_named (saved_recipes
                  (snd (save_recipe name user current_item speed duration
                                    acceleration shared fresh g))) = true) /\
  (forall current_item user g,
     all_named (saved_recipes g) = true ->
     all_named (saved_recipes (snd (delete_recipe current_item user g)))
     = true) /\
  (forall saved,
     all_named saved = true ->
     (forall clean_name, exists found,
         find_by_name clean_name saved = Ok found) /\
     (forall u e, snd (refresh_recipe_list saved u) = Some e ->
                  e = KeyError "author")).
Proof.
  split; [|split; [|split]].
  - intros uuid4 u g raw_data Hfile. unfold load_data. rewrite Hfile.
    match goal with
    | |- context [refresh ?g1 ?u1] =>
        destruct (refresh_frame g1 u1) as [-> _]
    end.
    simpl. now apply migrate_all_named.
  - intros. now apply save_recipe_all_named.
  - intros. now apply delete_recipe_all_named.
  - intros saved Hnamed. split.
    + intros clean_name. now apply find_by_name_total.
    + intros u e. now apply refresh_error_named.
Qed.

Lemma X10_witness :
  all_named (saved_recipes (snd (load_data sample_uuid4 "al" legacy_gui)))
  = true /\
  exists found,
    find_by_name "Soak"
      (saved_recipes (snd (load_data sample_uuid4 "al" legacy_gui)))
    = Ok found.
Proof.
  destruct X10_every_recipe_keeps_a_name as [Hload [_ [_ Huse]]].
  split.
  - apply (Hload sample_uuid4 "al" legacy_gui legacy_file). reflexivity.
  - apply Huse.
    apply (Hload sample_uuid4 "al" legacy_gui legacy_file). reflexivity.
Defined.

Lemma migrated_named_id (uuid4 : nat -> string) (saved : store) :
  all_named saved = true -> forall n, migrated uuid4 n saved = saved.
Proof.
  unfold all_named. induction saved as [|[k d] saved IH]; simpl; [auto|].
  intros H n. apply andb_prop in H. destruct H as [H1 H2].
  destruct (d_name d); [|discriminate]. now rewrite IH.
Qed.

Lemma load_data_identity (uuid4 : nat -> string) (u : string) (g : gui) :
  all_named (saved_recipes g) = true -> NoDup (keys (saved_recipes g)) ->
  recipes_json g = Some (saved_recipes g) ->
  saved_recipes (snd (load_data uuid4 u g)) = saved_recipes g.
Proof.
  intros Hn Hnd Hfile. unfold load_data. rewrite Hfile.
  match goal with
  | |- context [refresh ?g1 ?u1] => destruct (refresh_frame g1 u1) as [-> _]
  end.
  simpl. rewrite migrate_migrated; rewrite migrated_named_id by exact Hn;
    [reflexivity|exact Hnd].
Qed.

(** X11.  What a save or a delete leaves in [recipes.json] loads back
    to exactly the recipes in memory, in the same order and without
    generating any identifier: provided the file matched the memory
    before, every recipe had a name and no two shared an identifier. *)
Theorem X11_written_file_loads_back (uuid4 : nat -> string) (u : string)
  (name user : string) (current_item : option list_item)
  (speed duration acceleration : Z) (shared : bool) (fresh : string)
  (g : gui) :
  all_named (saved_recipes g) = true -> NoDup (keys (saved_recipes g)) ->
  recipes_json g = Some (saved_recipes g) ->
  let g1 := snd (save_recipe name user current_item speed duration
                             acceleration shared fresh g) in
  let g2 := snd (delete_recipe current_item user g) in
  saved_recipes (snd (load_data uuid4 u g1)) = saved_recipes g1 /\
  saved_recipes (snd (load_data uuid4 u g2)) = saved_recipes g2.
Proof.
  intros Hn Hnd Hfile g1 g2. subst g1 g2. split.
  - apply load_data_identity.
    + now apply save_recipe_all_named.
    + now apply save_recipe_NoDup.
    + destruct (save_recipe_cases name user current_item speed duration
                  acceleration shared fresh g) as [[-> _]|[a Hcase]];
        [exact Hfile|].
      now destruct Hcase as [_ [_ [_ [_ [_ [-> _]]]]]].
  - apply load_data_identity.
    + now apply delete_recipe_all_named.
    + now apply delete_recipe_NoDup.
    + destruct (delete_recipe_cases current_item user g)
        as [[-> _]|[item [r_id [data [n Hcase]]]]]; [exact Hfile|].
      now destruct Hcase as [_ [_ [_ [_ [_ [_ [_ [-> _]]]]]]]].
Qed.

Lemma X11_witness :
  let g1 := snd (save_recipe "Bake" "al" None 1500 60 200 false "r4"
                             sample_gui) in
  saved_recipes (snd (load_data sample_uuid4 "bob" g1)) = saved_recipes g1.
Proof.
  apply (X11_written_file_loads_back sample_uuid4 "bob" "Bake" "al" None
           1500 60 200 false "r4" sample_gui).
  - reflexivity.
  - repeat constructor; simpl; intuition discriminate.
  - reflexivity.
Defined.

(** ** The queue and the steps made from it *)

Lemma plain_split_head (s : string) : plain (split_head s).
Proof.
  unfold plain. induction s as [|c s IH]; [reflexivity|].
  cbn [split_head]. destruct (String.prefix " (" (String c s)) eqn:Hp;
    [reflexivity|].
  cbn [contains]. rewrite IH, orb_false_r.
  cbn [String.prefix] in *. destruct (ascii_dec " " c); [|reflexivity].
  destruct s as [|c' s]; [reflexivity|].
  cbn [split_head]. destruct (String.prefix " (" (String c' s));
    [reflexivity|].
  cbn [String.prefix] in *. destruct (ascii_dec "(" c'); [|reflexivity].
  destruct s; discriminate.
Qed.

Lemma named_not_empty (d : pydict) (n : string) :
  d_name d = Some n -> dict_is_empty d = false.
Proof. destruct d as [[] [] ? ? ? ? ?]; simpl; congruence. Qed.

Lemma find_by_name_Some (clean_name : string) (saved : store)
  (found : pydict) :
  find_by_name clean_name saved = Ok (Some found) ->
  d_name found = Some clean_name /\ exists r_id, In (r_id, found) saved.
Proof.
  induction saved as [|[k d] saved IH]; simpl; [discriminate|].
  destruct (d_name d) as [n|] eqn:Hn; simpl; [|discriminate].
  destruct (String.eqb_spec n clean_name) as [->|Hne].
  - intros H. inversion H; subst. split; [exact Hn|eauto].
  - intros H. destruct (IH H) as [H1 [r_id H2]]. split; [exact H1|eauto].
Qed.

Lemma find_by_name_None (clean_name : string) (saved : store) :
  all_named saved = true ->
  (forall k d, In (k, d) saved -> d_name d <> Some clean_name) ->
  find_by_name clean_name saved = Ok None.
Proof.
  unfold all_named. induction saved as [|[k d] saved IH]; simpl;
    [reflexivity|].
  intros H Hno. apply andb_prop in H. destruct H as [H1 H2].
  destruct (d_name d) as [n|] eqn:Hn; [|discriminate]. simpl.
  destruct (String.eqb_spec n clean_name) as [->|Hne].
  - exfalso. apply (Hno k d); auto.
  - apply IH; [exact H2|]. intros k' d' Hin. apply (Hno k' d'). auto.
Qed.

Lemma is_wait_step_true (data : user_role) :
  is_wait_step data = Ok true ->
  exists d, data = RoleDict d /\ d_type d = Some "wait".
Proof.
  destruct data as [|s|d]; simpl; [discriminate| |].
  - destruct (str_is_empty s); [discriminate|].
    destruct (contains "type" s); discriminate.
  - destruct (dict_is_empty d); [discriminate|].
    destruct (d_type d) as [t|] eqn:Ht; [|discriminate].
    destruct (String.eqb_spec t "wait") as [->|]; [|discriminate].
    intros _. exists d. split; [reflexivity|exact Ht].
Qed.

(** What one entry of the queue can turn into. *)
Lemma resolve_item_cases (saved : store) (item : queue_item)
  (step : pydict) (name : string) :
  resolve_item saved item = Ok (Some (step, name)) ->
  (q_data item = RoleDict step /\ d_type step = Some "wait"
   /\ name = "Wait") \/
  (exists r_id data,
     In (r_id, data) saved /\ d_name data = Some name /\ plain name /\
     name = split_head (q_text item) /\ step = set_type "spin" data).
Proof.
  unfold resolve_item.
  destruct (is_wait_step (q_data item)) as [[|]|e] eqn:Hw; simpl;
    [| |discriminate].
  - apply is_wait_step_true in Hw. destruct Hw as [d [Hd Ht]].
    rewrite Hd. intros H. inversion H; subst. left. auto.
  - destruct (find_by_name (split_head (q_text item)) saved)
      as [[found|]|e] eqn:Hf; simpl; try discriminate.
    destruct (dict_is_empty found); [discriminate|].
    intros H. inversion H; subst.
    apply find_by_name_Some in Hf. destruct Hf as [Hn [r_id Hin]].
    right. exists r_id, found. repeat split; auto. apply plain_split_head.
Qed.

Lemma collect_steps_cons (saved : store) (item : queue_item)
  (queue : list queue_item) (steps : list pydict) (names : list string) :
  collect_steps saved (item :: queue) = Ok (steps, names) ->
  exists this steps' names',
    resolve_item saved item = Ok this /\
    collect_steps saved queue = Ok (steps', names') /\
    match this with
    | Some (step, name) => steps = step :: steps' /\ names = name :: names'
    | None => steps = steps' /\ names = names'
    end.
Proof.
  cbn [collect_steps].
  destruct (resolve_item saved item) as [this|e]; simpl; [|discriminate].
  destruct (collect_steps saved queue) as [[steps' names']|e]; simpl;
    [|discriminate].
  intros H. exists this, steps', names'. split; [reflexivity|].
  split; [reflexivity|].
  destruct this as [[step name]|]; simpl in H; inversion H; auto.
Qed.

(** X13.  Every step handed to the worker is either the dictionary of a
    wait entry of the queue, or a copy, marked 'spin', of a recipe of the
    store whose name has no [" ("] in it.  So a recipe whose name
    contains [" ("] is never run, however it is queued. *)
Theorem X13_steps_come_from_queue_or_store (saved : store)
  (queue : list queue_item) (steps : list pydict) (names : list string) :
  collect_steps saved queue = Ok (steps, names) ->
  length names = length steps /\
  (length steps <= length queue)%nat /\
  Forall (fun step =>
            (exists item, In item queue /\ q_data item = RoleDict step
                          /\ d_type step = Some "wait") \/
            (exists r_id data n,
               In (r_id, data) saved /\ d_name data = Some n /\ plain n /\
               step = set_type "spin" data))
         steps.
Proof.
  revert steps names. induction queue as [|item queue IH];
    intros steps names H.
  - inversion H. repeat split; auto.
  - apply collect_steps_cons in H.
    destruct H as [this [steps' [names' [Hthis [Hrest Hshape]]]]].
    destruct (IH _ _ Hrest) as [Hlen [Hle Hall]].
    assert (Hall' : Forall (fun step =>
      (exists item0, In item0 (item :: queue) /\ q_data item0 = RoleDict step
                     /\ d_type step = Some "wait") \/
      (exists r_id data n,
         In (r_id, data) saved /\ d_name data = Some n /\ plain n /\
         step = set_type "spin" data)) steps').
    { eapply Forall_impl; [|exact Hall]. simpl.
      intros st [[it [H1 H2]]|H0]; [left; exists it; simpl; tauto|now right]. }
    destruct this as [[step name]|]; destruct Hshape as [-> ->]; simpl.
    + split; [now rewrite Hlen|]. split; [lia|]. constructor; [|exact Hall'].
      apply resolve_item_cases in Hthis.
      destruct Hthis as [[Hd [Ht _]]|[r_id [data [Hin [Hn [Hp [_ ->]]]]]]].
      * left. exists item. simpl. auto.
      * right. exists r_id, data, name. auto.
    + split; [exact Hlen|]. split; [lia|exact Hall'].
Qed.

Lemma X13_witness :
  Forall (fun step =>
            (exists item,
                In item [mkQueueItem "Etch (bob)" (RoleId "r1")]
                /\ q_data item = RoleDict step
                /\ d_type step = Some "wait") \/
            (exists r_id data n,
               In (r_id, data) sample_store /\ d_name data = Some n
               /\ plain n /\ step = set_type "spin" data))
         [set_type "spin" etch].
Proof.
  apply (X13_steps_come_from_queue_or_store sample_store
           [mkQueueItem "Etch (bob)" (RoleId "r1")]
           [set_type "spin" etch] ["Etch"]).
  reflexivity.
Defined.

(** X14.  When several recipes have the same name, a name without
    [" ("] in it, and every recipe stored before the first of them has
    a name, a queued entry with that name (its text is the name, or
    the name followed by [" (author)"]) that carries nothing or an
    identifier without ["type"] in it runs the first of them in the
    order of the store, whichever of them it was dragged from. *)
Theorem X14_first_recipe_of_a_name_runs (saved before rest : store)
  (k1 k2 : string) (d1 : pydict) (n : string) (item : queue_item) :
  saved = (before ++ (k1, d1) :: rest)%list ->
  Forall (fun kv => exists m, d_name (snd kv) = Some m /\ m <> n) before ->
  d_name d1 = Some n -> plain n ->
  (q_text item = n \/ exists a, q_text item = n ++ " (" ++ a ++ ")") ->
  (q_data item = RoleNone \/
   q_data item = RoleId k2 /\ contains "type" k2 = false) ->
  resolve_item saved item = Ok (Some (set_type "spin" d1, n)).
Proof.
  intros -> Hbefore Hn Hplain Htext Hdata.
  assert (Hclean : split_head (q_text item) = n).
  { destruct Htext as [->|[a ->]];
      [now apply split_head_plain|now apply split_head_suffix]. }
  assert (Hw : is_wait_step (q_data item) = Ok false).
  { destruct Hdata as [->|[-> Hk]]; [reflexivity|]. simpl. rewrite Hk.
    now destruct (str_is_empty k2). }
  unfold resolve_item. rewrite Hw. simpl.
  rewrite Hclean, (find_by_name_first n k1 d1 before rest Hbefore Hn).
  simpl. now rewrite (named_not_empty d1 n Hn).
Qed.

Lemma X14_witness :
  resolve_item [("r1", etch); ("r5", recipe "Etch" 9000 1 1 "al" false)]
               (mkQueueItem "Etch" (RoleId "r5"))
  = Ok (Some (set_type "spin" etch, "Etch")).
Proof.
  apply (X14_first_recipe_of_a_name_runs _ []
           [("r5", recipe "Etch" 9000 1 1 "al" false)] "r1" "r5" etch "Etch").
  - reflexivity.
  - constructor.
  - reflexivity.
  - reflexivity.
  - left. reflexivity.
  - right. split; reflexivity.
Defined.

(** X15.  A queued entry whose text, cut at its first [" ("], is the
    name of no recipe (a recipe renamed or deleted since, or one with
    [" ("] in its name) is skipped without a word: the steps are those of
    the rest of the queue. *)
Theorem X15_unknown_name_is_skipped (saved : store) (item : queue_item)
  (queue : list queue_item) :
  all_named saved = true ->
  (forall k d, In (k, d) saved ->
               d_name d <> Some (split_head (q_text item))) ->
  is_wait_step (q_data item) = Ok false ->
  collect_steps saved (item :: queue) = collect_steps saved queue.
Proof.
  intros Hnamed Hno Hw. cbn [collect_steps]. unfold resolve_item.
  rewrite Hw. simpl. rewrite (find_by_name_None _ _ Hnamed Hno). simpl.
  destruct (collect_steps saved queue) as [more|e]; reflexivity.
Qed.

Lemma X15_witness :
  collect_steps sample_store
    [mkQueueItem "Mix (v2)" (RoleId "r8"); mkQueueItem "Prime" RoleNone]
  = collect_steps sample_store [mkQueueItem "Prime" RoleNone].
Proof.
  apply (X15_unknown_name_is_skipped sample_store
           (mkQueueItem "Mix (v2)" (RoleId "r8"))).
  - reflexivity.
  - simpl. intros k d [H|[H|[H|H]]]; inversion H; subst; discriminate.
  - reflexivity.
Defined.

(** X12.  [start_process] never touches the recipes, the users, the
    queue or their files.  It starts a worker exactly when an operator
    is selected and at least one entry of the queue yields a step; the
    worker gets those steps, the loop count and the mode, and one row
    "Started [SIM]/[LIVE]: names" goes to the history.  In every other
    case the window is left as it was: with a warning when no operator
    is selected, silently when no step came out. *)
Theorem X12_start_process_outcomes (user : string) (sim : bool) (loops : Z)
  (g : gui) :
  match start_process user sim loops g with
  | (o, g', w) =>
      saved_recipes g' = saved_recipes g /\ queue_list g' = queue_list g /\
      users g' = users g /\ recipes_json g' = recipes_json g /\
      users_json g' = users_json g /\ recipe_list g' = recipe_list g /\
      (o = Done <-> w <> None) /\
      (w = None -> g' = g) /\
      (user = "" -> o = Warned "Error" "Select a User first!") /\
      (user <> "" ->
       collect_steps (saved_recipes g) (queue_list g) = Ok ([], []) ->
       o = Ignored) /\
      (forall wk,
         w = Some wk ->
         user <> "" /\ recipe_steps wk <> [] /\
         loop_count wk = loops /\ simulation_mode wk = sim /\
         exists names,
           collect_steps (saved_recipes g) (queue_list g)
           = Ok (recipe_steps wk, names) /\
           history_csv g'
           = (history_csv g
                ++ [(user,
                     ("Started " ++ (if sim then "[SIM]" else "[LIVE]")
                        ++ ": " ++ String.concat ", " names)%string)])%list)
  end.
Proof.
  unfold start_process. destruct (str_is_empty user) eqn:Hu.
  - apply str_is_empty_true in Hu.
    repeat split; try reflexivity; try congruence; try discriminate;
      try (intros H; now contradiction H).
  - apply str_is_empty_false in Hu.
    destruct (collect_steps (saved_recipes g) (queue_list g))
      as [[steps names]|e] eqn:Hc.
    + destruct steps as [|step steps].
      * repeat split; try reflexivity; try congruence; try discriminate;
          try (intros H; now contradiction H).
      * unfold log_action. apply str_is_empty_false in Hu. rewrite Hu.
        apply str_is_empty_false in Hu. simpl.
        repeat split; try reflexivity; try congruence; try discriminate;
          try (match goal with
               | H : Some _ = Some _ |- _ => inversion H; subst; simpl
               end;
               first [discriminate|reflexivity
                     |exists names; split; reflexivity]).
    + repeat split; try reflexivity; try congruence; try discriminate;
        try (intros H; now contradiction H).
Qed.

Lemma X12_witness :
  match start_process "al" true 2 (add_wait_step 5 sample_gui) with
  | (o, g', w) =>
      o = Done /\ w <> None /\
      saved_recipes g' = saved_recipes (add_wait_step 5 sample_gui)
  end.
Proof.
  pose proof (X12_start_process_outcomes "al" true 2
                (add_wait_step 5 sample_gui)) as H.
  destruct (start_process "al" true 2 (add_wait_step 5 sample_gui))
    as [[o g'] w] eqn:E.
  destruct H as [Hsaved [_ [_ [_ [_ [_ [Hdone _]]]]]]].
  assert (Hw : w <> None) by (vm_compute in E; inversion E; discriminate).
  split; [now apply Hdone|]. split; [exact Hw|exact Hsaved].
Defined.

Lemma take_item_last {A : Type} (l : list A) (x : A) :
  take_item (length l) (l ++ [x]) = l.
Proof. induction l as [|y l IH]; simpl; [reflexivity|]. now rewrite IH. Qed.

Lemma take_item_spec {A : Type} (row : nat) (l : list A) :
  (row < length l)%nat ->
  take_item row l = (firstn row l ++ skipn (S row) l)%list.
Proof.
  revert row. induction l as [|x l IH]; intros row H; simpl in H; [lia|].
  destruct row as [|row]; simpl; [reflexivity|].
  f_equal. apply IH. lia.
Qed.

Lemma take_item_beyond {A : Type} (row : nat) (l : list A) :
  (length l <= row)%nat -> take_item row l = l.
Proof.
  revert row. induction l as [|x l IH]; intros row H; simpl in *;
    [now destruct row|].
  destruct row as [|row]; [lia|]. simpl. f_equal. apply IH. lia.
Qed.

(** X16.  The buttons of the queue: "Remove Step" on row [row] takes
    exactly that entry out and keeps the others in order, and does
    nothing when no row is current or the row does not exist; removing
    the entry "Add Wait" has just appended gives back the queue there
    was; and after "Clear All", "RUN PROCESS" starts nothing and says
    nothing. *)
Theorem X16_queue_buttons (g : gui) :
  (forall row,
     0 <= row < Z.of_nat (length (queue_list g)) ->
     queue_list (remove_queue_step row g)
     = (firstn (Z.to_nat row) (queue_list g)
          ++ skipn (S (Z.to_nat row)) (queue_list g))%list) /\
  (forall row,
     row < 0 \/ Z.of_nat (length (queue_list g)) <= row ->
     queue_list (remove_queue_step row g) = queue_list g) /\
  (forall row, saved_recipes (remove_queue_step row g) = saved_recipes g) /\
  (forall dur,
     queue_list (remove_queue_step (Z.of_nat (length (queue_list g)))
                                   (add_wait_step dur g))
     = queue_list g) /\
  (forall user sim loops,
     user <> "" ->
     start_process user sim loops (clear_queue g)
     = (Ignored, clear_queue g, None)).
Proof.
  split; [|split; [|split; [|split]]].
  - intros row Hrow. unfold remove_queue_step.
    destruct (Z.leb_spec 0 row); [|lia]. simpl.
    apply take_item_spec. lia.
  - intros row Hrow. unfold remove_queue_step.
    destruct (Z.leb_spec 0 row); [|reflexivity]. simpl.
    apply take_item_beyond. lia.
  - intros row. unfold remove_queue_step. now destruct (0 <=? row).
  - intros dur. unfold remove_queue_step.
    destruct (Z.leb_spec 0 (Z.of_nat (length (queue_list g)))); [|lia].
    simpl. rewrite Nat2Z.id. apply take_item_last.
  - intros user sim loops Hu. unfold start_process.
    apply str_is_empty_false in Hu. now rewrite Hu.
Qed.

Lemma X16_witness :
  let g := add_wait_step 5 (drop_recipe prime_item true sample_gui) in
  queue_list (remove_queue_step 0 g)
  = [mkQueueItem "--- WAIT 5s ---"
       (RoleDict (mkDict (Some "wait") (Some "Wait") None (Some 5)
                         None None None))] /\
  queue_list (remove_queue_step (-1) g) = queue_list g /\
  start_process "al" true 1 (clear_queue g) = (Ignored, clear_queue g, None).
Proof.
  set (g := add_wait_step 5 (drop_recipe prime_item true sample_gui)).
  destruct (X16_queue_buttons g) as [Hin [Hout [_ [_ Hclear]]]].
  split; [|split].
  - rewrite (Hin 0); [reflexivity|]. simpl. lia.
  - apply Hout. left. lia.
  - apply Hclear. discriminate.
Defined.

(* ================================================================= *)
(** ** The worker thread at large *)

(** A loop whose body never looks at the count of serial calls left
    does not look at it either. *)
Lemma for_running_io {A : Type} (xs : list A) (body : A -> M unit)
  (io : option nat) :
  (forall x s,
     body x (set_io io s)
     = match body x s with (r, s', t) => (r, set_io io s', t) end) ->
  forall s,
    for_running xs body (set_io io s)
    = match for_running xs body s with (r, s', t) => (r, set_io io s', t) end.
Proof.
  intros Hbody. induction xs as [|x rest IH]; intros s; [reflexivity|].
  destruct s as [sr pl io0].
  cbn [for_running]. unfold bind, is_running.
  cbn [set_io polls_left ser io_left].
  destruct pl as [[|n]|]; [reflexivity| |].
  - change (mkState sr (Some n) io)
      with (set_io io (mkState sr (Some n) io0)).
    rewrite Hbody.
    destruct (body x (mkState sr (Some n) io0)) as [[[[]|e] s1] t1];
      [|reflexivity].
    rewrite IH. destruct (for_running rest body s1) as [[r s2] t2].
    reflexivity.
  - change (mkState sr None io) with (set_io io (mkState sr None io0)).
    rewrite Hbody.
    destruct (body x (mkState sr None io0)) as [[[[]|e] s1] t1];
      [|reflexivity].
    rewrite IH. destruct (for_running rest body s1) as [[r s2] t2].
    reflexivity.
Qed.

(** The simulated execution loop does not look at it. *)
Lemma execution_loop_io (w : worker) (io : option nat) (s : wstate) :
  simulation_mode w = true ->
  execution_loop w (set_io io s)
  = match execution_loop w s with (r, s', t) => (r, set_io io s', t) end.
Proof.
  intros Hsim. unfold execution_loop. rewrite Hsim.
  apply for_running_io. intros l s1.
  apply for_running_io. intros step s2.
  rewrite !run_step_cases.
  destruct (d_duration step) as [duration|]; [|reflexivity].
  assert (Hw : forall cmd s0, write_if_live true cmd s0 = (Ok tt, s0, []))
    by reflexivity.
  destruct (String.eqb (get_or (d_type step) "spin") "wait").
  - rewrite !Hw. rewrite for_running_io by reflexivity.
    destruct (for_running _ _ s2) as [[r s3] t3]. reflexivity.
  - destruct (d_speed step) as [speed|]; [|reflexivity].
    rewrite !Hw. rewrite for_running_io by reflexivity.
    destruct (for_running _ _ s2) as [[r s3] t3]. reflexivity.
Qed.

(** X17 (MotorWorker.run, simulation mode): a simulated run leaves
    the serial port alone, whatever the steps are, whenever it is
    cancelled and however it ends: nothing is opened, written or
    closed; and whether pyserial is there, whether the port would
    open and whether a call on the port would fail make no difference
    to it. *)
Theorem X17_simulation_never_touches_the_port
  (w : worker) (env : environment) :
  simulation_mode w = true ->
  (forall e, In e (snd (run w env)) -> is_serial e = false) /\
  device_commands (snd (run w env)) = [] /\
  forall available error fault,
    run w (mkEnv available error (stop_after env) fault) = run w env.
Proof.
  intros Hsim.
  assert (Hser : forall e, In e (snd (run w env)) -> is_serial e = false).
  { pose proof (run_sim_cases w env Hsim) as Hc.
    pose proof (execution_loop_sound w
                  (mkState false (stop_after env) (fault_after env)))
      as Hsound.
    rewrite Hsim in Hsound.
    destruct (execution_loop w _) as [[[[]|e'] s2] tl];
      rewrite Hc; simpl; destruct Hsound as [Hev _];
      apply loop_events_lack in Hev; destruct Hev as [_ [_ [_ Hev]]];
      intros e [<-|Hin]; try reflexivity.
    - apply in_app_or in Hin. destruct Hin as [Hin|[<-|[<-|[]]]];
        try reflexivity.
      destruct (is_serial e) eqn:He; [|reflexivity].
      now specialize (Hev e Hin He).
    - destruct (is_serial e) eqn:He; [|reflexivity].
      now specialize (Hev e Hin He). }
  split; [exact Hser|]. split.
  - induction (snd (run w env)) as [|a t IH]; [reflexivity|].
    assert (Ha := Hser a (or_introl eq_refl)).
    destruct a as [m| |p b|c| |z|b]; try discriminate Ha; simpl;
      apply IH; intros e Hin; apply Hser; now right.
  - intros available error fault.
    pose proof (run_sim_cases w env Hsim) as Hc.
    pose proof (run_sim_cases w
                  (mkEnv available error (stop_after env) fault) Hsim)
      as Hc'.
    cbn [stop_after fault_after] in Hc'.
    change (mkState false (stop_after env) fault)
      with (set_io fault
              (mkState false (stop_after env) (fault_after env))) in Hc'.
    rewrite (execution_loop_io w fault _ Hsim) in Hc'.
    destruct (execution_loop w
                (mkState false (stop_after env) (fault_after env)))
      as [[[[]|e] s2] tl]; now rewrite Hc, Hc'.
Qed.

Lemma X17_witness :
  (forall e,
     In e (snd (run (mkWorker [spin_2000_3 None; wait_2 None] 2 true)
                    (mkEnv false None (Some 3%nat) None))) ->
     is_serial e = false) /\
  device_commands (snd (run (mkWorker [spin_2000_3 None; wait_2 None] 2 true)
                            (mkEnv false None (Some 3%nat) None))) = [] /\
  forall available error fault,
    run (mkWorker [spin_2000_3 None; wait_2 None] 2 true)
        (mkEnv available error (Some 3%nat) fault)
    = run (mkWorker [spin_2000_3 None; wait_2 None] 2 true)
          (mkEnv false None (Some 3%nat) None).
Proof.
  apply (X17_simulation_never_touches_the_port
           (mkWorker [spin_2000_3 None; wait_2 None] 2 true)
           (mkEnv false None (Some 3%nat) None)).
  reflexivity.
Defined.

(** While no call on the port fails, and on a simulated run, [run]
    does not raise the exception of the port. *)
Lemma run_no_fault (w : worker) (env : environment) :
  simulation_mode w = true \/ fault_after env = None ->
  fst (run w env) <> Raise SerialException.
Proof.
  intros Hcase. destruct (simulation_mode w) eqn:Hsim.
  - pose proof (run_sim_cases w env Hsim) as Hc.
    pose proof (execution_loop_sound w
                  (mkState false (stop_after env) (fault_after env)))
      as Hsound.
    rewrite Hsim in Hsound.
    destruct (execution_loop w _) as [[[[]|e] s2] tl]; rewrite Hc;
      cbn [fst]; [discriminate|].
    destruct Hsound as [_ [->|[->|[H _]]]]; discriminate.
  - destruct Hcase as [H|Hfault]; [discriminate|].
    destruct (SERIAL_AVAILABLE env) eqn:Hav.
    2:{ unfold run, run_body, connect. rewrite Hsim, Hav. discriminate. }
    destruct (open_error env) as [msg|] eqn:Herr.
    { unfold run, run_body, connect. rewrite Hsim, Hav, Herr. discriminate. }
    rewrite (run_connected w env Hsim Hav Herr).
    pose proof (execution_loop_no_fault w
                  (mkState true (stop_after env) (fault_after env)) Hfault)
      as [Hio Hne].
    pose proof (execution_loop_halts w
                  (mkState true (stop_after env) (fault_after env))) as Hh.
    destruct (execution_loop w _) as [[[[]|e] s2] tl]; cbn [fst snd] in *.
    + destruct Hh as [Hser _]. cbn [ser] in Hser.
      rewrite (finish_live w s2 Hsim Hser), Hio. discriminate.
    + exact Hne.
Qed.

(** What [run] can raise: the exception of a call on the port that
    failed, or the [KeyError] of a step that lacks a key. *)
Lemma run_raises (w : worker) (env : environment) (e : exn) :
  fst (run w env) = Raise e ->
  (e = SerialException /\ simulation_mode w = false /\
   fault_after env <> None) \/
  ((e = KeyError "duration" \/ e = KeyError "speed") /\
   forallb step_ok (recipe_steps w) = false).
Proof.
  intros Hraise.
  assert (Hport : e = SerialException ->
                  simulation_mode w = false /\ fault_after env <> None).
  { intros ->. split.
    - destruct (simulation_mode w) eqn:Hsim; [|reflexivity].
      exfalso. apply (run_no_fault w env); auto.
    - intros Hnone. apply (run_no_fault w env); auto. }
  assert (Hloop : forall s s2 tl live,
    execution_loop w s = (Raise e, s2, tl) ->
    loop_sound live (Raise e, s2, tl) ->
    e = SerialException \/
    (e = KeyError "duration" \/ e = KeyError "speed") /\
    forallb step_ok (recipe_steps w) = false).
  { intros s s2 tl live He Hsound.
    destruct Hsound as [_ [->|[->|[_ ->]]]].
    - right. split; [now left|]. exact (forallb_step_ok_returns _ _ _ _ _ He).
    - right. split; [now right|].
      exact (forallb_step_ok_returns _ _ _ _ _ He).
    - now left. }
  assert (Hkinds : e = SerialException \/
    (e = KeyError "duration" \/ e = KeyError "speed") /\
    forallb step_ok (recipe_steps w) = false).
  { destruct (simulation_mode w) eqn:Hsim.
    - pose proof (run_sim_cases w env Hsim) as Hc.
      pose proof (execution_loop_sound w
                    (mkState false (stop_after env) (fault_after env)))
        as Hsound.
      destruct (execution_loop w _) as [[[[]|e'] s2] tl] eqn:He;
        rewrite Hc in Hraise; cbn [fst] in Hraise; [discriminate|].
      injection Hraise as ->. exact (Hloop _ _ _ _ He Hsound).
    - destruct (run_live_cases w env Hsim)
        as [[m [_ Hrun]]|[[s2 [tl [_ Hrun]]]|[e' [s2 [tl [He Hrun]]]]]].
      + rewrite Hrun in Hraise. discriminate.
      + destruct Hrun as [Hrun|[Hrun|Hrun]]; rewrite Hrun in Hraise;
          cbn [fst] in Hraise; [discriminate| |];
          injection Hraise as <-; now left.
      + rewrite Hrun in Hraise. cbn [fst] in Hraise.
        injection Hraise as ->.
        pose proof (execution_loop_sound w
                      (mkState true (stop_after env) (fault_after env)))
          as Hsound.
        rewrite He in Hsound. exact (Hloop _ _ _ _ He Hsound). }
  destruct Hkinds as [He|Hk]; [left|now right].
  destruct (Hport He) as [H1 H2]. auto.
Qed.

(** X18 (MotorWorker.run, a step without a key or a port that
    fails): when [run] raises, it is the [KeyError] of
    [step['duration']] or [step['speed']], and then some step of the
    recipe lacks a key [run] reads, or it is the exception of a call
    on the port that failed, and then the run is live.  Either way
    the thread dies without the shutdown: [finished] is never
    signalled, no "Process Complete." is sent and the port is never
    closed; on a live run the port had been opened. *)
Theorem X18_raising_run_skips_the_shutdown
  (w : worker) (env : environment) (e : exn) :
  fst (run w env) = Raise e ->
  ((e = SerialException /\ simulation_mode w = false /\
    fault_after env <> None) \/
   ((e = KeyError "duration" \/ e = KeyError "speed") /\
    forallb step_ok (recipe_steps w) = false)) /\
  ~ In Finished (snd (run w env)) /\
  ~ In (Emit ProcessComplete) (snd (run w env)) /\
  ~ In SerialClose (snd (run w env)) /\
  (simulation_mode w = false ->
   In (SerialOpen port baud_rate) (snd (run w env))).
Proof.
  intros Hraise. split; [exact (run_raises w env e Hraise)|].
  destruct (simulation_mode w) eqn:Hsim.
  - pose proof (run_sim_cases w env Hsim) as Hc.
    pose proof (execution_loop_sound w
                  (mkState false (stop_after env) (fault_after env)))
      as Hsound.
    destruct (execution_loop w _) as [[[[]|e'] s2] tl] eqn:He;
      rewrite Hc in Hraise |- *; simpl in Hraise; [discriminate|].
    destruct Hsound as [Hev _].
    apply loop_events_lack in Hev. destruct Hev as [H1 [H2 [H3 _]]].
    simpl. repeat split.
    + intros [H|H]; [discriminate|tauto].
    + intros [H|H]; [discriminate|tauto].
    + intros [H|H]; [discriminate|tauto].
    + discriminate.
  - pose proof (execution_loop_sound w
                  (mkState true (stop_after env) (fault_after env)))
      as Hsound.
    rewrite Hsim in Hsound.
    assert (Hlack : forall tl behind,
      forallb (is_loop_event (negb false)) tl = true ->
      behind = [] \/ behind = [SerialWrite (speed_command 0)] ->
      ~ In Finished (startup ++ tl ++ behind) /\
      ~ In (Emit ProcessComplete) (startup ++ tl ++ behind) /\
      ~ In SerialClose (startup ++ tl ++ behind) /\
      (false = false ->
       In (SerialOpen port baud_rate) (startup ++ tl ++ behind))).
    { intros tl behind Hev Hb. apply loop_events_lack in Hev.
      destruct Hev as [H1 [H2 [H3 _]]]. unfold startup.
      repeat split.
      - rewrite !in_app_iff. simpl.
        destruct Hb as [->| ->]; simpl; intuition discriminate.
      - rewrite !in_app_iff. simpl.
        destruct Hb as [->| ->]; simpl; intuition discriminate.
      - rewrite !in_app_iff. simpl.
        destruct Hb as [->| ->]; simpl; intuition discriminate.
      - intros _. apply in_or_app. left. simpl. tauto. }
    destruct (run_live_cases w env Hsim)
      as [[m [_ Hrun]]|[[s2 [tl [He Hrun]]]|[e' [s2 [tl [He Hrun]]]]]].
    + rewrite Hrun in Hraise. discriminate.
    + rewrite He in Hsound. destruct Hsound as [Hev _].
      destruct Hrun as [Hrun|[Hrun|Hrun]]; rewrite Hrun in Hraise |- *;
        cbn [fst snd] in *; [discriminate| |].
      * rewrite <- (app_nil_r tl). apply Hlack; auto.
      * apply Hlack; auto.
    + rewrite He in Hsound. destruct Hsound as [Hev _].
      rewrite Hrun. cbn [snd]. rewrite <- (app_nil_r tl). apply Hlack; auto.
Qed.

(** A recipe whose second step has no duration, run live: the first
    step spins, the second raises, and the port stays open. *)
Lemma X18_witness :
  ((KeyError "duration" = SerialException /\ false = false /\
    @None nat <> None) \/
   ((KeyError "duration" = KeyError "duration" \/
     KeyError "duration" = KeyError "speed") /\
    forallb step_ok
      [spin_2000_3 None;
       mkDict None (Some "Dry") (Some 1500) None None None None] = false)) /\
  ~ In Finished
       (snd (run (mkWorker
                    [spin_2000_3 None;
                     mkDict None (Some "Dry") (Some 1500) None None None None]
                    1 false)
                 (mkEnv true None None None))) /\
  ~ In (Emit ProcessComplete)
       (snd (run (mkWorker
                    [spin_2000_3 None;
                     mkDict None (Some "Dry") (Some 1500) None None None None]
                    1 false)
                 (mkEnv true None None None))) /\
  ~ In SerialClose
       (snd (run (mkWorker
                    [spin_2000_3 None;
                     mkDict None (Some "Dry") (Some 1500) None None None None]
                    1 false)
                 (mkEnv true None None None))) /\
  (false = false ->
   In (SerialOpen port baud_rate)
      (snd (run (mkWorker
                   [spin_2000_3 None;
                    mkDict None (Some "Dry") (Some 1500) None None None None]
                   1 false)
                (mkEnv true None None None)))).
Proof.
  apply (X18_raising_run_skips_the_shutdown
           (mkWorker
              [spin_2000_3 None;
               mkDict None (Some "Dry") (Some 1500) None None None None]
              1 false)
           (mkEnv true None None None) (KeyError "duration")).
  reflexivity.
Defined.




(** ** The worker thread: a run nobody cancels *)

(** With the flag never cleared, every key there and no call on the
    port failing, the loops do all of [loop_events]. *)
Lemma execution_loop_free (w : worker) (s : wstate) :
  polls_left s = None -> forallb step_ok (recipe_steps w) = true ->
  simulation_mode w = true \/ io_left s = None ->
  exists s2,
    execution_loop w s
    = (Ok tt, s2, loop_events (negb (simulation_mode w) && ser s) w) /\
    ser s2 = ser s /\ (io_left s = None -> io_left s2 = None).
Proof.
  intros Hp Hok Hcase.
  pose proof (execution_loop_follows w s) as Hf.
  pose proof (execution_loop_returns w s Hok) as Hr.
  pose proof (execution_loop_sound w s) as Hsound.
  pose proof (execution_loop_no_fault w s) as Hio.
  destruct (execution_loop w s) as [[[[]|e] s2] tl];
    unfold follows in Hf; rewrite Hp in Hf; cbn [fst snd] in *.
  - destruct Hf as [Hser [_ [j [-> [_ [Hj _]]]]]].
    rewrite (Hj I). simpl. rewrite app_nil_r.
    exists s2. split; [reflexivity|]. split; [exact Hser|].
    intros H. now apply Hio.
  - exfalso. destruct Hr as [Hr|Hr]; [discriminate|].
    injection Hr as ->. destruct Hcase as [Hsim|Hnone].
    + rewrite Hsim in Hsound.
      destruct Hsound as [_ [H|[H|[H _]]]]; discriminate.
    + now apply (Hio Hnone).
Qed.

Lemma run_free (w : worker) (env : environment) :
  stop_after env = None -> forallb step_ok (recipe_steps w) = true ->
  simulation_mode w = true \/
  (SERIAL_AVAILABLE env = true /\ open_error env = None /\
   fault_after env = None) ->
  run w env
  = (Ok tt,
     if simulation_mode w
     then (Emit Initializing :: loop_events false w ++
           [Emit ProcessComplete; Finished])%list
     else (startup ++ loop_events true w ++ shutdown)%list).
Proof.
  intros Hstop Hok Hconn. destruct (simulation_mode w) eqn:Hsim.
  - pose proof (run_sim_cases w env Hsim) as Hc.
    destruct (execution_loop_free w
                (mkState false (stop_after env) (fault_after env))
                Hstop Hok (or_introl Hsim)) as [s2 [He _]].
    rewrite He, Hsim in Hc. exact Hc.
  - destruct Hconn as [Hconn|[Hav [Herr Hfault]]]; [discriminate|].
    rewrite (run_connected w env Hsim Hav Herr).
    destruct (execution_loop_free w
                (mkState true (stop_after env) (fault_after env))
                Hstop Hok (or_intror Hfault)) as [s2 [He [Hser Hio]]].
    rewrite He, Hsim. cbn [negb andb ser] in *.
    rewrite (finish_live w s2 Hsim Hser), (Hio Hfault). reflexivity.
Qed.



Lemma sleep_seconds_app (t1 t2 : list event) :
  sleep_seconds (t1 ++ t2) = sleep_seconds t1 + sleep_seconds t2.
Proof.
  induction t1 as [|a t1 IH]; [reflexivity|].
  destruct a; simpl; rewrite IH; lia.
Qed.

Lemma countdown_seconds (f : Z -> message) (ts : list Z) :
  sleep_seconds (flat_map (fun t => [Poll true; Emit (f t); Sleep 1]) ts)
  = Z.of_nat (length ts).
Proof.
  induction ts as [|t ts IH]; [reflexivity|].
  cbn [flat_map length]. rewrite sleep_seconds_app, IH. simpl sleep_seconds.
  lia.
Qed.

Lemma range_down_length (hi : Z) :
  Z.of_nat (length (range_down hi)) = Z.max 0 hi.
Proof. unfold range_down. rewrite length_map, length_seq. lia. Qed.

Lemma range_up_length (lo hi : Z) :
  Z.of_nat (length (range_up lo hi)) = Z.max 0 (hi - lo).
Proof. unfold range_up. rewrite length_map, length_seq. lia. Qed.

Lemma step_events_seconds (live : bool) (l n : Z) (step : pydict) :
  sleep_seconds (step_events live l n step) = step_seconds step.
Proof.
  unfold step_events, step_seconds.
  destruct (String.eqb (get_or (d_type step) "spin") "wait").
  - rewrite sleep_seconds_app, countdown_seconds, range_down_length.
    now destruct live.
  - rewrite sleep_seconds_app. simpl sleep_seconds at 2.
    rewrite countdown_seconds, range_down_length. now destruct live.
Qed.

Lemma pass_events_seconds (live : bool) (l n : Z) (steps : list pydict) :
  sleep_seconds
    (flat_map (fun step => Poll true :: step_events live l n step) steps)
  = pass_seconds steps.
Proof.
  induction steps as [|step steps IH]; [reflexivity|].
  cbn [flat_map pass_seconds fold_right]. rewrite sleep_seconds_app.
  fold (pass_seconds steps). rewrite IH. simpl sleep_seconds.
  now rewrite step_events_seconds.
Qed.

Lemma loop_events_seconds (live : bool) (w : worker) :
  sleep_seconds (loop_events live w)
  = Z.max 0 (loop_count w) * pass_seconds (recipe_steps w).
Proof.
  unfold loop_events.
  replace (Z.max 0 (loop_count w))
    with (Z.of_nat (length (range_up 1 (loop_count w + 1))))
    by (rewrite range_up_length; lia).
  induction (range_up 1 (loop_count w + 1)) as [|l ls IH]; [reflexivity|].
  cbn [flat_map length]. rewrite sleep_seconds_app, IH.
  simpl sleep_seconds. rewrite pass_events_seconds. lia.
Qed.

(** X21 (MotorWorker.run, how long a run takes): a run nobody
    cancels, with every key there and no call on the port failing,
    sleeps in all the seconds of one pass times the number of passes,
    and two seconds more on a live run once the port is open; a live
    run that gets no connection (no pyserial, or the port does not
    open) sleeps no second at all.  A pass takes the duration of each
    wait step and the duration plus the one-second ramp of each spin
    step; a duration or a loop count below zero counts as zero. *)
Theorem X21_uncancelled_run_duration (w : worker) (env : environment) :
  stop_after env = None -> forallb step_ok (recipe_steps w) = true ->
  simulation_mode w = true \/ fault_after env = None ->
  sleep_seconds (snd (run w env))
  = if simulation_mode w
    then Z.max 0 (loop_count w) * pass_seconds (recipe_steps w)
    else if SERIAL_AVAILABLE env
         then match open_error env with
              | None =>
                  2 + Z.max 0 (loop_count w) * pass_seconds (recipe_steps w)
              | Some _ => 0
              end
         else 0.
Proof.
  intros Hstop Hok Hcase. destruct (simulation_mode w) eqn:Hsim.
  - rewrite (run_free w env Hstop Hok) by (left; exact Hsim).
    rewrite Hsim. cbn [snd sleep_seconds].
    rewrite sleep_seconds_app, loop_events_seconds.
    cbn [sleep_seconds]. lia.
  - destruct Hcase as [H|Hfault]; [discriminate|].
    destruct (SERIAL_AVAILABLE env) eqn:Hav.
    2:{ unfold run, run_body, connect. rewrite Hsim, Hav. reflexivity. }
    destruct (open_error env) as [msg|] eqn:Herr.
    { unfold run, run_body, connect. rewrite Hsim, Hav, Herr. reflexivity. }
    rewrite (run_free w env Hstop Hok) by (right; auto).
    rewrite Hsim. cbn [snd].
    rewrite !sleep_seconds_app, loop_events_seconds.
    unfold startup, shutdown. cbn [sleep_seconds]. lia.
Qed.

Lemma X21_witness :
  sleep_seconds
    (snd (run (mkWorker [spin_2000_3 None; wait_2 None] 3 false)
              (mkEnv true None None None)))
  = 2 + Z.max 0 3 * pass_seconds [spin_2000_3 None; wait_2 None].
Proof.
  apply (X21_uncancelled_run_duration
           (mkWorker [spin_2000_3 None; wait_2 None] 3 false)
           (mkEnv true None None None)).
  - reflexivity.
  - reflexivity.
  - now right.
Defined.

(** ** The worker thread: what the window shows and what the motor got *)










(** ** The worker thread: what a cancelled run can still do *)

Lemma polls_true_app (t1 t2 : list event) :
  polls_true (t1 ++ t2) = (polls_true t1 + polls_true t2)%nat.
Proof. unfold polls_true. now rewrite filter_app, length_app. Qed.

Lemma progress_count_app (t1 t2 : list event) :
  progress_count (t1 ++ t2) = (progress_count t1 + progress_count t2)%nat.
Proof. unfold progress_count. now rewrite filter_app, length_app. Qed.

Lemma within_step (s sb : wstate) (tb t2 : list event) (r : result unit)
  (s3 : wstate) :
  polls_left s <> Some O ->
  within 1 (after_poll s) (Ok tt, sb, tb) -> within 0 sb (r, s3, t2) ->
  within 0 s (r, s3, Poll true :: (tb ++ t2)%list).
Proof.
  intros Hns [Hb [Hbp Hbs]] [Hl [Hlp Hls]].
  change (Poll true :: (tb ++ t2)%list) with ([Poll true] ++ tb ++ t2)%list.
  unfold within.
  rewrite !polls_true_app, !progress_count_app, !sleep_seconds_app.
  change (polls_true [Poll true]) with 1%nat.
  change (progress_count [Poll true]) with 0%nat.
  change (sleep_seconds [Poll true]) with 0.
  split; [|split; lia].
  intros k Hk. destruct k as [|k]; [contradiction|].
  assert (Hap : polls_left (after_poll s) = Some k)
    by (unfold after_poll; now rewrite Hk).
  destruct (Hb k Hap) as [k1 [Hk1 Hsum1]].
  destruct (Hl k1 Hk1) as [k2 [Hk2 Hsum2]].
  exists k2. split; [exact Hk2|lia].
Qed.

Lemma within_raise (s sb : wstate) (tb : list event) (e : exn) :
  polls_left s <> Some O ->
  within 1 (after_poll s) (Raise e, sb, tb) ->
  within 0 s (Raise e, sb, Poll true :: tb).
Proof.
  intros Hns [Hb [Hbp Hbs]].
  change (Poll true :: tb) with ([Poll true] ++ tb)%list.
  unfold within.
  rewrite !polls_true_app, !progress_count_app, !sleep_seconds_app.
  change (polls_true [Poll true]) with 1%nat.
  change (progress_count [Poll true]) with 0%nat.
  change (sleep_seconds [Poll true]) with 0.
  split; [|split; lia].
  intros k Hk. destruct k as [|k]; [contradiction|].
  assert (Hap : polls_left (after_poll s) = Some k)
    by (unfold after_poll; now rewrite Hk).
  destruct (Hb k Hap) as [k1 [Hk1 Hsum1]].
  exists k1. split; [exact Hk1|lia].
Qed.

Lemma within_nil (s : wstate) : within 0 s (Ok tt, s, []).
Proof.
  split; [|split; [reflexivity|reflexivity]].
  intros k Hk. exists k. now split.
Qed.

Lemma within_stop (s : wstate) : within 0 s (Ok tt, s, [Poll false]).
Proof.
  split; [|split; [reflexivity|reflexivity]].
  intros k Hk. exists k. now split.
Qed.

Lemma within_weaken (s : wstate) (out : result unit * wstate * list event) :
  within 0 s out -> within 1 s out.
Proof.
  destruct out as [[r s'] t]. intros [Ha [Hp Hs]].
  split; [exact Ha|]. split; lia.
Qed.

Lemma for_running_within {A : Type} (body : A -> M unit) (xs : list A)
  (s : wstate) :
  (forall x s, within 1 s (body x s)) ->
  within 0 s (for_running xs body s).
Proof.
  intros Hbody.
  apply (for_running_rule body (fun _ => True) (within 0) (within 1)).
  - apply within_nil.
  - intros s0 _. apply within_stop.
  - intros s0 sb tb r s3 t2. apply within_step.
  - intros s0 e sb tb. apply within_raise.
  - intros x s0 _. apply Hbody.
  - apply Forall_always.
Qed.

Lemma tick_within (m : message) (s : wstate) :
  within 1 s ((emit m ;; sleep 1) s).
Proof.
  rewrite tick_eq. split; [|split].
  - intros k Hk. exists k. now split.
  - unfold progress_count. simpl. destruct (is_step_progress m); simpl; lia.
  - reflexivity.
Qed.

Lemma within_empty (r : result unit) (s : wstate) : within 0 s (r, s, []).
Proof.
  split; [|split; [reflexivity|reflexivity]].
  intros k Hk. exists k. now split.
Qed.

(** A step: its write, then, for a spin, the ramp, then the
    countdown. *)
Lemma step_within (pre : list event) (s s1 : wstate)
  (out : result unit * wstate * list event) :
  polls_left s1 = polls_left s ->
  polls_true pre = O -> (progress_count pre <= 1)%nat ->
  sleep_seconds pre <= 1 ->
  within 0 s1 out ->
  within 1 s match out with (r, s', t) => (r, s', (pre ++ t)%list) end.
Proof.
  intros Hpolls Hp Hprog Hsleep. destruct out as [[r s'] t].
  unfold within. rewrite Hpolls.
  rewrite polls_true_app, progress_count_app, sleep_seconds_app, Hp.
  intros [Ha [Hb Hc]]. split; [exact Ha|]. split; lia.
Qed.

Lemma run_step_within (sim : bool) (l n : Z) (step : pydict) (s : wstate) :
  within 1 s (run_step sim l n step s).
Proof.
  rewrite run_step_cases.
  destruct (d_duration step) as [duration|];
    [|apply within_weaken, within_empty].
  destruct (String.eqb (get_or (d_type step) "spin") "wait").
  - destruct (write_if_live_cases sim (speed_command 0) s)
      as [[_ ->]|[[_ [s1 [-> [_ [Hpolls _]]]]]|[_ [_ ->]]]];
      [| |apply within_weaken, within_empty].
    + apply (step_within [] s s);
        [reflexivity|reflexivity|unfold progress_count; simpl; lia|simpl; lia|].
      apply for_running_within. intros t s0. apply tick_within.
    + apply (step_within [SerialWrite (speed_command 0)] s s1);
        [exact Hpolls|reflexivity|unfold progress_count; simpl; lia|simpl; lia|].
      apply for_running_within. intros t s0. apply tick_within.
  - destruct (d_speed step) as [speed|];
      [|apply within_weaken, within_empty].
    destruct (write_if_live_cases sim (speed_command speed) s)
      as [[_ ->]|[[_ [s1 [-> [_ [Hpolls _]]]]]|[_ [_ ->]]]];
      [| |apply within_weaken, within_empty].
    + apply (step_within
               [Emit (Ramping l n (get_or (d_name step) "Step") speed);
                Sleep 1] s s);
        [reflexivity|reflexivity|unfold progress_count; simpl; lia|simpl; lia|].
      apply for_running_within. intros t s0. apply tick_within.
    + apply (step_within
               [SerialWrite (speed_command speed);
                Emit (Ramping l n (get_or (d_name step) "Step") speed);
                Sleep 1] s s1);
        [exact Hpolls|reflexivity|unfold progress_count; simpl; lia|simpl; lia|].
      apply for_running_within. intros t s0. apply tick_within.
Qed.

Lemma execution_loop_within (w : worker) (s : wstate) :
  within 0 s (execution_loop w s).
Proof.
  unfold execution_loop. apply for_running_within. intros l s0.
  apply within_weaken, for_running_within. intros step s1.
  apply run_step_within.
Qed.

(** X23 (MotorWorker.run and MotorWorker.stop): a cancelled run is
    short.  If the thread sees the flag set only [k] more times, then
    whatever the steps and the loop count, and whether it returns or
    raises, it sends at most [k] step notifications and sleeps at
    most [k] seconds, beside the two seconds a live run waits after
    opening the port. *)
Theorem X23_cancelled_run_is_bounded
  (w : worker) (env : environment) (k : nat) :
  stop_after env = Some k ->
  (progress_count (snd (run w env)) <= k)%nat /\
  sleep_seconds (snd (run w env))
  <= (if simulation_mode w then 0 else 2) + Z.of_nat k.
Proof.
  intros Hstop. destruct (simulation_mode w) eqn:Hsim.
  - pose proof (run_sim_cases w env Hsim) as Hc.
    pose proof (execution_loop_within w
                  (mkState false (stop_after env) (fault_after env)))
      as Hw.
    destruct (execution_loop w _) as [[[[]|e'] s2] tl]; rewrite Hc;
      cbn [snd]; destruct Hw as [Ha [Hp Hs]];
      destruct (Ha k Hstop) as [k' [_ Hsum]].
    + change (Emit Initializing :: tl ++ [Emit ProcessComplete; Finished])%list
        with ([Emit Initializing] ++ tl ++
              [Emit ProcessComplete; Finished])%list.
      rewrite !progress_count_app, !sleep_seconds_app.
      change (progress_count [Emit Initializing]) with 0%nat.
      change (progress_count [Emit ProcessComplete; Finished]) with 0%nat.
      change (sleep_seconds [Emit Initializing]) with 0.
      change (sleep_seconds [Emit ProcessComplete; Finished]) with 0.
      lia.
    + change (Emit Initializing :: tl)
        with ([Emit Initializing] ++ tl)%list.
      rewrite !progress_count_app, !sleep_seconds_app.
      change (progress_count [Emit Initializing]) with 0%nat.
      change (sleep_seconds [Emit Initializing]) with 0.
      lia.
  - pose proof (execution_loop_within w
                  (mkState true (stop_after env) (fault_after env))) as Hw.
    destruct (run_live_cases w env Hsim)
      as [[m [Hm Hr]]|[[s2 [tl [He Hr]]]|[e' [s2 [tl [He Hr]]]]]].
    + rewrite Hr. cbn [snd].
      destruct Hm as [->|[e ->]]; unfold progress_count;
        cbn [filter is_progress_event is_step_progress length sleep_seconds];
        lia.
    + rewrite He in Hw. destruct Hw as [Ha [Hp Hs]].
      destruct (Ha k Hstop) as [k' [_ Hsum]].
      destruct Hr as [Hr|[Hr|Hr]]; rewrite Hr; cbn [snd];
        rewrite !progress_count_app, !sleep_seconds_app;
        change (progress_count startup) with 0%nat;
        change (progress_count shutdown) with 0%nat;
        change (progress_count [SerialWrite (speed_command 0)]) with 0%nat;
        change (sleep_seconds startup) with 2;
        change (sleep_seconds shutdown) with 0;
        change (sleep_seconds [SerialWrite (speed_command 0)]) with 0;
        lia.
    + rewrite He in Hw. destruct Hw as [Ha [Hp Hs]].
      destruct (Ha k Hstop) as [k' [_ Hsum]].
      rewrite Hr. cbn [snd].
      rewrite !progress_count_app, !sleep_seconds_app.
      change (progress_count startup) with 0%nat.
      change (sleep_seconds startup) with 2.
      lia.
Qed.

Lemma X23_witness :
  (progress_count
     (snd (run (mkWorker [spin_2000_3 None; wait_2 None] 5 false)
               (mkEnv true None (Some 4%nat) None))) <= 4)%nat /\
  sleep_seconds
    (snd (run (mkWorker [spin_2000_3 None; wait_2 None] 5 false)
              (mkEnv true None (Some 4%nat) None)))
  <= 2 + Z.of_nat 4.
Proof.
  apply (X23_cancelled_run_is_bounded
           (mkWorker [spin_2000_3 None; wait_2 None] 5 false)
           (mkEnv true None (Some 4%nat) None) 4).
  reflexivity.
Defined.

(* ================================================================= *)
(** ** The recipe form *)

Lemma dict_set_same (k : string) (v : pydict) (d : store) :
  dict_get k d = Some v -> dict_set k v d = d.
Proof.
  induction d as [|[k' v'] d IH]; simpl; [discriminate|].
  destruct (String.eqb_spec k k') as [->|Hne]; intros H.
  - congruence.
  - f_equal. now apply IH.
Qed.

(** X24 (load_selected_recipe_details, then save_recipe): clicking a
    recipe and pressing Save.  Take an item of the list whose text
    does not start with ["---"] and that carries a non-empty
    identifier, and under that identifier a recipe with a non-empty
    name, an author and its three numbers, each fitting a C [int].
    The click fills the form without raising; a Save by a non-empty
    operator allowed to update the recipe, with that item still
    selected and the form untouched, stores under the same identifier
    the name and the author unchanged, each number brought into the
    range of its spin box (0..100000, 0..360000, 0..100000), and
    [shared] as stored, [False] if the key was missing.  So when the
    numbers are in range and the record has exactly the six keys, the
    store is what it was. *)
Theorem X24_click_then_save (item : list_item) (user fresh : string)
  (g : gui) (f : form) (r_id n a : string) (data : pydict)
  (speed duration acceleration : Z) :
  user <> "" -> String.prefix "---" (text item) = false ->
  role item = Some r_id -> r_id <> "" ->
  dict_get r_id (saved_recipes g) = Some data ->
  d_name data = Some n -> n <> "" -> d_author data = Some a ->
  d_speed data = Some speed -> d_duration data = Some duration ->
  d_acceleration data = Some acceleration ->
  -2147483648 <= speed <= 2147483647 ->
  -2147483648 <= duration <= 2147483647 ->
  -2147483648 <= acceleration <= 2147483647 ->
  authorized user data ->
  let clicked := load_selected_recipe_details item g f in
  let saved := saved_recipes (snd (save_form (fst clicked) user (Some item)
                                             fresh g)) in
  snd clicked = None /\
  saved
  = dict_set r_id
      (recipe n (Z.max 0 (Z.min 100000 speed))
              (Z.max 0 (Z.min 360000 duration))
              (Z.max 0 (Z.min 100000 acceleration))
              a (get_or (d_shared data) false))
      (saved_recipes g) /\
  (0 <= speed <= 100000 -> 0 <= duration <= 360000 ->
   0 <= acceleration <= 100000 -> d_type data = None ->
   d_shared data <> None ->
   saved = saved_recipes g).
Proof.
  intros Hu Hpre Hrole Hid Hget Hn Hne Ha Hs Hd Hacc Hsr Hdr Haccr Hauth
         clicked saved.
  assert (Hclick : clicked
    = (mkForm n (Z.max 0 (Z.min 100000 speed))
              (Z.max 0 (Z.min 360000 duration))
              (Z.max 0 (Z.min 100000 acceleration))
              a (get_or (d_shared data) false), None)).
  { subst clicked. unfold load_selected_recipe_details.
    rewrite Hrole. apply str_is_empty_false in Hid. rewrite Hid, Hget.
    rewrite (named_not_empty _ _ Hn), Hn, Hs, Hd, Hacc, Ha.
    unfold setValue.
    replace ((-2147483648 <=? speed) && (speed <=? 2147483647)) with true
      by (symmetry; apply andb_true_intro; split; lia).
    replace ((-2147483648 <=? duration) && (duration <=? 2147483647))
      with true by (symmetry; apply andb_true_intro; split; lia).
    replace ((-2147483648 <=? acceleration) && (acceleration <=? 2147483647))
      with true by (symmetry; apply andb_true_intro; split; lia).
    reflexivity. }
  assert (Hsel : selected_recipe_id (Some item) = Some r_id).
  { unfold selected_recipe_id. rewrite Hpre, Hrole. simpl.
    apply str_is_empty_false in Hid. now rewrite Hid. }
  assert (Hsaved : saved
    = dict_set r_id
        (recipe n (Z.max 0 (Z.min 100000 speed))
                (Z.max 0 (Z.min 360000 duration))
                (Z.max 0 (Z.min 100000 acceleration))
                a (get_or (d_shared data) false))
        (saved_recipes g)).
  { subst saved. rewrite Hclick. unfold save_form. cbn [fst name_input
      speed_input duration_input accel_input shared_checkbox].
    now destruct (save_update_state n user (Some item)
                    (Z.max 0 (Z.min 100000 speed))
                    (Z.max 0 (Z.min 360000 duration))
                    (Z.max 0 (Z.min 100000 acceleration))
                    (get_or (d_shared data) false) fresh g r_id data a
                    Hu Hne Hsel Hget Hauth Ha) as [H _]. }
  split; [now rewrite Hclick|]. split; [exact Hsaved|].
  intros H1 H2 H3 Ht Hsh. rewrite Hsaved. apply dict_set_same.
  rewrite Hget. f_equal.
  replace (Z.max 0 (Z.min 100000 speed)) with speed by lia.
  replace (Z.max 0 (Z.min 360000 duration)) with duration by lia.
  replace (Z.max 0 (Z.min 100000 acceleration)) with acceleration by lia.
  destruct data as [ty nm sp du ac au sh]. simpl in *. subst.
  destruct sh as [sh|]; [reflexivity|congruence].
Qed.

Lemma X24_witness :
  snd (load_selected_recipe_details etch_item sample_gui
         (mkForm "" 0 0 0 "" false)) = None /\
  saved_recipes
    (snd (save_form
            (fst (load_selected_recipe_details etch_item sample_gui
                    (mkForm "" 0 0 0 "" false)))
            "al" (Some etch_item) "r4" sample_gui))
  = sample_store.
Proof.
  destruct (X24_click_then_save etch_item "al" "r4" sample_gui
              (mkForm "" 0 0 0 "" false) "r1" "Etch" "bob" etch 3000 30 500)
    as [Hclick [_ Hsame]].
  - discriminate.
  - reflexivity.
  - reflexivity.
  - discriminate.
  - reflexivity.
  - reflexivity.
  - discriminate.
  - reflexivity.
  - reflexivity.
  - reflexivity.
  - reflexivity.
  - lia.
  - lia.
  - lia.
  - right. reflexivity.
  - split; [exact Hclick|]. apply Hsame.
    + lia.
    + lia.
    + lia.
    + reflexivity.
    + discriminate.
Defined.

Lemma prefix_app (p n s : string) :
  String.prefix p n = true -> String.prefix p (n ++ s) = true.
Proof.
  revert n. induction p as [|c p IH]; intros n;
    [intros _; now destruct (n ++ s)%string|].
  destruct n as [|c' n]; cbn [String.prefix append]; [discriminate|].
  destruct (ascii_dec c c'); [apply IH|discriminate].
Qed.

Lemma listed_item_text (saved : store) (u r_id : string) (data : pydict)
  (item : list_item) :
  NoDup (keys saved) -> In (r_id, data) saved ->
  In item (fst (refresh_recipe_list saved u)) -> role item = Some r_id ->
  exists n suffix, d_name data = Some n /\ text item = n ++ suffix.
Proof.
  intros Hnd Hdata Hin Hrole.
  assert (Hsome : role item <> None) by congruence.
  destruct (refresh_items saved u item Hin Hsome)
    as [[p' [Hp Hi]]|[s' [Hs Hi]]].
  - apply render_private_items in Hi.
    destruct Hi as [k [d [n [Hk [Hn ->]]]]]. simpl in Hrole.
    inversion Hrole; subst k.
    apply (Permutation_in _ Hp), classify_private in Hk.
    destruct Hk as [Hk _].
    rewrite (NoDup_keys_functional _ _ _ _ Hnd Hdata Hk).
    exists n, "". split; [exact Hn|]. simpl.
    clear. induction n as [|c n IH]; simpl; congruence.
  - apply render_shared_items in Hi.
    destruct Hi as [k [d [n [a [Hk [Hn [Ha ->]]]]]]]. simpl in Hrole.
    inversion Hrole; subst k.
    apply (Permutation_in _ Hs), classify_shared in Hk.
    destruct Hk as [Hk _].
    rewrite (NoDup_keys_functional _ _ _ _ Hnd Hdata Hk).
    exists n. destruct (String.eqb a u).
    + exists "". split; [exact Hn|]. simpl.
      clear. induction n as [|c n IH]; simpl; congruence.
    + exists (" (" ++ a ++ ")"). split; [exact Hn|reflexivity].
Qed.

Lemma save_new_state (name user : string)
  (current_item : option list_item) (speed duration acceleration : Z)
  (shared : bool) (fresh : string) (g : gui) :
  user <> "" -> name <> "" ->
  selected_recipe_id current_item = None ->
  ~ In fresh (keys (saved_recipes g)) ->
  saved_recipes
    (snd (save_recipe name user current_item speed duration acceleration
                      shared fresh g))
  = (saved_recipes g
       ++ [(fresh, recipe name speed duration acceleration user shared)])%list.
Proof.
  intros Hu Hn Hsel Hfresh. unfold save_recipe.
  apply str_is_empty_false in Hu, Hn. rewrite Hu, Hn, Hsel. simpl.
  rewrite (dict_get_None _ _ Hfresh). simpl.
  rewrite after_refresh_snd.
  match goal with
  | |- context [refresh ?g1 ?u] => destruct (refresh_frame g1 u) as [-> _]
  end.
  simpl. now apply dict_set_fresh.
Qed.

(** X25 (save_recipe, the test on the text of the selected item): a
    recipe whose name starts with three dashes cannot be updated.
    Its item in the list starts with the name, so [save_recipe] takes
    it for a header and drops the selection: Save leaves the record
    as it is and stores what the form holds as one more recipe, under
    a new identifier and with the operator as author. *)
Theorem X25_dashed_name_is_never_updated (name user fresh : string)
  (item : list_item) (g : gui) (r_id n : string) (data : pydict)
  (speed duration acceleration : Z) (shared : bool) :
  user <> "" -> name <> "" ->
  NoDup (keys (saved_recipes g)) -> In (r_id, data) (saved_recipes g) ->
  d_name data = Some n -> String.prefix "---" n = true ->
  In item (fst (refresh_recipe_list (saved_recipes g) user)) ->
  role item = Some r_id ->
  ~ In fresh (keys (saved_recipes g)) ->
  saved_recipes
    (snd (save_recipe name user (Some item) speed duration acceleration
                      shared fresh g))
  = (saved_recipes g
       ++ [(fresh, recipe name speed duration acceleration user shared)])%list.
Proof.
  intros Hu Hname Hnd Hdata Hn Hpre Hin Hrole Hfresh.
  apply save_new_state; try assumption.
  destruct (listed_item_text _ _ _ _ _ Hnd Hdata Hin Hrole)
    as [n' [suffix [Hn' Htext]]].
  rewrite Hn in Hn'. inversion Hn'; subst n'.
  unfold selected_recipe_id. rewrite Htext, (prefix_app _ _ _ Hpre).
  reflexivity.
Qed.

Lemma X25_witness :
  saved_recipes
    (snd (save_recipe "--- Dry" "al" (Some (mkItem "--- Dry" (Some "r1")))
            900 20 100 false "r2"
            (mkGui [("r1", recipe "--- Dry" 800 20 100 "al" false)] ["al"]
                   [] [] None None [])))
  = [("r1", recipe "--- Dry" 800 20 100 "al" false);
     ("r2", recipe "--- Dry" 900 20 100 "al" false)].
Proof.
  apply (X25_dashed_name_is_never_updated "--- Dry" "al" "r2"
           (mkItem "--- Dry" (Some "r1"))
           (mkGui [("r1", recipe "--- Dry" 800 20 100 "al" false)] ["al"]
                  [] [] None None [])
           "r1" "--- Dry" (recipe "--- Dry" 800 20 100 "al" false)).
  - discriminate.
  - discriminate.
  - repeat constructor. simpl. tauto.
  - simpl. tauto.
  - reflexivity.
  - reflexivity.
  - vm_compute. tauto.
  - reflexivity.
  - simpl. intuition discriminate.
Defined.

(* ================================================================= *)
(** ** The history file and its table *)




